(** * LegoClicker native bridge: shallow embedding and checked properties

  Sources embedded here:
  - [src/McInjector/src/main/cpp/bridge.cpp]      (1.8.9 bridge, module [Bridge])
  - [src/McInjector/src/main/cpp/bridge_121.cpp]  (1.21 bridge, module [Bridge121])

  Conventions.
  - [std::string] is [string]; a byte is an [ascii] and is compared through
    its code [N_of_ascii].
  - C++ [int] values are [Z].
  - [float]/[double] arithmetic is kept abstract in the class [FloatOps];
    every function that computes on floats is written once, over any
    instance.  [RealOps] is the instance of exact real arithmetic. *)

From Stdlib Require Import ZArith NArith List String Ascii Bool Lia.
From Stdlib Require Import Reals Lra QArith Qreals.
Import ListNotations.
Open Scope string_scope.
Open Scope Z_scope.

Set Implicit Arguments.

(* ===================================================================== *)
(** * Strings the way the C++ code uses them *)
(* ===================================================================== *)

Module Str.

(** Code of a byte, as [(unsigned char)c]. *)
Definition code (c : ascii) : N := N_of_ascii c.

Definition byte (n : N) : ascii := ascii_of_N n.

(** [s.find(k)]: first position of [k] in [s], [None] for [npos]. *)
Definition find (s k : string) : option nat := index 0 k s.

(** [s.find(k, p)]. *)
Definition find_from (s k : string) (p : nat) : option nat := index p k s.

(** [s.find(k) == 0]. *)
Definition starts_with (s k : string) : bool :=
  match find s k with
  | Some O => true
  | _ => false
  end.

(** [s.find(k) != npos]. *)
Definition contains (s k : string) : bool :=
  match find s k with
  | Some _ => true
  | None => false
  end.

(** [s.find_first_of(set, p)] on the suffix starting at [p]; the result is
    relative to the start of that suffix. *)
Fixpoint first_of (set : list ascii) (s : string) : option nat :=
  match s with
  | EmptyString => None
  | String c rest =>
      if existsb (Ascii.eqb c) set then Some O
      else option_map S (first_of set rest)
  end.

(** [s.substr(p)] for [p <= s.size()]. *)
Fixpoint drop (p : nat) (s : string) : string :=
  match p, s with
  | O, _ => s
  | S p', String _ rest => drop p' rest
  | S _, EmptyString => EmptyString
  end.

(** [s.substr(0, n)]; also [s.resize(n)] when [n <= s.size()]. *)
Fixpoint take (n : nat) (s : string) : string :=
  match n, s with
  | O, _ => EmptyString
  | S n', String c rest => String c (take n' rest)
  | S _, EmptyString => EmptyString
  end.

Fixpoint all (p : ascii -> bool) (s : string) : bool :=
  match s with
  | EmptyString => true
  | String c rest => p c && all p rest
  end.

End Str.

(** The double-quote byte; JSON keys and values are built with it. *)
Definition dq : ascii := "034"%char.

Definition quoted (s : string) : string := String dq (s ++ String dq EmptyString).

(* ===================================================================== *)
(** * Floating point, kept abstract *)
(* ===================================================================== *)

(** The operations the two bridges perform on [float] (binary32) and
    [double] (binary64) values.  One carrier holds both kinds of value (a
    [float] converts to [double] without change, so that direction needs no
    operation).  Nothing is assumed about rounding, NaN or infinities: a
    statement proved for every instance holds for the machine's arithmetic
    too. *)
Class FloatOps (F : Type) : Type := {
  (* binary32 arithmetic *)
  f32_add : F -> F -> F;
  f32_sub : F -> F -> F;
  f32_mul : F -> F -> F;
  f32_div : F -> F -> F;
  f32_neg : F -> F;
  sqrtf : F -> F;
  sinf : F -> F;
  cosf : F -> F;
  tanf : F -> F;
  (* binary64 arithmetic *)
  f64_add : F -> F -> F;
  f64_sub : F -> F -> F;
  f64_mul : F -> F -> F;
  (* conversions: [(float)d], [(float)n], literals [1.5f] and [1.5] *)
  to_f32 : F -> F;
  int_to_f32 : Z -> F;
  int_to_f64 : Z -> F;
  lit32 : Q -> F;
  lit64 : Q -> F;
  (* [a < b] and [std::isfinite] *)
  flt : F -> F -> bool;
  isfinite : F -> bool;
  (* [std::stof]; [None] when it throws *)
  stof : string -> option F
}.

Declare Scope f32_scope.
Delimit Scope f32_scope with f32.
Infix "+" := f32_add : f32_scope.
Infix "-" := f32_sub : f32_scope.
Infix "*" := f32_mul : f32_scope.
Infix "/" := f32_div : f32_scope.
Notation "- x" := (f32_neg x) : f32_scope.

Declare Scope f64_scope.
Delimit Scope f64_scope with f64.
Infix "+" := f64_add : f64_scope.
Infix "-" := f64_sub : f64_scope.
Infix "*" := f64_mul : f64_scope.

(** [a > b]. *)
Definition fgt {F} `{FloatOps F} (a b : F) : bool := flt b a.

(** [(std::min)(a, b)] is [(b < a) ? b : a]; [(std::max)(a, b)] is
    [(a < b) ? b : a]. *)
Definition fmin {F} `{FloatOps F} (a b : F) : F := if flt b a then b else a.
Definition fmax {F} `{FloatOps F} (a b : F) : F := if flt a b then b else a.

(** [struct LegoVec3 { double x, y, z; }] and [struct Matrix4x4 { float m[16]; }]. *)
Record LegoVec3 (F : Type) : Type := { vec_x : F; vec_y : F; vec_z : F }.
Record Matrix4x4 (F : Type) : Type := { m : nat -> F }.
Arguments vec_x {F} _.
Arguments vec_y {F} _.
Arguments vec_z {F} _.
Arguments m {F} _ _.

(* --------------------------------------------------------------------- *)
(** ** Exact real arithmetic as an instance *)
(* --------------------------------------------------------------------- *)

Module Decimal.

Import Str.

(** [isspace] in the C locale. *)
Definition is_space (c : ascii) : bool :=
  let n := code c in ((n =? 32) || ((9 <=? n) && (n <=? 13)))%N.

Definition digit (c : ascii) : option Z :=
  let n := code c in
  if ((48 <=? n) && (n <=? 57))%N then Some (Z.of_N n - 48) else None.

Fixpoint skip_ws (s : string) : string :=
  match s with
  | String c rest => if is_space c then skip_ws rest else s
  | EmptyString => s
  end.

(** Optional sign: [(negative, rest)]. *)
Definition sign (s : string) : bool * string :=
  match s with
  | String "-"%char rest => (true, rest)
  | String "+"%char rest => (false, rest)
  | _ => (false, s)
  end.

(** Longest run of digits: value so far, number of digits read, rest. *)
Fixpoint digits (acc : Z) (n : nat) (s : string) : Z * nat * string :=
  match s with
  | String c rest =>
      match digit c with
      | Some d => digits (10 * acc + d) (S n) rest
      | None => (acc, n, s)
      end
  | EmptyString => (acc, n, s)
  end.

Definition INT_MIN : Z := - 2147483648.
Definition INT_MAX : Z := 2147483647.

(** [std::stoi(v)] in base 10: leading white space, an optional sign and the
    longest run of digits; [None] when it throws ([std::invalid_argument]
    when there is no digit, [std::out_of_range] outside [int]). *)
Definition stoi (v : string) : option Z :=
  let '(neg, s) := sign (skip_ws v) in
  let '(n, k, _) := digits 0 0 s in
  match k with
  | O => None
  | S _ =>
      let r := if neg then - n else n in
      if (INT_MIN <=? r) && (r <=? INT_MAX) then Some r else None
  end.

(** A plain decimal number [[ws][sign]digits[.digits]] as a rational;
    [None] when there is no digit at all. *)
Definition decimal (v : string) : option Q :=
  let '(neg, s) := sign (skip_ws v) in
  let '(ip, k1, s1) := digits 0 0 s in
  let '(fp, k2, _) :=
    match s1 with
    | String "."%char rest => digits 0 0 rest
    | _ => (0, O, s1)
    end in
  match (k1 + k2)%nat with
  | O => None
  | S _ =>
      let q := (inject_Z ip + inject_Z fp / inject_Z (10 ^ Z.of_nat k2))%Q in
      Some (if neg then (- q)%Q else q)
  end.

End Decimal.

Definition Rltb (a b : R) : bool := if Rlt_dec a b then true else false.

(** Exact arithmetic on the reals: no rounding, every value finite.
    [stof] reads plain decimal notation.  Division is total here, so a
    statement over this instance speaks of the code only where no divisor
    is zero. *)
#[export] Instance RealOps : FloatOps R := {
  f32_add := Rplus;
  f32_sub := Rminus;
  f32_mul := Rmult;
  f32_div := Rdiv;
  f32_neg := Ropp;
  sqrtf := sqrt;
  sinf := sin;
  cosf := cos;
  tanf := tan;
  f64_add := Rplus;
  f64_sub := Rminus;
  f64_mul := Rmult;
  to_f32 := fun x => x;
  int_to_f32 := IZR;
  int_to_f64 := IZR;
  lit32 := Q2R;
  lit64 := Q2R;
  flt := Rltb;
  isfinite := fun _ => true;
  stof := fun v => option_map Q2R (Decimal.decimal v)
}.

(* ===================================================================== *)
(** * The host runtime as the bridges see it through JNI *)
(* ===================================================================== *)

Module Jni.

(** A reference handed out by the host: a class, an object, a field id or a
    method id.  [nullptr] is [None] ([option Handle]); a call that raises a
    Java exception is modelled by the null result the code turns it into
    with [ExceptionCheck]/[ExceptionClear]. *)
Inductive Handle : Set :=
| Cls (name : string)
| Obj (id : Z)
| Fld (owner name : string)
| Mth (owner name sig : string).

Definition Handle_eq_dec (a b : Handle) : {a = b} + {a <> b}.
Proof. repeat decide equality. Defined.

(** What [java.lang.reflect.Field], [Method] and [Thread] objects answer:
    [getName], [Modifier.isStatic(getModifiers())], [getType] (null when
    the call fails), [getParameterTypes], [getReturnType],
    [getContextClassLoader]. *)
Record HostField : Set := {
  fld_name : string;
  fld_static : bool;
  fld_type : option Handle
}.

Record HostMethod : Set := {
  mth_name : string;
  mth_params : option (list Handle);
  mth_ret : option Handle
}.

Record HostThread : Set := {
  thr_name : string;
  thr_loader : option Handle
}.

(** The answers of the host during one discovery pass. *)
Record Host : Type := {
  GetEnv_JVMTI : bool;
  GetLoadedClasses : list Handle;
  getAllStackTraces : list HostThread;
  loadClass : Handle -> string -> option Handle;
  FindClass : string -> option Handle;
  getName : Handle -> option string;
  getDeclaredFields : Handle -> option (list HostField);
  getDeclaredMethods : Handle -> option (list HostMethod);
  getDeclaredConstructors : Handle -> option (list (option (list Handle)));
  getSuperclass : Handle -> option Handle;
  GetFieldID : Handle -> string -> string -> option Handle;
  GetStaticFieldID : Handle -> string -> string -> option Handle;
  GetMethodID : Handle -> string -> string -> option Handle;
  GetStaticMethodID : Handle -> string -> string -> option Handle;
  GetStaticObjectField : Handle -> Handle -> option Handle;
  GetObjectField : Handle -> Handle -> option Handle;
  GetObjectClass : Handle -> Handle;
  FromReflectedField : Handle -> HostField -> option Handle;
  IsAssignableFrom : Handle -> Handle -> bool
}.

(** [std::replace(s.begin(), s.end(), a, b)]. *)
Fixpoint replace_char (a b : ascii) (s : string) : string :=
  match s with
  | EmptyString => EmptyString
  | String c rest =>
      String (if Ascii.eqb c a then b else c) (replace_char a b rest)
  end.

(** [sig = "L" + tn + ";"] followed by the replacement of dots by
    slashes. *)
Definition sig_of (tn : string) : string :=
  replace_char "."%char "/"%char ("L" ++ tn ++ ";").

(** [GetClassNameFromClass(env, cls)]: empty for a null class or a failed
    call. *)
Definition GetClassNameFromClass (h : Host) (cls : option Handle) : string :=
  match cls with
  | Some c => match getName h c with Some n => n | None => EmptyString end
  | None => EmptyString
  end.

(** [LoadClassWithLoader(env, cl, name)]: slashes become dots before
    [ClassLoader.loadClass]. *)
Definition LoadClassWithLoader (h : Host) (cl : Handle) (name : string)
  : option Handle :=
  loadClass h cl (replace_char "/"%char "."%char name).

(** The first element of a list of attempts that is not null. *)
Fixpoint first_some {A} (l : list (option A)) : option A :=
  match l with
  | [] => None
  | Some a :: _ => Some a
  | None :: rest => first_some rest
  end.

End Jni.

(* ===================================================================== *)
(** * bridge.cpp (1.8.9 bridge) *)
(* ===================================================================== *)

Module Bridge.

Import Str.

(* --------------------------------------------------------------------- *)
(** ** Name sanitising (bridge.cpp:1322-1341) *)
(* --------------------------------------------------------------------- *)

(** [c >= 32 && c <= 126]. *)
Definition printable (c : ascii) : bool :=
  ((32 <=? code c) && (code c <=? 126))%N.

Definition is_C2 (c : ascii) : bool := (code c =? 194)%N.
Definition is_A7 (c : ascii) : bool := (code c =? 167)%N.

(** The [for] loop of [StripMinecraftFormatting] (bridge.cpp:1325-1338).
    The argument is the part of [in] from index [i] on, the result is what
    the remaining iterations push onto [out].
    - [c == 0xC2 && i + 2 < in.size() && in[i+1] == 0xA7]: two more bytes
      follow [c] and the first is [0xA7]; [i += 2; continue] and the loop's
      [i++] resume three bytes further.
    - [c == 0xA7]: [if (i + 1 < in.size()) i++; continue].
    - otherwise the byte is pushed when it is printable. *)
Fixpoint strip_loop (s : string) : string :=
  match s with
  | EmptyString => EmptyString
  | String c rest =>
      let plain :=
        if is_A7 c then
          match rest with
          | String _ rest' => strip_loop rest'
          | EmptyString => EmptyString
          end
        else if printable c then String c (strip_loop rest)
        else strip_loop rest in
      if is_C2 c then
        match rest with
        | String c1 (String _ rest') =>
            if is_A7 c1 then strip_loop rest' else plain
        | _ => plain
        end
      else plain
  end.

(** [if (out.size() > 96) out.resize(96); return out;] *)
Definition StripMinecraftFormatting (s : string) : string :=
  let out := strip_loop s in
  if (96 <? String.length out)%nat then take 96 out else out.

(** The three places that turn a host string into overlay text:
    [RenderNametags] (bridge.cpp:2090-2099, 2126), [RenderClosestPlayerInfo]
    (bridge.cpp:2375-2389) and [GetHeldItemInfoFromStack]
    (bridge.cpp:1589-1618).  The argument is what the host call produced,
    [None] when the accessor is unresolved or the call gave no string. *)
Definition nametag_displayName (getName : option string) : string :=
  let name := match getName with Some c => c | None => "Unknown" end in
  StripMinecraftFormatting name.

Definition closest_player_name (getName : option string) : string :=
  match getName with
  | Some c => StripMinecraftFormatting c
  | None => "Unknown"
  end.

Definition heldRawName (getDisplayName : option string) : string :=
  match getDisplayName with
  | Some heldChars => StripMinecraftFormatting heldChars
  | None => EmptyString
  end.

(* --------------------------------------------------------------------- *)
(** ** Matrix projection (bridge.cpp:1891-1915) *)
(* --------------------------------------------------------------------- *)

Section Projector.

Context {F : Type} {ops : FloatOps F}.

(** [x * view.m[a] + y * view.m[b] + z * view.m[c] + view.m[d]] with [x y z]
    of type [double]: computed in binary64, stored into a [float]. *)
Definition view_row (x y z : F) (view : Matrix4x4 F) (a b c d : nat) : F :=
  to_f32 (x * m view a + y * m view b + z * m view c + m view d)%f64.

(** [vX * proj.m[a] + vY * proj.m[b] + vZ * proj.m[c] + proj.m[d]], all
    [float]. *)
Definition proj_row (vX vY vZ : F) (proj : Matrix4x4 F) (a b c d : nat) : F :=
  (vX * m proj a + vY * m proj b + vZ * m proj c + m proj d)%f32.

(** The post-projection [w] component [pW]. *)
Definition WorldToScreen_pW (x y z : F) (view proj : Matrix4x4 F) : F :=
  let vX := view_row x y z view 0 4 8 12 in
  let vY := view_row x y z view 1 5 9 13 in
  let vZ := view_row x y z view 2 6 10 14 in
  proj_row vX vY vZ proj 3 7 11 15.

(** [WorldToScreen(x, y, z, view, proj, w, h, outX, outY)]: [Some (outX,
    outY)] when it returns [true], [None] when it returns [false] (the
    outputs are then left as they were). *)
Definition WorldToScreen (x y z : F) (view proj : Matrix4x4 F) (w h : Z)
  : option (F * F) :=
  let vX := view_row x y z view 0 4 8 12 in
  let vY := view_row x y z view 1 5 9 13 in
  let vZ := view_row x y z view 2 6 10 14 in
  let pX := proj_row vX vY vZ proj 0 4 8 12 in
  let pY := proj_row vX vY vZ proj 1 5 9 13 in
  let pW := proj_row vX vY vZ proj 3 7 11 15 in
  if flt pW (lit32 0.02) then None
  else
    let ndcX := (pX / pW)%f32 in
    let ndcY := (pY / pW)%f32 in
    let outX := ((ndcX + lit32 1) * lit32 0.5 * int_to_f32 w)%f32 in
    let outY := ((lit32 1 - ndcY) * lit32 0.5 * int_to_f32 h)%f32 in
    Some (outX, outY).

(* --------------------------------------------------------------------- *)
(** ** Nametag smoothing (bridge.cpp:190-197, 2189-2218) *)
(* --------------------------------------------------------------------- *)

Record TagSmoothingState : Type := {
  x : F;
  y : F;
  vx : F;
  vy : F;
  lastFrame : Z;
  init : bool
}.

(** A value-initialised entry, what [g_tagSmoothing[key]] creates for a key
    seen for the first time. *)
Definition TagSmoothingState_default : TagSmoothingState :=
  {| x := lit32 0; y := lit32 0; vx := lit32 0; vy := lit32 0;
     lastFrame := 0; init := false |}.

(** [dxs * dxs + dys * dys] for the target [(px, py)]. *)
Definition deltaSq (smooth : TagSmoothingState) (px py : F) : F :=
  let dxs := (px - x smooth)%f32 in
  let dys := (py - y smooth)%f32 in
  (dxs * dxs + dys * dys)%f32.

(** The blend factor of the branch that blends. *)
Definition blend_of (dist dSq : F) : F :=
  let blend := lit32 0.12 in
  let blend := if flt dist (lit64 12) then lit32 0.14 else blend in
  if flt dSq (lit32 6) then lit32 0.22 else blend.

(** The update of one entry for one drawn frame: [smooth] is the entry of
    the entity's key, [(px, py)] the panel position computed from this
    frame's projection, [dist] the distance to the local player and
    [frame] the value of [g_tagFrameCounter]. *)
Definition smooth_update (smooth : TagSmoothingState) (px py dist : F)
  (frame : Z) : TagSmoothingState :=
  if negb (init smooth) then
    {| x := px; y := py; vx := lit32 0; vy := lit32 0;
       lastFrame := frame; init := true |}
  else
    let dxs := (px - x smooth)%f32 in
    let dys := (py - y smooth)%f32 in
    let dSq := (dxs * dxs + dys * dys)%f32 in
    if fgt dSq (lit32 24000) then
      {| x := px; y := py; vx := lit32 0; vy := lit32 0;
         lastFrame := frame; init := true |}
    else
      let blend := blend_of dist dSq in
      {| x := (x smooth + dxs * blend)%f32;
         y := (y smooth + dys * blend)%f32;
         vx := vx smooth; vy := vy smooth;
         lastFrame := frame; init := true |}.

(** The entry of an entity drawn in every frame: [target k] is the
    [(px, py, dist)] of the frame drawn at frame counter [frame0 + k], and
    [smooth_seq smooth0 target frame0 n] the entry after [n] frames. *)
Fixpoint smooth_seq (smooth0 : TagSmoothingState) (target : nat -> F * F * F)
  (frame0 : Z) (n : nat) : TagSmoothingState :=
  match n with
  | O => smooth0
  | S k =>
      let '(px, py, dist) := target k in
      smooth_update (smooth_seq smooth0 target frame0 k) px py dist
        (frame0 + Z.of_nat k)
  end.

End Projector.

(* --------------------------------------------------------------------- *)
(** ** Config and its parser (bridge.cpp:50-71, 3386-3426) *)
(* --------------------------------------------------------------------- *)

(** The fields of [struct Config], grouped by type. *)
Inductive BoolField : Set :=
| leftClick | rightClick | jitter | rightBlockOnly | clickInChests
| nametags | closestPlayerInfo | nametagShowHealth | nametagShowArmor
| chestEsp | armed | clicking.

Inductive FloatField : Set := minCPS | maxCPS | rightMinCPS | rightMaxCPS.

Inductive IntField : Set :=
| keybindAutoclicker | keybindNametags | keybindClosestPlayer
| keybindChestEsp.

Definition BoolField_eq_dec (a b : BoolField) : {a = b} + {a <> b}.
Proof. decide equality. Defined.

Definition FloatField_eq_dec (a b : FloatField) : {a = b} + {a <> b}.
Proof. decide equality. Defined.

Definition IntField_eq_dec (a b : IntField) : {a = b} + {a <> b}.
Proof. decide equality. Defined.

Section ConfigParser.

Context {F : Type} {ops : FloatOps F}.

(** [struct Config]: [cfg_bool c nametags] is [c.nametags]. *)
Record Config : Type := {
  cfg_bool : BoolField -> bool;
  cfg_float : FloatField -> F;
  cfg_int : IntField -> Z
}.

(** The member initialisers of [struct Config]: the value of [g_config]
    when the library is loaded. *)
Definition Config_default : Config := {|
  cfg_bool := fun f =>
    match f with
    | leftClick | jitter | nametagShowHealth | nametagShowArmor => true
    | _ => false
    end;
  cfg_float := fun f =>
    match f with
    | minCPS | rightMinCPS => lit32 10
    | maxCPS | rightMaxCPS => lit32 14
    end;
  cfg_int := fun f =>
    match f with
    | keybindAutoclicker => 192
    | _ => 0
    end
|}.

(** [g_config.f = v]. *)
Definition set_bool (f : BoolField) (v : bool) (c : Config) : Config :=
  {| cfg_bool := fun g => if BoolField_eq_dec g f then v else cfg_bool c g;
     cfg_float := cfg_float c;
     cfg_int := cfg_int c |}.

Definition set_float (f : FloatField) (v : F) (c : Config) : Config :=
  {| cfg_bool := cfg_bool c;
     cfg_float := fun g => if FloatField_eq_dec g f then v else cfg_float c g;
     cfg_int := cfg_int c |}.

Definition set_int (f : IntField) (v : Z) (c : Config) : Config :=
  {| cfg_bool := cfg_bool c;
     cfg_float := cfg_float c;
     cfg_int := fun g => if IntField_eq_dec g f then v else cfg_int c g |}.

(** The text searched for a key: a quote, the key, a quote and a colon. *)
Definition key_pattern (key : string) : string :=
  String dq (key ++ String dq ":").

(** The lambda [getStr].  [rest] is the line from index [p] on, after
    [p += k.length()].
    - [line[p]] past the end reads the terminating zero, which is no quote,
      and [find_first_of] then finds nothing: the result is empty.
    - After an opening quote, [e = line.find(quote, p+1)] and
      [substr(p+1, e-p-1)]; with [e == npos] the count wraps to a huge value
      and [substr] runs to the end of the line.
    - Otherwise [e = line.find_first_of(",}", p)] and [substr(p, e-p)],
      again to the end of the line when nothing is found. *)
Definition getStr (line key : string) : string :=
  let k := key_pattern key in
  match find line k with
  | None => EmptyString
  | Some p =>
      let rest := drop (p + String.length k) line in
      match rest with
      | EmptyString => EmptyString
      | String c after =>
          if Ascii.eqb c dq then
            match first_of [dq] after with
            | Some e => take e after
            | None => after
            end
          else
            match first_of [","%char; "}"%char] rest with
            | Some e => take e rest
            | None => rest
            end
      end
  end.

Definition getBool (line key : string) : bool :=
  String.eqb (getStr line key) "true".

(** Statements of [ParseConfig] run on [g_config] and may leave by an
    exception ([std::stof] and [std::stoi] throw and nothing in the bridge
    catches): the state reached so far, and the value unless an exception
    is in flight. *)
Definition M (A : Type) : Type := Config -> Config * option A.

Definition ret {A} (a : A) : M A := fun c => (c, Some a).

Definition throw {A} : M A := fun c => (c, None).

Definition bind {A B} (ma : M A) (k : A -> M B) : M B :=
  fun c =>
    match ma c with
    | (c', Some a) => k a c'
    | (c', None) => (c', None)
    end.

Definition assign (upd : Config -> Config) : M unit :=
  fun c => (upd c, Some tt).

Notation "x <- ma ;; k" := (bind ma (fun x => k))
  (at level 61, ma at next level, right associativity).
Notation "ma ;; k" := (bind ma (fun _ => k))
  (at level 61, right associativity).

(** [v.empty() ? 0 : std::stof(v)]. *)
Definition getFloat (line key : string) : M F :=
  let v := getStr line key in
  match v with
  | EmptyString => ret (lit32 0)
  | _ => match stof v with Some r => ret r | None => throw end
  end.

(** [v.empty() ? -1 : std::stoi(v)]. *)
Definition getInt (line key : string) : M Z :=
  let v := getStr line key in
  match v with
  | EmptyString => ret (-1)
  | _ => match Decimal.stoi v with Some r => ret r | None => throw end
  end.

(** [{ int v = getInt(key); if (v >= 0) g_config.f = v; }] *)
Definition keybind (line key : string) (f : IntField) : M unit :=
  v <- getInt line key ;;
  if 0 <=? v then assign (set_int f v) else ret tt.

(** [ParseConfig(line)] on [g_config]. *)
Definition ParseConfig (line : string) : M unit :=
  let type := getStr line "type" in
  if String.eqb type "config" then
    assign (set_bool armed (getBool line "armed")) ;;
    assign (set_bool clicking (getBool line "clicking")) ;;
    v <- getFloat line "minCPS" ;; assign (set_float minCPS v) ;;
    v <- getFloat line "maxCPS" ;; assign (set_float maxCPS v) ;;
    assign (set_bool leftClick (getBool line "left")) ;;
    assign (set_bool rightClick (getBool line "right")) ;;
    v <- getFloat line "rightMinCPS" ;; assign (set_float rightMinCPS v) ;;
    v <- getFloat line "rightMaxCPS" ;; assign (set_float rightMaxCPS v) ;;
    assign (set_bool rightBlockOnly (getBool line "rightBlock")) ;;
    assign (set_bool jitter (getBool line "jitter")) ;;
    assign (set_bool clickInChests (getBool line "clickInChests")) ;;
    assign (set_bool nametags (getBool line "nametags")) ;;
    assign (set_bool closestPlayerInfo (getBool line "closestPlayerInfo")) ;;
    assign (set_bool nametagShowHealth (getBool line "nametagShowHealth")) ;;
    assign (set_bool nametagShowArmor (getBool line "nametagShowArmor")) ;;
    assign (set_bool chestEsp (getBool line "chestEsp")) ;;
    keybind line "keybindAutoclicker" keybindAutoclicker ;;
    keybind line "keybindNametags" keybindNametags ;;
    keybind line "keybindClosestPlayer" keybindClosestPlayer ;;
    keybind line "keybindChestEsp" keybindChestEsp
  else ret tt.

(** What [getFloat] and [getInt] return, [None] for an exception; neither
    touches [g_config]. *)
Definition float_value (line key : string) : option F :=
  match getStr line key with
  | EmptyString => Some (lit32 0)
  | v => stof v
  end.

Definition int_value (line key : string) : option Z :=
  match getStr line key with
  | EmptyString => Some (-1)
  | v => Decimal.stoi v
  end.

(** The effect of one keybind statement whose [getInt] returned [v]. *)
Definition apply_keybind (v : Z) (f : IntField) (c : Config)
  : Config :=
  if 0 <=? v then set_int f v c else c.

(** The JSON key of each field, as [ParseConfig] spells it. *)
Definition bool_key (f : BoolField) : string :=
  match f with
  | leftClick => "left"
  | rightClick => "right"
  | jitter => "jitter"
  | rightBlockOnly => "rightBlock"
  | clickInChests => "clickInChests"
  | nametags => "nametags"
  | closestPlayerInfo => "closestPlayerInfo"
  | nametagShowHealth => "nametagShowHealth"
  | nametagShowArmor => "nametagShowArmor"
  | chestEsp => "chestEsp"
  | armed => "armed"
  | clicking => "clicking"
  end.

Definition float_key (f : FloatField) : string :=
  match f with
  | minCPS => "minCPS"
  | maxCPS => "maxCPS"
  | rightMinCPS => "rightMinCPS"
  | rightMaxCPS => "rightMaxCPS"
  end.

Definition int_key (f : IntField) : string :=
  match f with
  | keybindAutoclicker => "keybindAutoclicker"
  | keybindNametags => "keybindNametags"
  | keybindClosestPlayer => "keybindClosestPlayer"
  | keybindChestEsp => "keybindChestEsp"
  end.

(** The key does not occur in the message. *)
Definition absent (line key : string) : Prop :=
  find line (key_pattern key) = None.

(** The lines of one connection handled in order (bridge.cpp:3530-3535);
    the server thread ends with the first exception. *)
Fixpoint ParseConfig_all (lines : list string) : M unit :=
  match lines with
  | [] => ret tt
  | line :: rest => ParseConfig line ;; ParseConfig_all rest
  end.

End ConfigParser.

Arguments Config F : clear implicits.

(* --------------------------------------------------------------------- *)
(** ** Discovery (bridge.cpp:279-1064) *)
(* --------------------------------------------------------------------- *)

Section Discovery.

Import Jni.

(** The part of the accessor cache written at bridge.cpp:394-442, 566-606
    and 768-839, named as in the source.  No other line of
    [DiscoverMappings] assigns one of these globals. *)
Inductive Role : Set :=
| g_mcClass | g_mcInstance | g_thePlayerField | g_currentScreenField
| g_theWorldField | g_playerEntitiesField | g_loadedTileEntityListField
| g_rotationYawField | g_rotationPitchField | g_getNameMethod
| g_getHeldItemMethod | g_getTotalArmorValueMethod
| g_lastTickPosXField | g_lastTickPosYField | g_lastTickPosZField.

Definition Role_eq_dec (a b : Role) : {a = b} + {a <> b}.
Proof. decide equality. Defined.

Definition Cache : Type := Role -> option Handle.

(** Every global starts as [nullptr]. *)
Definition Cache_initial : Cache := fun _ => None.

(** [g_r = v]. *)
Definition set_role (r : Role) (v : option Handle) (c : Cache) : Cache :=
  fun r' => if Role_eq_dec r' r then v else c r'.

Definition resolved (c : Cache) (r : Role) : bool :=
  match c r with Some _ => true | None => false end.

Definition unresolved (c : Cache) (r : Role) : bool := negb (resolved c r).

(** [if (!g_r) g_r = v]. *)
Definition set_if_unresolved (r : Role) (v : option Handle) (c : Cache) : Cache :=
  if unresolved c r then set_role r v c else c.

(** [GetGameClassLoader] (bridge.cpp:228-248): the context class loader,
    null or not, of the first thread whose name contains
    [Client thread]. *)
Fixpoint GetGameClassLoader_loop (threads : list HostThread) : option Handle :=
  match threads with
  | [] => None
  | t :: rest =>
      if contains (thr_name t) "Client thread" then thr_loader t
      else GetGameClassLoader_loop rest
  end.

Definition GetGameClassLoader (h : Host) : option Handle :=
  GetGameClassLoader_loop (getAllStackTraces h).

(** The name test of bridge.cpp:333-335. *)
Definition first_is_bracket (name : string) : bool :=
  match name with
  | String c _ => Ascii.eqb c "["%char
  | EmptyString => false
  end.

Definition skipped (name : string) : bool :=
  starts_with name "java." || starts_with name "sun."
  || starts_with name "javax." || starts_with name "com.sun."
  || starts_with name "org." || starts_with name "jdk."
  || starts_with name "com.google." || starts_with name "io."
  || first_is_bracket name.

(** The loop over the declared fields (bridge.cpp:340-351):
    [(hasSelf, objCount)]. *)
Definition scan_field (h : Host) (name : string) (st : bool * Z)
  (fld : HostField) : bool * Z :=
  let '(hasSelf, objCount) := st in
  match fld_type fld with
  | None => st
  | Some ft =>
      let tn := GetClassNameFromClass h (Some ft) in
      let isS := fld_static fld in
      (if isS && String.eqb tn name then true else hasSelf,
       if negb isS then objCount + 1 else objCount)
  end.

Definition scan_fields (h : Host) (name : string) (fields : list HostField)
  : bool * Z :=
  fold_left (scan_field h name) fields (false, 0).

(** A loaded class that passes [hasSelf && objCount > 15]. *)
Definition singleton_candidate (h : Host) (cls : Handle)
  : option (string * Z) :=
  match getName h cls with
  | None => None
  | Some name =>
      if skipped name then None
      else
        match getDeclaredFields h cls with
        | None => None
        | Some fields =>
            let '(hasSelf, objCount) := scan_fields h name fields in
            if hasSelf && (15 <? objCount) then Some (name, objCount)
            else None
        end
  end.

(** The scan (bridge.cpp:325-359): the loop leaves at the first class that
    passes. *)
Fixpoint scan_singleton (h : Host) (classes : list Handle)
  : option (Handle * string * Z) :=
  match classes with
  | [] => None
  | cls :: rest =>
      match singleton_candidate h cls with
      | Some (name, objCount) => Some (cls, name, objCount)
      | None => scan_singleton h rest
      end
  end.

Definition find_mcClass (h : Host) (gcl : Handle) : option (Handle * string) :=
  match LoadClassWithLoader h gcl "net.minecraft.client.Minecraft" with
  | Some c => Some (c, "net.minecraft.client.Minecraft")
  | None =>
      match scan_singleton h (GetLoadedClasses h) with
      | Some (cls, name, _) => Some (cls, name)
      | None => None
      end
  end.

(** The declared fields of the root class; the code asks for the array
    length without a null test, a root whose fields cannot be listed is
    taken to have none. *)
Definition mcFields_of (h : Host) (mcClass : Handle) : list HostField :=
  match getDeclaredFields h mcClass with
  | Some fs => fs
  | None => []
  end.

(** bridge.cpp:368-386: the last static field of the root's own type. *)
Definition singleton_step (h : Host) (mcClass : Handle) (mcName : string)
  (singletonField : option Handle) (fld : HostField) : option Handle :=
  match fld_type fld with
  | None => singletonField
  | Some ft =>
      if fld_static fld && String.eqb (GetClassNameFromClass h (Some ft)) mcName
      then GetStaticFieldID h mcClass (fld_name fld) (sig_of mcName)
      else singletonField
  end.

Definition find_singletonField (h : Host) (mcClass : Handle) (mcName : string)
  : option Handle :=
  fold_left (singleton_step h mcClass mcName) (mcFields_of h mcClass) None.

(** One method of the walk of bridge.cpp:412-422: [(isPlayer, isScreen)]. *)
Definition method_flags (h : Host) (st : bool * bool) (mth : HostMethod)
  : bool * bool :=
  let '(isPlayer, isScreen) := st in
  let cmn := mth_name mth in
  let rtn := GetClassNameFromClass h (mth_ret mth) in
  (if String.eqb cmn "getHealth" && String.eqb rtn "float" then true
   else isPlayer,
   if String.eqb cmn "drawScreen" || String.eqb cmn "drawDefaultBackground"
   then true else isScreen).

(** The walk up the hierarchy of a field's type, at most 10 classes. *)
Fixpoint walk_flags (h : Host) (depth_left : nat) (walk : option Handle)
  (st : bool * bool) : bool * bool :=
  match depth_left, walk with
  | S n, Some w =>
      let st :=
        match getDeclaredMethods h w with
        | Some methods => fold_left (method_flags h) methods st
        | None => st
        end in
      walk_flags h n (getSuperclass h w) st
  | _, _ => st
  end.

(** One field of the loop of bridge.cpp:394-442: the cache and the local
    [playerType]. *)
Definition player_screen_step (h : Host) (mcClass : Handle)
  (st : Cache * string) (fld : HostField) : Cache * string :=
  let '(c, playerType) := st in
  if fld_static fld then st
  else
    match fld_type fld with
    | None => st
    | Some ft =>
        let tn := GetClassNameFromClass h (Some ft) in
        let fn := fld_name fld in
        let '(isPlayer, isScreen) := walk_flags h 10 (Some ft) (false, false) in
        let '(c, playerType) :=
          if isPlayer && unresolved c g_thePlayerField then
            (set_role g_thePlayerField (GetFieldID h mcClass fn (sig_of tn)) c,
             tn)
          else (c, playerType) in
        let c :=
          if isScreen && unresolved c g_currentScreenField then
            set_role g_currentScreenField
              (GetFieldID h mcClass fn (sig_of tn)) c
          else c in
        (c, playerType)
    end.

(** bridge.cpp:576-585: the first field whose type name contains
    [WorldClient]. *)
Definition is_world_field (h : Host) (f : HostField) : bool :=
  match fld_type f with
  | Some ft => contains (GetClassNameFromClass h (Some ft)) "WorldClient"
  | None => false
  end.

Definition WorldClient_sig : string :=
  "Lnet/minecraft/client/multiplayer/WorldClient;".

(** bridge.cpp:566-606. *)
Definition store_root_and_world (h : Host) (mcClass mcInst : Handle)
  (c : Cache) : Cache :=
  let c := set_role g_mcClass (Some mcClass) c in
  let c := set_role g_mcInstance (Some mcInst) c in
  let c :=
    match List.find (is_world_field h) (mcFields_of h mcClass) with
    | Some f => set_role g_theWorldField (FromReflectedField h mcClass f) c
    | None => c
    end in
  let c :=
    if unresolved c g_theWorldField then
      let c := set_role g_theWorldField
                 (GetFieldID h mcClass "theWorld" WorldClient_sig) c in
      set_if_unresolved g_theWorldField
        (GetFieldID h mcClass "field_71441_e" WorldClient_sig) c
    else c in
  match c g_theWorldField, c g_mcInstance with
  | Some theWorld, Some inst =>
      match GetObjectField h inst theWorld with
      | Some world =>
          let worldClass := GetObjectClass h world in
          let c := set_role g_playerEntitiesField
                     (GetFieldID h worldClass "playerEntities"
                        "Ljava/util/List;") c in
          let c := set_if_unresolved g_playerEntitiesField
                     (GetFieldID h worldClass "field_73010_i"
                        "Ljava/util/List;") c in
          let c := set_role g_loadedTileEntityListField
                     (GetFieldID h worldClass "loadedTileEntityList"
                        "Ljava/util/List;") c in
          set_if_unresolved g_loadedTileEntityListField
            (GetFieldID h worldClass "field_147482_g" "Ljava/util/List;") c
      | None => c
      end
  | _, _ => c
  end.




(** The test of the [while] of bridge.cpp:779. *)
Definition hierarchy_pending (c : Cache) : bool :=
  unresolved c g_rotationYawField || unresolved c g_rotationPitchField
  || unresolved c g_getNameMethod || unresolved c g_getHeldItemMethod
  || unresolved c g_getTotalArmorValueMethod.

(** [if (!g_r) { g_r = get(wc, n1, sig); if (!g_r) g_r = get(wc, n2, sig);
    ... }]. *)
Definition resolve_by_names (r : Role)
  (get : Handle -> string -> string -> option Handle) (wc : Handle)
  (names : list string) (sig : string) (c : Cache) : Cache :=
  if unresolved c r then
    set_role r (first_some (map (fun n => get wc n sig) names)) c
  else c.

(** The body of the loop, bridge.cpp:783-835. *)
Definition hierarchy_body (h : Host) (wc : Handle) (c : Cache) : Cache :=
  let c := resolve_by_names g_rotationYawField (GetFieldID h) wc
             ["rotationYaw"; "field_70177_z"] "F" c in
  let c := resolve_by_names g_rotationPitchField (GetFieldID h) wc
             ["rotationPitch"; "field_70125_A"] "F" c in
  let c := resolve_by_names g_getNameMethod (GetMethodID h) wc
             ["getName"; "func_70005_c_"] "()Ljava/lang/String;" c in
  let c := resolve_by_names g_getHeldItemMethod (GetMethodID h) wc
             ["getHeldItem"; "func_70694_bm"]
             "()Lnet/minecraft/item/ItemStack;" c in
  let c := resolve_by_names g_getTotalArmorValueMethod (GetMethodID h) wc
             ["getTotalArmorValue"; "func_70658_aO"] "()I" c in
  let c := resolve_by_names g_lastTickPosXField (GetFieldID h) wc
             ["lastTickPosX"; "field_70142_S"; "prevPosX"] "D" c in
  let c := resolve_by_names g_lastTickPosYField (GetFieldID h) wc
             ["lastTickPosY"; "field_70137_T"; "prevPosY"] "D" c in
  resolve_by_names g_lastTickPosZField (GetFieldID h) wc
    ["lastTickPosZ"; "field_70136_U"; "prevPosZ"] "D" c.

(** [while (wc && d < 10 && (...))] of bridge.cpp:779-839. *)
Fixpoint scan_hierarchy_loop (h : Host) (depth_left : nat)
  (wc : option Handle) (c : Cache) : Cache :=
  match depth_left, wc with
  | S n, Some w =>
      if hierarchy_pending c then
        scan_hierarchy_loop h n (getSuperclass h w) (hierarchy_body h w c)
      else c
  | _, _ => c
  end.

(** bridge.cpp:768-839. *)
Definition scan_hierarchy (h : Host) (gcl : Handle) (playerType : string)
  (c : Cache) : Cache :=
  match playerType with
  | EmptyString => c
  | _ =>
      let pc :=
        match LoadClassWithLoader h gcl playerType with
        | Some pc => Some pc
        | None => FindClass h (replace_char "."%char "/"%char playerType)
        end in
      scan_hierarchy_loop h 10 pc c
  end.

(** The head of [DiscoverMappings] (bridge.cpp:279-390), which writes no
    global: the class loader, the root class and the root instance, or
    nothing when one of the five [return false] is taken. *)
Definition find_root (h : Host) : option (Handle * Handle * Handle) :=
  if negb (GetEnv_JVMTI h) then None
  else
    match GetGameClassLoader h with
    | None => None
    | Some gcl =>
        match find_mcClass h gcl with
        | None => None
        | Some (mcClass, mcName) =>
            match find_singletonField h mcClass mcName with
            | None => None
            | Some singletonField =>
                match GetStaticObjectField h mcClass singletonField with
                | None => None
                | Some mcInst => Some (gcl, mcClass, mcInst)
                end
            end
        end
    end.

(** [DiscoverMappings(env)] on the roles above: the cache after the pass
    and the value returned, [g_mapped = (g_thePlayerField != nullptr)]. *)
Definition DiscoverMappings (h : Host) (c : Cache) : Cache * bool :=
  match find_root h with
  | None => (c, false)
  | Some (gcl, mcClass, mcInst) =>
      let '(c, playerType) :=
        fold_left (player_screen_step h mcClass)
          (mcFields_of h mcClass) (c, EmptyString) in
      let c := store_root_and_world h mcClass mcInst c in
      let c := scan_hierarchy h gcl playerType c in
      (c, resolved c g_thePlayerField)
  end.


(** What [ServerLoop] does around discovery (bridge.cpp:3444-3446): one
    call, whose result is only logged. *)
Inductive Event : Type :=
| Discover (ok : bool) (after : Cache).

Definition ServerLoop_discovery (h : Host) : Cache * list Event :=
  let '(c, mapped) := DiscoverMappings h Cache_initial in
  (c, [Discover mapped c]).

(** The classes that pass the test of the scan, in the order of the class
    list, each with its name and its count. *)
Definition candidates (h : Host) (classes : list Handle)
  : list (Handle * string * Z) :=
  flat_map (fun cls =>
              match singleton_candidate h cls with
              | Some (name, objCount) => [(cls, name, objCount)]
              | None => []
              end) classes.

End Discovery.

End Bridge.

(* ===================================================================== *)
(** * bridge_121.cpp (1.21 bridge) *)
(* ===================================================================== *)

Module Bridge121.

Import Str.

(* --------------------------------------------------------------------- *)
(** ** Config and its parser (bridge_121.cpp:102-127, 148-200) *)
(* --------------------------------------------------------------------- *)

Inductive BoolField : Set :=
| armed | clicking | jitter | clickInChests | aimAssist | nametags
| chestEsp | closestPlayer | nametagHealth | nametagArmor | rightClick
| rightBlockOnly | breakBlocks | gtbHelper.

Inductive FloatField : Set := minCPS | maxCPS | rightMinCPS | rightMaxCPS.

Inductive IntField : Set := nametagMaxCount | chestEspMaxCount | gtbCount.

Inductive StrField : Set := gtbHint | gtbPreview.

Definition BoolField_eq_dec (a b : BoolField) : {a = b} + {a <> b}.
Proof. decide equality. Defined.

Definition FloatField_eq_dec (a b : FloatField) : {a = b} + {a <> b}.
Proof. decide equality. Defined.

Definition IntField_eq_dec (a b : IntField) : {a = b} + {a <> b}.
Proof. decide equality. Defined.

Definition StrField_eq_dec (a b : StrField) : {a = b} + {a <> b}.
Proof. decide equality. Defined.

Section ConfigParser.

Context {F : Type} {ops : FloatOps F}.

Record Config : Type := {
  cfg_bool : BoolField -> bool;
  cfg_float : FloatField -> F;
  cfg_int : IntField -> Z;
  cfg_str : StrField -> string
}.

Definition Config_default : Config := {|
  cfg_bool := fun f =>
    match f with
    | nametagHealth | nametagArmor => true
    | _ => false
    end;
  cfg_float := fun f =>
    match f with
    | minCPS | rightMinCPS => lit32 10
    | maxCPS | rightMaxCPS => lit32 14
    end;
  cfg_int := fun f =>
    match f with
    | nametagMaxCount => 8
    | chestEspMaxCount => 5
    | gtbCount => 0
    end;
  cfg_str := fun _ => EmptyString
|}.

Definition set_bool (f : BoolField) (v : bool) (c : Config) : Config :=
  {| cfg_bool := fun g => if BoolField_eq_dec g f then v else cfg_bool c g;
     cfg_float := cfg_float c;
     cfg_int := cfg_int c;
     cfg_str := cfg_str c |}.

Definition set_float (f : FloatField) (v : F) (c : Config) : Config :=
  {| cfg_bool := cfg_bool c;
     cfg_float := fun g => if FloatField_eq_dec g f then v else cfg_float c g;
     cfg_int := cfg_int c;
     cfg_str := cfg_str c |}.

Definition set_int (f : IntField) (v : Z) (c : Config) : Config :=
  {| cfg_bool := cfg_bool c;
     cfg_float := cfg_float c;
     cfg_int := fun g => if IntField_eq_dec g f then v else cfg_int c g;
     cfg_str := cfg_str c |}.

Definition set_str (f : StrField) (v : string) (c : Config) : Config :=
  {| cfg_bool := cfg_bool c;
     cfg_float := cfg_float c;
     cfg_int := cfg_int c;
     cfg_str := fun g => if StrField_eq_dec g f then v else cfg_str c g |}.

Definition key_pattern (key : string) : string :=
  String dq (key ++ String dq ":").

(** The lambda [getStr]: as in the 1.8.9 bridge, with the two guards added
    here: [if (p >= line.size()) return empty] and, after an opening quote
    with no closing one, [e == npos] gives the empty string. *)
Definition getStr (line key : string) : string :=
  let k := key_pattern key in
  match find line k with
  | None => EmptyString
  | Some p =>
      let rest := drop (p + String.length k) line in
      match rest with
      | EmptyString => EmptyString
      | String c after =>
          if Ascii.eqb c dq then
            match first_of [dq] after with
            | Some e => take e after
            | None => EmptyString
            end
          else
            match first_of [","%char; "}"%char] rest with
            | Some e => take e rest
            | None => rest
            end
      end
  end.

Definition getBool (line key : string) : bool :=
  String.eqb (getStr line key) "true".

(** [if (v.empty()) return 0.0f; try { return std::stof(v); } catch(...)
    { return 0.0f; }] *)
Definition getFloat (line key : string) : F :=
  let v := getStr line key in
  match v with
  | EmptyString => lit32 0
  | _ => match stof v with Some r => r | None => lit32 0 end
  end.

(** [if (v.empty()) return def; try { return std::stoi(v); } catch(...)
    { return def; }] *)
Definition getInt (line key : string) (def : Z) : Z :=
  let v := getStr line key in
  match v with
  | EmptyString => def
  | _ => match Decimal.stoi v with Some r => r | None => def end
  end.

(** [(std::max)(1, (std::min)(20, v))]. *)
Definition clamp_1_20 (v : Z) : Z := Z.max 1 (Z.min 20 v).

(** [ParseConfig(line)] as the new value of [g_config]. *)
Definition ParseConfig (line : string) (c : Config) : Config :=
  if negb (String.eqb (getStr line "type") "config") then c
  else
    let c := set_bool armed (getBool line "armed") c in
    let c := set_bool clicking (getBool line "clicking") c in
    let c := set_float minCPS (getFloat line "minCPS") c in
    let c := set_float maxCPS (getFloat line "maxCPS") c in
    let c := set_bool jitter (getBool line "jitter") c in
    let c := set_bool clickInChests (getBool line "clickInChests") c in
    let c := set_bool aimAssist (getBool line "aimAssist") c in
    let c := set_bool nametags (getBool line "nametags") c in
    let c := set_bool chestEsp (getBool line "chestEsp") c in
    let c := set_bool closestPlayer (getBool line "closestPlayerInfo") c in
    let c := set_bool nametagHealth (getBool line "nametagShowHealth") c in
    let c := set_bool nametagArmor (getBool line "nametagShowArmor") c in
    let c := set_int nametagMaxCount
      (clamp_1_20 (getInt line "nametagMaxCount" (cfg_int c nametagMaxCount))) c in
    let c := set_int chestEspMaxCount
      (clamp_1_20 (getInt line "chestEspMaxCount" (cfg_int c chestEspMaxCount))) c in
    let c := set_bool rightClick (getBool line "right") c in
    let c := set_float rightMinCPS (getFloat line "rightMinCPS") c in
    let c := set_float rightMaxCPS (getFloat line "rightMaxCPS") c in
    let c := set_bool rightBlockOnly (getBool line "rightBlock") c in
    let c := set_bool breakBlocks (getBool line "breakBlocks") c in
    let c := set_bool gtbHelper (getBool line "gtbHelper") c in
    let c := set_str gtbHint (getStr line "gtbHint") c in
    let c := set_int gtbCount (getInt line "gtbCount" 0) c in
    set_str gtbPreview (getStr line "gtbPreview") c.

Definition bool_key (f : BoolField) : string :=
  match f with
  | armed => "armed"
  | clicking => "clicking"
  | jitter => "jitter"
  | clickInChests => "clickInChests"
  | aimAssist => "aimAssist"
  | nametags => "nametags"
  | chestEsp => "chestEsp"
  | closestPlayer => "closestPlayerInfo"
  | nametagHealth => "nametagShowHealth"
  | nametagArmor => "nametagShowArmor"
  | rightClick => "right"
  | rightBlockOnly => "rightBlock"
  | breakBlocks => "breakBlocks"
  | gtbHelper => "gtbHelper"
  end.

Definition float_key (f : FloatField) : string :=
  match f with
  | minCPS => "minCPS"
  | maxCPS => "maxCPS"
  | rightMinCPS => "rightMinCPS"
  | rightMaxCPS => "rightMaxCPS"
  end.

Definition int_key (f : IntField) : string :=
  match f with
  | nametagMaxCount => "nametagMaxCount"
  | chestEspMaxCount => "chestEspMaxCount"
  | gtbCount => "gtbCount"
  end.

Definition str_key (f : StrField) : string :=
  match f with
  | gtbHint => "gtbHint"
  | gtbPreview => "gtbPreview"
  end.

Definition absent (line key : string) : Prop :=
  find line (key_pattern key) = None.

(** The two render caps stay between 1 and 20. *)
Definition counts_ok (c : Config) : Prop :=
  forall f, f <> gtbCount -> 1 <= cfg_int c f <= 20.

(** The packets of a connection handled in order (bridge_121.cpp:4933),
    starting from [c]. *)
Definition ParseConfig_all (lines : list string) (c : Config) : Config :=
  fold_left (fun c line => ParseConfig line c) lines c.

End ConfigParser.

Arguments Config F : clear implicits.

(* --------------------------------------------------------------------- *)
(** ** Projection (bridge_121.cpp:358-458) *)
(* --------------------------------------------------------------------- *)

Section Projector.

Context {F : Type} {ops : FloatOps F}.

(** [(float)(a - b)] with [a b] of type [double]. *)
Definition delta (a b : F) : F := to_f32 (a - b)%f64.

(** [a * mat.m[i] + b * mat.m[j] + c * mat.m[k] + d * mat.m[l]]; for the
    view matrix the last product is the bare [view.m[l]]. *)
Definition row4 (a b c d : F) (mat : Matrix4x4 F) (i j k l : nat) : F :=
  (a * m mat i + b * m mat j + c * m mat k + d * m mat l)%f32.

Definition row3 (a b c : F) (mat : Matrix4x4 F) (i j k l : nat) : F :=
  (a * m mat i + b * m mat j + c * m mat k + m mat l)%f32.

(** The post-projection [w] component [ndcW] of [WorldToScreen]. *)
Definition WorldToScreen_ndcW (pos camPos : LegoVec3 F)
  (view proj : Matrix4x4 F) : F :=
  let dx := delta (vec_x pos) (vec_x camPos) in
  let dy := delta (vec_y pos) (vec_y camPos) in
  let dz := delta (vec_z pos) (vec_z camPos) in
  let clipX := row3 dx dy dz view 0 4 8 12 in
  let clipY := row3 dx dy dz view 1 5 9 13 in
  let clipZ := row3 dx dy dz view 2 6 10 14 in
  let clipW := row3 dx dy dz view 3 7 11 15 in
  row4 clipX clipY clipZ clipW proj 3 7 11 15.

(** Steps 4 and 5 shared by both strategies: the final mapping to pixels
    and its finiteness check. *)
Definition to_screen (ndcX ndcY : F) (winW winH : Z) : option (F * F) :=
  let sx := ((ndcX + lit32 1) * lit32 0.5 * int_to_f32 winW)%f32 in
  let sy := ((lit32 1 - ndcY) * lit32 0.5 * int_to_f32 winH)%f32 in
  if negb (isfinite sx) || negb (isfinite sy) then None
  else Some (sx, sy).

(** [WorldToScreen(pos, camPos, view, proj, winW, winH, sx, sy)]: [Some
    (sx, sy)] when it returns [true], [None] when it returns [false]. *)
Definition WorldToScreen (pos camPos : LegoVec3 F) (view proj : Matrix4x4 F)
  (winW winH : Z) : option (F * F) :=
  let dx := delta (vec_x pos) (vec_x camPos) in
  let dy := delta (vec_y pos) (vec_y camPos) in
  let dz := delta (vec_z pos) (vec_z camPos) in
  let clipX := row3 dx dy dz view 0 4 8 12 in
  let clipY := row3 dx dy dz view 1 5 9 13 in
  let clipZ := row3 dx dy dz view 2 6 10 14 in
  let clipW := row3 dx dy dz view 3 7 11 15 in
  let ndcX := row4 clipX clipY clipZ clipW proj 0 4 8 12 in
  let ndcY := row4 clipX clipY clipZ clipW proj 1 5 9 13 in
  let ndcW := row4 clipX clipY clipZ clipW proj 3 7 11 15 in
  if negb (isfinite ndcW) || flt ndcW (lit32 0.1) then None
  else
    let ndcX := (ndcX / ndcW)%f32 in
    let ndcY := (ndcY / ndcW)%f32 in
    if negb (isfinite ndcX) || negb (isfinite ndcY) then None
    else to_screen ndcX ndcY winW winH.

(** [const float PI = 3.14159265f]. *)
Definition PI_f : F := lit32 3.14159265.

(** [deg * (PI / 180.0f)]. *)
Definition to_rad (deg : F) : F := (deg * (PI_f / lit32 180))%f32.

(** The forward vector [(fX, fY, fZ)]. *)
Definition forward (yawDeg pitchDeg : F) : F * F * F :=
  let yaw := to_rad yawDeg in
  let pitch := to_rad pitchDeg in
  let sinY := sinf yaw in
  let cosY := cosf yaw in
  let sinP := sinf pitch in
  let cosP := cosf pitch in
  ((- sinY * cosP)%f32, (- sinP)%f32, (cosY * cosP)%f32).

(** The forward component [vFwd] of the camera-relative offset. *)
Definition WorldToScreen_Angles_vFwd (worldPos camPos : LegoVec3 F)
  (yawDeg pitchDeg : F) : F :=
  let dx := delta (vec_x worldPos) (vec_x camPos) in
  let dy := delta (vec_y worldPos) (vec_y camPos) in
  let dz := delta (vec_z worldPos) (vec_z camPos) in
  let '(fX, fY, fZ) := forward yawDeg pitchDeg in
  (dx * fX + dy * fY + dz * fZ)%f32.

(** [WorldToScreen_Angles(worldPos, camPos, yawDeg, pitchDeg, fovDeg, winW,
    winH, sx, sy)]. *)
Definition WorldToScreen_Angles (worldPos camPos : LegoVec3 F)
  (yawDeg pitchDeg fovDeg : F) (winW winH : Z) : option (F * F) :=
  let dx := delta (vec_x worldPos) (vec_x camPos) in
  let dy := delta (vec_y worldPos) (vec_y camPos) in
  let dz := delta (vec_z worldPos) (vec_z camPos) in
  let '(fX, fY, fZ) := forward yawDeg pitchDeg in
  let upX0 := lit32 0 in
  let upY0 := lit32 1 in
  let upZ0 := lit32 0 in
  let rX := (upY0 * fZ - upZ0 * fY)%f32 in
  let rY := (upZ0 * fX - upX0 * fZ)%f32 in
  let rZ := (upX0 * fY - upY0 * fX)%f32 in
  let rLen := sqrtf (rX * rX + rY * rY + rZ * rZ)%f32 in
  let '(rX, rY, rZ, rLen) :=
    if flt rLen (lit32 0.000001)
    then (lit32 1, lit32 0, lit32 0, lit32 1)
    else (rX, rY, rZ, rLen) in
  let rX := (rX / rLen)%f32 in
  let rY := (rY / rLen)%f32 in
  let rZ := (rZ / rLen)%f32 in
  let uX := (fY * rZ - fZ * rY)%f32 in
  let uY := (fZ * rX - fX * rZ)%f32 in
  let uZ := (fX * rY - fY * rX)%f32 in
  let vFwd := (dx * fX + dy * fY + dz * fZ)%f32 in
  let vRight := (dx * rX + dy * rY + dz * rZ)%f32 in
  let vUp := (dx * uX + dy * uY + dz * uZ)%f32 in
  if negb (isfinite vFwd) || flt vFwd (lit32 0.1) then None
  else
    let aspect := (int_to_f32 winW / int_to_f32 winH)%f32 in
    let tanHalfFov := tanf (fovDeg * lit32 0.5 * (PI_f / lit32 180))%f32 in
    let ndcX := ((vRight / vFwd) / (tanHalfFov * aspect))%f32 in
    let ndcY := ((vUp / vFwd) / tanHalfFov)%f32 in
    if negb (isfinite ndcX) || negb (isfinite ndcY) then None
    else to_screen ndcX ndcY winW winH.

(* --------------------------------------------------------------------- *)
(** ** Overlay smoothing (bridge_121.cpp:4269-4336) *)
(* --------------------------------------------------------------------- *)

(** [struct SmoothedPoint { std::string key; float sx, sy; DWORD
    lastSeenMs; }]. *)
Record SmoothedPoint : Type := {
  key : string;
  sx : F;
  sy : F;
  lastSeenMs : Z
}.

(** [(std::max)(0.15f, (std::min)(0.65f, io.DeltaTime * 14.0f))]. *)
Definition overlaySmoothAlpha (DeltaTime : F) : F :=
  fmax (lit32 0.15) (fmin (lit32 0.65) (DeltaTime * lit32 14)%f32).

(** [DWORD] subtraction. *)
Definition dword_sub (a b : Z) : Z := (a - b) mod 2 ^ 32.

(** The [erase(remove_if(...))] at the start of the frame: entries not
    refreshed for more than 1200 ms go. *)
Definition evict_stale (now : Z) (l : list SmoothedPoint) : list SmoothedPoint :=
  filter (fun p => negb (1200 <? dword_sub now (lastSeenMs p))) l.

(** The body of [if (sm.key == smoothKey)]: the entry after blending
    towards [(sx, sy)]. *)
Definition blend_point (sm : SmoothedPoint) (x y alpha : F) (now : Z)
  : SmoothedPoint :=
  {| key := key sm;
     sx := (sx sm + (x - sx sm) * alpha)%f32;
     sy := (sy sm + (y - sy sm) * alpha)%f32;
     lastSeenMs := now |}.

(** The loop over [s_nametagSmooth] for one projected player: the first
    entry with the player's key is blended and gives the drawn position;
    with no such entry one is appended at the projected position, which is
    drawn as it is. *)
Fixpoint smooth_nametag (l : list SmoothedPoint) (smoothKey : string)
  (x y alpha : F) (now : Z) : list SmoothedPoint * (F * F) :=
  match l with
  | [] =>
      ([ {| key := smoothKey; sx := x; sy := y; lastSeenMs := now |} ], (x, y))
  | sm :: rest =>
      if String.eqb (key sm) smoothKey then
        let sm' := blend_point sm x y alpha now in
        (sm' :: rest, (sx sm', sy sm'))
      else
        let '(rest', out) := smooth_nametag rest smoothKey x y alpha now in
        (sm :: rest', out)
  end.

(** An entry whose player is projected in every frame: [frames k] is the
    [(x, y, DeltaTime, now)] of frame [k], and [smooth_seq sm0 frames n] the
    entry after [n] frames. *)
Fixpoint smooth_seq (sm0 : SmoothedPoint) (frames : nat -> F * F * F * Z)
  (n : nat) : SmoothedPoint :=
  match n with
  | O => sm0
  | S k =>
      let '(x, y, dt, now) := frames k in
      blend_point (smooth_seq sm0 frames k) x y (overlaySmoothAlpha dt) now
  end.

End Projector.

(* --------------------------------------------------------------------- *)
(** ** Discovery (bridge_121.cpp:2548-3055) and its retry (4743-4760) *)
(* --------------------------------------------------------------------- *)

Section Discovery.

Import Jni.

(** The accessor cache: the JNI globals that [DiscoverJniMappings] writes,
    named as in the source. *)
Inductive Role : Set :=
| g_gameClassLoader | g_mcInstance | g_setScreenMethod | g_chatScreenClass
| g_chatScreenCtor | g_screenField
| g_renderSystemClass_121 | g_getProjectionMatrix_121
| g_getModelViewMatrix_121
| g_matrix4fClass_121
| g_matrixM00 | g_matrixM01 | g_matrixM02 | g_matrixM03
| g_matrixM10 | g_matrixM11 | g_matrixM12 | g_matrixM13
| g_matrixM20 | g_matrixM21 | g_matrixM22 | g_matrixM23
| g_matrixM30 | g_matrixM31 | g_matrixM32 | g_matrixM33
| g_matrixGetFloatArray_121
| g_gameRendererField_121 | g_gameRendererCameraField_121
| g_cameraClass_121 | g_cameraPosF_121 | g_cameraYawF_121
| g_cameraPitchF_121
| g_vec3dClass_121 | g_vec3dX_121 | g_vec3dY_121 | g_vec3dZ_121.

Definition Role_eq_dec (a b : Role) : {a = b} + {a <> b}.
Proof. decide equality. Defined.

Record Cache : Type := {
  role : Role -> option Handle;
  g_chatCtorKind : Z;
  g_chatJniReady : bool;
  g_stateJniReady : bool;
  g_screenType : string
}.

(** The globals as the loader leaves them. *)
Definition Cache_initial : Cache := {|
  role := fun _ => None;
  g_chatCtorKind := 0;
  g_chatJniReady := false;
  g_stateJniReady := false;
  g_screenType := EmptyString
|}.

(** [g_r = v]. *)
Definition set_role (r : Role) (v : option Handle) (c : Cache) : Cache :=
  {| role := fun r' => if Role_eq_dec r' r then v else role c r';
     g_chatCtorKind := g_chatCtorKind c;
     g_chatJniReady := g_chatJniReady c;
     g_stateJniReady := g_stateJniReady c;
     g_screenType := g_screenType c |}.

Definition set_chatCtorKind (k : Z) (c : Cache) : Cache :=
  {| role := role c; g_chatCtorKind := k;
     g_chatJniReady := g_chatJniReady c;
     g_stateJniReady := g_stateJniReady c;
     g_screenType := g_screenType c |}.

Definition set_screenType (tn : string) (c : Cache) : Cache :=
  {| role := role c; g_chatCtorKind := g_chatCtorKind c;
     g_chatJniReady := g_chatJniReady c;
     g_stateJniReady := g_stateJniReady c;
     g_screenType := tn |}.

Definition set_ready (state chat : bool) (c : Cache) : Cache :=
  {| role := role c; g_chatCtorKind := g_chatCtorKind c;
     g_chatJniReady := chat;
     g_stateJniReady := state;
     g_screenType := g_screenType c |}.

(** [g_r != nullptr] and [!g_r]. *)
Definition resolved (c : Cache) (r : Role) : bool :=
  match role c r with Some _ => true | None => false end.

Definition unresolved (c : Cache) (r : Role) : bool := negb (resolved c r).

(** [if (!g_r) g_r = v]. *)
Definition set_if_unresolved (r : Role) (v : option Handle) (c : Cache) : Cache :=
  if unresolved c r then set_role r v c else c.

(** [GetGameClassLoader] (bridge_121.cpp:2548-2574): the context class
    loader of the first thread whose name contains one of the three
    patterns and whose loader is not null. *)
Definition is_game_thread (cn : string) : bool :=
  contains cn "Render thread" || contains cn "Client thread"
  || contains cn "main".

Fixpoint GetGameClassLoader_loop (threads : list HostThread) : option Handle :=
  match threads with
  | [] => None
  | t :: rest =>
      if is_game_thread (thr_name t) then
        match thr_loader t with
        | Some cl => Some cl
        | None => GetGameClassLoader_loop rest
        end
      else GetGameClassLoader_loop rest
  end.

Definition GetGameClassLoader (h : Host) : option Handle :=
  GetGameClassLoader_loop (getAllStackTraces h).

(** The name test that skips JDK, library, launcher and Lunar classes
    (bridge_121.cpp:2662-2666). *)
Definition first_is_bracket (name : string) : bool :=
  match name with
  | String c _ => Ascii.eqb c "["%char
  | EmptyString => false
  end.

Definition skipped (name : string) : bool :=
  starts_with name "java." || starts_with name "sun."
  || starts_with name "javax." || starts_with name "com.sun."
  || starts_with name "org." || starts_with name "jdk."
  || starts_with name "com.google." || starts_with name "io."
  || first_is_bracket name
  || starts_with name "com.moonsworth."
  || starts_with name "com.lunarclient." || starts_with name "lunar.".

(** The inner loop over the declared fields of a class named [name]
    (bridge_121.cpp:2671-2682): [(hasSelf, objCount)].  A field whose type
    cannot be read is passed over before it is counted. *)
Definition scan_field (h : Host) (name : string) (st : bool * Z)
  (fld : HostField) : bool * Z :=
  let '(hasSelf, objCount) := st in
  match fld_type fld with
  | None => st
  | Some ft =>
      let tn := GetClassNameFromClass h (Some ft) in
      let isS := fld_static fld in
      (if isS && String.eqb tn name then true else hasSelf,
       if negb isS then objCount + 1 else objCount)
  end.

Definition scan_fields (h : Host) (name : string) (fields : list HostField)
  : bool * Z :=
  fold_left (scan_field h name) fields (false, 0).

(** A loaded class that passes [hasSelf && objCount > 15], with its name
    and its count; [None] for a class that is skipped, cannot be read or
    does not pass. *)
Definition singleton_candidate (h : Host) (cls : Handle)
  : option (string * Z) :=
  match getName h cls with
  | None => None
  | Some name =>
      if skipped name then None
      else
        match getDeclaredFields h cls with
        | None => None
        | Some fields =>
            let '(hasSelf, objCount) := scan_fields h name fields in
            if hasSelf && (15 <? objCount) then Some (name, objCount)
            else None
        end
  end.

Definition in_net_minecraft (name : string) : bool :=
  starts_with name "net.minecraft".

(** The test [better] (bridge_121.cpp:2686-2689) against the best
    candidate so far. *)
Definition better (best : option (Handle * string * Z)) (name : string)
  (objCount : Z) : bool :=
  match best with
  | None => true
  | Some (_, bestName, bestFields) =>
      if in_net_minecraft name && negb (in_net_minecraft bestName) then true
      else if (bestFields <? objCount) && negb (in_net_minecraft bestName)
      then true
      else false
  end.

(** One iteration of the scan over the loaded classes. *)
Definition scan_step (h : Host) (best : option (Handle * string * Z))
  (cls : Handle) : option (Handle * string * Z) :=
  match singleton_candidate h cls with
  | None => best
  | Some (name, objCount) =>
      if better best name objCount then Some (cls, name, objCount) else best
  end.

(** The fallback scan (bridge_121.cpp:2648-2702): [(bestCls, bestName,
    bestFields)]. *)
Definition scan_singleton (h : Host) (classes : list Handle)
  : option (Handle * string * Z) :=
  fold_left (scan_step h) classes None.

(** Step 1: the root class and its name, by the known name or by the
    scan. *)
Definition find_mcClass (h : Host) (gcl : Handle) : option (Handle * string) :=
  match LoadClassWithLoader h gcl "net.minecraft.client.Minecraft" with
  | Some c => Some (c, "net.minecraft.client.Minecraft")
  | None =>
      match scan_singleton h (GetLoadedClasses h) with
      | Some (bestCls, bestName, _) => Some (bestCls, bestName)
      | None => None
      end
  end.

(** The declared fields of the root class.  The code asks for the array
    length without a null test; a root class whose fields cannot be listed
    is taken to have none. *)
Definition mcFields_of (h : Host) (mcClass : Handle) : list HostField :=
  match getDeclaredFields h mcClass with
  | Some fs => fs
  | None => []
  end.

(** Step 2 (bridge_121.cpp:2710-2728): every static field of the root's
    own type sets [singletonField], the last one stays. *)
Definition singleton_step (h : Host) (mcClass : Handle) (mcName : string)
  (singletonField : option Handle) (fld : HostField) : option Handle :=
  match fld_type fld with
  | None => singletonField
  | Some ft =>
      if fld_static fld && String.eqb (GetClassNameFromClass h (Some ft)) mcName
      then GetStaticFieldID h mcClass (fld_name fld) (sig_of mcName)
      else singletonField
  end.

Definition find_singletonField (h : Host) (mcClass : Handle) (mcName : string)
  : option Handle :=
  fold_left (singleton_step h mcClass mcName) (mcFields_of h mcClass) None.

(** Step 3: the walk up the hierarchy of a field's type, at most 8 classes,
    looking for a method with a screen-like name. *)
Definition screen_method_name (n : string) : bool :=
  String.eqb n "renderBackground" || String.eqb n "drawScreen"
  || String.eqb n "drawDefaultBackground" || String.eqb n "method_25420"
  || String.eqb n "method_25394".

Fixpoint walk_isScreen (h : Host) (depth_left : nat) (walk : option Handle)
  : bool :=
  match depth_left, walk with
  | S n, Some w =>
      let isScreen :=
        match getDeclaredMethods h w with
        | Some methods =>
            existsb (fun mth => screen_method_name (mth_name mth)) methods
        | None => false
        end in
      if isScreen then true else walk_isScreen h n (getSuperclass h w)
  | _, _ => false
  end.

(** One field of the loop of step 3: the cache and the local [screenType]. *)
Definition screen_step (h : Host) (mcClass : Handle) (st : Cache * string)
  (fld : HostField) : Cache * string :=
  let '(c, screenType) := st in
  if fld_static fld then st
  else
    match fld_type fld with
    | None => st
    | Some ft =>
        let tn := GetClassNameFromClass h (Some ft) in
        let isScreen := walk_isScreen h 8 (Some ft) in
        if isScreen && unresolved c g_screenField then
          let fid := GetFieldID h mcClass (fld_name fld) (sig_of tn) in
          let c := set_role g_screenField fid c in
          match fid with
          | Some _ => (set_screenType tn c, tn)
          | None => (c, screenType)
          end
        else st
    end.

(** Step 4: a method of the root taking one [Screen] and returning
    [void]. *)
Definition takes_screen (h : Host) (screenType : string) (mth : HostMethod)
  : bool :=
  match mth_params mth with
  | Some [pt] =>
      String.eqb (GetClassNameFromClass h (Some pt)) screenType
      && String.eqb (GetClassNameFromClass h (mth_ret mth)) "void"
  | _ => false
  end.

Definition scan_setScreen (h : Host) (mcClass : Handle)
  (screenType fullSig : string) : option Handle :=
  match getDeclaredMethods h mcClass with
  | Some methods =>
      first_some
        (map (fun mth => GetMethodID h mcClass (mth_name mth) fullSig)
             (filter (takes_screen h screenType) methods))
  | None => None
  end.

Definition find_setScreen (h : Host) (mcClass : Handle) (screenType : string)
  (c : Cache) : Cache :=
  let fullSig := "(" ++ sig_of screenType ++ ")V" in
  let c := set_role g_setScreenMethod
             (GetMethodID h mcClass "setScreen" fullSig) c in
  let c := set_if_unresolved g_setScreenMethod
             (GetMethodID h mcClass "method_1507" fullSig) c in
  if unresolved c g_setScreenMethod then
    set_role g_setScreenMethod (scan_setScreen h mcClass screenType fullSig) c
  else c.

(** Step 5: the constructor shape accepted for a chat screen class:
    [(kind, sig)] of the first constructor that fits. *)
Definition is_string (h : Host) (p : Handle) : bool :=
  match FindClass h "java/lang/String" with
  | Some cString => IsAssignableFrom h p cString
  | None => false
  end.

Definition ctor_kind (h : Host) (params : option (list Handle))
  : option (Z * string) :=
  match params with
  | Some [] => Some (0, "()V")
  | Some [p0] =>
      if is_string h p0 then Some (1, "(Ljava/lang/String;)V") else None
  | Some [p0; p1] =>
      let p1n := GetClassNameFromClass h (Some p1) in
      if is_string h p0
         && (String.eqb p1n "boolean" || String.eqb p1n "java.lang.Boolean")
      then Some (2, "(Ljava/lang/String;Z)V") else None
  | _ => None
  end.

Definition knownChat : list string :=
  [ "net.minecraft.client.gui.screens.ChatScreen";
    "net.minecraft.client.gui.GuiChat";
    "net.minecraft.class_408";
    "net.minecraft.class_437" ].

(** One known name: the class, its constructor and the kind, when the class
    loads, a constructor fits and its id resolves. *)
Definition chat_by_name (h : Host) (gcl : Handle) (name : string)
  : option (Handle * Handle * Z) :=
  match LoadClassWithLoader h gcl name with
  | None => None
  | Some c =>
      match getDeclaredConstructors h c with
      | None => None
      | Some ctors =>
          match first_some (map (ctor_kind h) ctors) with
          | None => None
          | Some (kind, sig) =>
              match GetMethodID h c "<init>" sig with
              | Some ctor => Some (c, ctor, kind)
              | None => None
              end
          end
      end
  end.

(** The fallback of step 5 over the loaded classes. *)
Definition chat_by_scan_one (h : Host) (screenCls : option Handle)
  (cls : Handle) : option (Handle * Handle) :=
  let sub :=
    match screenCls with
    | Some s => IsAssignableFrom h cls s
    | None => true
    end in
  if negb sub then None
  else
    match first_some [ GetMethodID h cls "<init>" "(Ljava/lang/String;)V";
                       GetMethodID h cls "<init>" "()V" ] with
    | None => None
    | Some ctor =>
        let cn := GetClassNameFromClass h (Some cls) in
        if contains cn "Chat" || contains cn "chat" then Some (cls, ctor)
        else None
    end.

Definition find_chatScreen (h : Host) (gcl : Handle) (screenType : string)
  (c : Cache) : Cache :=
  let c :=
    match first_some (map (chat_by_name h gcl) knownChat) with
    | Some (cls, ctor, kind) =>
        set_chatCtorKind kind
          (set_role g_chatScreenCtor (Some ctor)
             (set_role g_chatScreenClass (Some cls) c))
    | None => c
    end in
  if unresolved c g_chatScreenClass then
    let screenCls := LoadClassWithLoader h gcl screenType in
    match first_some (map (chat_by_scan_one h screenCls) (GetLoadedClasses h)) with
    | Some (cls, ctor) =>
        set_role g_chatScreenCtor (Some ctor)
          (set_role g_chatScreenClass (Some cls) c)
    | None => c
    end
  else c.

(** The last character of a string. *)
Fixpoint last_char (s : string) : option ascii :=
  match s with
  | EmptyString => None
  | String c EmptyString => Some c
  | String _ rest => last_char rest
  end.

(** The type name [FindFieldByType] compares with: [Lpkg/Name;] becomes
    [pkg.Name], anything else stays. *)
Definition expected_name (typeSig : string) : string :=
  match typeSig with
  | String "L"%char rest =>
      if (2 <? String.length typeSig)%nat
         && match last_char typeSig with
            | Some c => Ascii.eqb c ";"%char
            | None => false
            end
      then replace_char "/"%char "."%char
             (take (String.length typeSig - 2) rest)
      else typeSig
  | _ => typeSig
  end.

(** [FindFieldByType] (bridge_121.cpp:2506-2546): the id of the first
    declared field whose type has the expected name. *)
Fixpoint FindFieldByType_loop (h : Host) (targetClass : Handle)
  (typeSig : string) (fields : list HostField) : option Handle :=
  match fields with
  | [] => None
  | f :: rest =>
      if String.eqb (GetClassNameFromClass h (fld_type f)) (expected_name typeSig)
      then GetFieldID h targetClass (fld_name f) typeSig
      else FindFieldByType_loop h targetClass typeSig rest
  end.

Definition FindFieldByType (h : Host) (targetClass : Handle) (typeSig : string)
  : option Handle :=
  match getDeclaredFields h targetClass with
  | Some fields => FindFieldByType_loop h targetClass typeSig fields
  | None => None
  end.

(** The sixteen [g_matrixMrc = GetFieldID(m4Cls, "mrc", "F")]. *)
Definition matrix_fields : list (Role * string) :=
  [ (g_matrixM00, "m00"); (g_matrixM01, "m01"); (g_matrixM02, "m02");
    (g_matrixM03, "m03"); (g_matrixM10, "m10"); (g_matrixM11, "m11");
    (g_matrixM12, "m12"); (g_matrixM13, "m13"); (g_matrixM20, "m20");
    (g_matrixM21, "m21"); (g_matrixM22, "m22"); (g_matrixM23, "m23");
    (g_matrixM30, "m30"); (g_matrixM31, "m31"); (g_matrixM32, "m32");
    (g_matrixM33, "m33") ].

Definition store_render_roles (h : Host) (gcl mcClass : Handle) (c : Cache)
  : Cache :=
  (* if (!g_renderSystemClass_121) *)
  let c :=
    if unresolved c g_renderSystemClass_121 then
      match LoadClassWithLoader h gcl "com.mojang.blaze3d.systems.RenderSystem" with
      | Some rsCls =>
          let c := set_role g_renderSystemClass_121 (Some rsCls) c in
          let c := set_role g_getProjectionMatrix_121
                     (GetStaticMethodID h rsCls "getProjectionMatrix"
                        "()Lorg/joml/Matrix4f;") c in
          let c := set_if_unresolved g_getProjectionMatrix_121
                     (GetStaticMethodID h rsCls "getProjectionMatrix"
                        "()Lnet/minecraft/class_10366;") c in
          set_role g_getModelViewMatrix_121
            (GetStaticMethodID h rsCls "getModelViewMatrix"
               "()Lorg/joml/Matrix4f;") c
      | None => c
      end
    else c in
  (* if (!g_matrix4fClass_121) *)
  let c :=
    if unresolved c g_matrix4fClass_121 then
      match LoadClassWithLoader h gcl "org.joml.Matrix4f" with
      | Some m4Cls =>
          let c := set_role g_matrix4fClass_121 (Some m4Cls) c in
          let c := fold_left
                     (fun c rn => set_role (fst rn)
                                    (GetFieldID h m4Cls (snd rn) "F") c)
                     matrix_fields c in
          set_if_unresolved g_matrixGetFloatArray_121
            (GetMethodID h m4Cls "get" "([F)[F") c
      | None => c
      end
    else c in
  (* GameRenderer and its camera field *)
  let c := set_role g_gameRendererField_121
             (FindFieldByType h mcClass "Lnet/minecraft/class_757;") c in
  let c :=
    if resolved c g_gameRendererField_121 then
      match LoadClassWithLoader h gcl "net.minecraft.class_757" with
      | Some grCls =>
          set_role g_gameRendererCameraField_121
            (GetFieldID h grCls "field_18765" "Lnet/minecraft/class_4184;") c
      | None => c
      end
    else c in
  (* Camera *)
  let c :=
    match LoadClassWithLoader h gcl "net.minecraft.class_4184" with
    | Some camCls =>
        let c := set_role g_cameraClass_121 (Some camCls) c in
        let c := set_role g_cameraPosF_121
                   (GetFieldID h camCls "field_18712" "Lnet/minecraft/class_243;") c in
        let c := set_role g_cameraPitchF_121
                   (GetFieldID h camCls "field_18714" "F") c in
        set_role g_cameraYawF_121 (GetFieldID h camCls "field_18715" "F") c
    | None => c
    end in
  (* Vec3d *)
  match LoadClassWithLoader h gcl "net.minecraft.class_243" with
  | Some vecCls =>
      let c := set_role g_vec3dClass_121 (Some vecCls) c in
      let c := set_role g_vec3dX_121 (GetFieldID h vecCls "field_1352" "D") c in
      let c := set_role g_vec3dY_121 (GetFieldID h vecCls "field_1351" "D") c in
      set_role g_vec3dZ_121 (GetFieldID h vecCls "field_1350" "D") c
  | None => c
  end.

(** Steps 3 to 6 and the rest of the pass, once the root instance is
    there (bridge_121.cpp:2737-3054). *)
Definition resolve_roles (h : Host) (gcl mcClass mcInst : Handle) (c : Cache)
  : Cache :=
  let '(c, screenType) :=
    fold_left (screen_step h mcClass) (mcFields_of h mcClass) (c, EmptyString) in
  let c :=
    match screenType with
    | EmptyString => c
    | _ => find_chatScreen h gcl screenType
             (find_setScreen h mcClass screenType c)
    end in
  let c := set_role g_mcInstance (Some mcInst) c in
  let c := set_ready (resolved c g_screenField)
             (resolved c g_setScreenMethod && resolved c g_chatScreenClass
              && resolved c g_chatScreenCtor) c in
  store_render_roles h gcl mcClass c.

(** [DiscoverJniMappings(env)]: the cache after the pass and the value
    returned. *)
Definition DiscoverJniMappings (h : Host) (c : Cache) : Cache * bool :=
  if negb (GetEnv_JVMTI h) then (c, false)
  else
    match GetGameClassLoader h with
    | None => (c, false)
    | Some gcl =>
        let c := set_if_unresolved g_gameClassLoader (Some gcl) c in
        match find_mcClass h gcl with
        | None => (c, false)
        | Some (mcClass, mcName) =>
            match find_singletonField h mcClass mcName with
            | None => (c, false)
            | Some singletonField =>
                match GetStaticObjectField h mcClass singletonField with
                | None => (c, false)
                | Some mcInst =>
                    (resolve_roles h gcl mcClass mcInst c, true)
                end
            end
        end
    end.

(** What the main thread does around discovery. *)
Inductive Event : Type :=
| Discover (attempt : nat) (ok : bool) (after : Cache)
| Sleep (ms : Z).

(** The retry loop of [MainThread] (bridge_121.cpp:4753-4757):
    [for (attempt = 0; attempt < 5; attempt++) { if (Discover...) break;
    Log(...); Sleep(3000); }].  [hosts k] is the host as attempt [k] finds
    it, [left] counts the iterations still allowed. *)
Fixpoint retry_loop (hosts : nat -> Host) (attempt left : nat) (c : Cache)
  : Cache * list Event :=
  match left with
  | O => (c, [])
  | S left' =>
      let '(c', ok) := DiscoverJniMappings (hosts attempt) c in
      if ok then (c', [Discover attempt true c'])
      else
        let '(c'', evs) := retry_loop hosts (S attempt) left' c' in
        (c'', Discover attempt false c' :: Sleep 3000 :: evs)
  end.

(** [Sleep(5000)] and, when the thread got its JNI environment ([denv] not
    null), the loop, from the initial globals (bridge_121.cpp:4743-4760). *)
Definition MainThread_discovery (denv : bool) (hosts : nat -> Host)
  : Cache * list Event :=
  if denv then
    let '(c, evs) := retry_loop hosts 0 5 Cache_initial in
    (c, Sleep 5000 :: evs)
  else (Cache_initial, [Sleep 5000]).

(** The classes that pass the test of the scan, in the order of the class
    list, each with its name and its count. *)
Definition candidates (h : Host) (classes : list Handle)
  : list (Handle * string * Z) :=
  flat_map (fun cls =>
              match singleton_candidate h cls with
              | Some (name, objCount) => [(cls, name, objCount)]
              | None => []
              end) classes.

(** The name and the count of a candidate. *)
Definition cand_name (x : Handle * string * Z) : string := snd (fst x).

Definition cand_count (x : Handle * string * Z) : Z := snd x.

(** One iteration of the scan on a candidate. *)
Definition pick (best : option (Handle * string * Z))
  (x : Handle * string * Z) : option (Handle * string * Z) :=
  if better best (cand_name x) (cand_count x) then Some x else best.

(** What a best candidate so far is among the candidates seen: the first
    one in [net.minecraft] when there is one, otherwise the first one of
    largest count. *)
Definition chosen (seen : list (Handle * string * Z))
  (best : option (Handle * string * Z)) : Prop :=
  match best with
  | None => seen = []
  | Some x =>
      exists pre post, seen = (pre ++ x :: post)%list /\
        if in_net_minecraft (cand_name x)
        then Forall (fun y => in_net_minecraft (cand_name y) = false) pre
        else Forall (fun y => in_net_minecraft (cand_name y) = false)
               (pre ++ post)%list
             /\ Forall (fun y => cand_count y < cand_count x) pre
             /\ Forall (fun y => cand_count y <= cand_count x) post
  end.

(** The passes of a trace, in order: attempt number, value returned,
    cache left. *)
Fixpoint attempts (evs : list Event) : list (nat * bool * Cache) :=
  match evs with
  | [] => []
  | Discover k ok a :: rest => (k, ok, a) :: attempts rest
  | Sleep _ :: rest => attempts rest
  end.

(** A failed pass is directly followed by [Sleep(3000)], and a pass that
    succeeded is the last event. *)
Fixpoint paced (evs : list Event) : bool :=
  match evs with
  | [] => true
  | Sleep _ :: rest => paced rest
  | Discover _ true _ :: rest =>
      match rest with [] => true | _ => false end
  | Discover _ false _ :: rest =>
      match rest with
      | Sleep ms :: _ => (ms =? 3000) && paced rest
      | _ => false
      end
  end.

(** Every role resolved in [c] holds the same handle in [a]. *)
Definition keeps_resolved (c a : Cache) : Prop :=
  forall r v, role c r = Some v -> role a r = Some v.

(** No role but the class loader is resolved. *)
Definition only_loader (c : Cache) : Prop :=
  forall r, r <> g_gameClassLoader -> role c r = None.

End Discovery.

End Bridge121.

(* ===================================================================== *)
(** * Control messages used as examples *)
(* ===================================================================== *)
(** * The render callback of bridge.cpp *)
(* ===================================================================== *)

Module BridgeRender.

Inductive Mutex : Set := g_configMutex | g_jniMutex | g_jsonMutex.

(** The globals [RenderNametags] tests or goes through, named as in the
    source; [Class_getName] is the method id of [Class.getName] that the
    function looks up in place. *)
Inductive Global : Set :=
| g_mapped | g_mcInstance | g_activeRenderInfoClass | g_modelViewField
| g_projectionField | g_theWorldField | g_playerEntitiesField
| g_listSizeMethod | g_listGetMethod | g_thePlayerField
| g_posXField | g_posYField | g_posZField | g_floatBufferGet
| g_timerField | g_renderPartialTicksField | g_renderManagerField
| g_viewerPosXField | g_viewerPosYField | g_viewerPosZField
| g_currentScreenField
| g_lastTickPosXField | g_lastTickPosYField | g_lastTickPosZField
| g_getNameMethod | g_getHealthMethod | g_getTotalArmorValueMethod
| g_objectHashCodeMethod | Class_getName.

(** What the callback does to the mutexes and to the host, in order:
    [GetField] is a [Get<T>Field] or [GetStaticObjectField] through a cached
    field id, [CallMethod] a [Call<T>Method] through a method id, which
    runs host code. *)
Inductive Event : Set :=
| Lock (m : Mutex)
| Unlock (m : Mutex)
| GetField (g : Global)
| CallMethod (g : Global).

Definition invokes_method (e : Event) : bool :=
  match e with CallMethod _ => true | _ => false end.

Definition host_access (e : Event) : bool :=
  match e with CallMethod _ | GetField _ => true | _ => false end.

(** What [GetStaticObjectField] gives for a matrix: a null buffer, or a
    buffer whose [get(i)] raises at index [raises_at], if at all. *)
Inductive Buffer : Set :=
| NullBuffer
| Floats (raises_at : option nat).

(** What the host answers about the entity at one index of the list. *)
Record Entity : Set := {
  get_raises : bool;           (* List.get raised *)
  is_null : bool;              (* !entity *)
  is_player : bool;            (* IsSameObject(entity, player) *)
  getName : option string;     (* the string returned, null as None *)
  projected : bool;            (* WorldToScreen(...) *)
  far : bool;                  (* dist > 48.0 *)
  off_screen : bool;           (* sX, sY outside the 64 px margin *)
  held_item_calls : list Event (* what GetEntityHeldItemInfo does *)
}.

(** One frame: the configuration, which globals are not null, and what the
    host answers. *)
Record Frame : Type := {
  nametags : bool;
  nametagShowArmor : bool;
  ready : Global -> bool;
  env_ok : bool;               (* ScopedJNIEnv got an environment *)
  exception_pending : bool;
  push_ok : bool;              (* PushLocalFrame(256) >= 0 *)
  modelView : Buffer;
  projection : Buffer;
  timer : bool;                (* the objects read are not null *)
  renderManager : bool;
  world : bool;
  startList : bool;
  size_raises : bool;
  size : Z;
  currentScreen : bool;
  mGetName : bool;             (* GetMethodID(cc, getName) found *)
  player : bool;
  entity : Z -> Entity;
  (* the rest of HookedSwapBuffers *)
  g_glInitialized : bool;      (* after InitFont *)
  window_size_ok : bool;       (* w > 0 && h > 0 *)
  PollKeyboardToggle : list Event;
  RenderClosestPlayerInfo : list Event;
  RenderChestESP : list Event;
  RenderClickGUI : list Event
}.

(** [GetMatrix(env, field)] (bridge.cpp:1867-1889). *)
Definition GetMatrix (f : Frame) (field : Global) (b : Buffer) : list Event :=
  if negb (ready f g_activeRenderInfoClass && ready f field) then []
  else
    GetField field ::
    match b with
    | NullBuffer => []
    | Floats raises_at =>
        if ready f g_floatBufferGet then
          repeat (CallMethod g_floatBufferGet)
            (match raises_at with
             | Some k => Nat.min 16 (S k)
             | None => 16
             end)
        else []
    end.

(** [g_x ? GetDoubleField(entity, g_x) : ...]. *)
Definition read_if_ready (f : Frame) (g : Global) : list Event :=
  if ready f g then [GetField g] else [].

Definition call_if_ready (f : Frame) (g : Global) : list Event :=
  if ready f g then [CallMethod g] else [].

(** The loop over the entity list (bridge.cpp:2058-2271), from index [i]
    with [count] tags drawn; [fuel] bounds the iterations left. *)
Fixpoint entity_loop (f : Frame) (fuel : nat) (i count : Z) : list Event :=
  match fuel with
  | O => []
  | S fuel' =>
      if (i <? size f) && (count <? 64) then
        let e := entity f i in
        CallMethod g_listGetMethod ::
        if get_raises e then []
        else if is_null e then entity_loop f fuel' (i + 1) count
        else if is_player e then entity_loop f fuel' (i + 1) count
        else
          ([GetField g_posXField; GetField g_posYField; GetField g_posZField]
           ++ read_if_ready f g_lastTickPosXField
           ++ read_if_ready f g_lastTickPosYField
           ++ read_if_ready f g_lastTickPosZField
           ++ call_if_ready f g_getNameMethod
           ++ call_if_ready f g_getHealthMethod
           ++
           let name := if ready f g_getNameMethod then getName e else None in
           if projected e && negb (far e) && negb (off_screen e) then
             match Bridge.nametag_displayName name with
             | EmptyString => entity_loop f fuel' (i + 1) count
             | _ =>
                 (if nametagShowArmor f
                  then call_if_ready f g_getTotalArmorValueMethod else [])
                 ++ held_item_calls e
                 ++ call_if_ready f g_objectHashCodeMethod
                 ++ (if 40 <=? count + 1 then []
                     else entity_loop f fuel' (i + 1) (count + 1))
             end
           else entity_loop f fuel' (i + 1) count)%list
      else []
  end.

(** [RenderNametags(w, h)] (bridge.cpp:1916-2300). *)
Definition RenderNametags (f : Frame) : list Event :=
  if negb (nametags f) then [Lock g_configMutex; Unlock g_configMutex]
  else
    [Lock g_configMutex; Unlock g_configMutex] ++
    if negb (ready f g_mapped && ready f g_mcInstance
             && ready f g_activeRenderInfoClass && ready f g_modelViewField
             && ready f g_projectionField) then []
    else if negb (ready f g_theWorldField && ready f g_playerEntitiesField
                  && ready f g_listSizeMethod && ready f g_listGetMethod
                  && ready f g_thePlayerField && ready f g_posXField
                  && ready f g_posYField && ready f g_posZField) then []
    else if negb (env_ok f) then []
    else if exception_pending f then []
    else if negb (push_ok f) then []
    else
      (GetMatrix f g_modelViewField (modelView f)
       ++ GetMatrix f g_projectionField (projection f)
       ++ (if ready f g_timerField && ready f g_renderPartialTicksField then
             GetField g_timerField ::
             (if timer f then [GetField g_renderPartialTicksField] else [])
           else [])
       ++ (if ready f g_renderManagerField && ready f g_viewerPosXField
              && ready f g_viewerPosYField && ready f g_viewerPosZField then
             GetField g_renderManagerField ::
             (if renderManager f then
                [GetField g_viewerPosXField; GetField g_viewerPosYField;
                 GetField g_viewerPosZField]
              else [])
           else [])
       ++ GetField g_theWorldField ::
          if negb (world f) then []
          else
            GetField g_playerEntitiesField ::
            if negb (startList f) then []
            else
              CallMethod g_listSizeMethod ::
              if size_raises f then []
              else
                (if ready f g_currentScreenField then
                   GetField g_currentScreenField ::
                   (if currentScreen f && mGetName f
                    then [CallMethod Class_getName] else [])
                 else [])
                ++ GetField g_thePlayerField ::
                   if negb (player f) then []
                   else
                     [GetField g_posXField; GetField g_posYField;
                      GetField g_posZField]
                     ++ entity_loop f (Z.to_nat (size f)) 0 0
                     ++ [Lock g_jsonMutex; Unlock g_jsonMutex])%list.

(** [HookedSwapBuffers(hdc)] (bridge.cpp:3230-3275); [RenderHUD] reaches no
    JNI function. *)
Definition HookedSwapBuffers (f : Frame) : list Event :=
  if g_glInitialized f then
    (PollKeyboardToggle f
     ++ if window_size_ok f then
          [Lock g_jniMutex]
          ++ RenderNametags f
          ++ RenderClosestPlayerInfo f
          ++ RenderChestESP f
          ++ [Unlock g_jniMutex]
          ++ RenderClickGUI f
        else [])%list
  else [].

(** The tests of [RenderNametags] before its first JNI field read
    (bridge.cpp:1922-1948): nametags on, the two groups of mappings, the
    environment, no pending exception, [PushLocalFrame]. *)
Definition passes_tests (f : Frame) : bool :=
  nametags f
  && (ready f g_mapped && ready f g_mcInstance
      && ready f g_activeRenderInfoClass && ready f g_modelViewField
      && ready f g_projectionField)
  && (ready f g_theWorldField && ready f g_playerEntitiesField
      && ready f g_listSizeMethod && ready f g_listGetMethod
      && ready f g_thePlayerField && ready f g_posXField
      && ready f g_posYField && ready f g_posZField)
  && env_ok f && negb (exception_pending f) && push_ok f.

(** The tests a frame passes before [RenderNametags] asks the entity list
    for its size. *)
Definition reaches_list (f : Frame) : bool :=
  g_glInitialized f && window_size_ok f && nametags f
  && (ready f g_mapped && ready f g_mcInstance
      && ready f g_activeRenderInfoClass && ready f g_modelViewField
      && ready f g_projectionField)
  && (ready f g_theWorldField && ready f g_playerEntitiesField
      && ready f g_listSizeMethod && ready f g_listGetMethod
      && ready f g_thePlayerField && ready f g_posXField
      && ready f g_posYField && ready f g_posZField)
  && env_ok f && negb (exception_pending f) && push_ok f
  && world f && startList f.

End BridgeRender.

(* ===================================================================== *)
(** * The render callback of bridge_121.cpp *)
(* ===================================================================== *)

Module Bridge121Render.

Inductive Mutex : Set :=
| g_configMutex | g_jniStateMtx | g_bgCamMutex | g_playerListMutex
| g_chestListMutex.

(** The state shared with the background thread. *)
Inductive Shared : Set :=
| g_config | g_jniScreenName | g_jniInWorld | g_bgCamState | g_playerList
| g_chestList.

(** What the callback does, in order: mutex operations, reads of shared
    state, the start of the background thread, host accesses.  The last
    two constructors are those of the bridge.cpp callback; no line of
    [hwglSwapBuffers] or of a function it reaches produces one. *)
Inductive Event : Set :=
| Lock (m : Mutex)
| Unlock (m : Mutex)
| Read (v : Shared)
| CreateThread_ChestScanThreadProc
| GetField (what : string)
| CallMethod (what : string).

Definition host_access (e : Event) : bool :=
  match e with CallMethod _ | GetField _ => true | _ => false end.

(** One call of the hook: what the early tests find, and the shared state
    it reads. *)
Record Frame : Set := {
  passes_early_tests : bool;   (* hDc, GL context, GLFW30 window, ImGui
                                  phases and warm-up all done *)
  g_jvm : bool;
  s_chestThreadStarted : bool;
  glfw_ready : bool;           (* both GLFW functions and a window *)
  cursor_normal : bool;        (* mode == GLFW_CURSOR_NORMAL *)
  g_ShowMenu : bool;
  inWorld : bool;              (* g_jniInWorld as read *)
  cfg_closestPlayer : bool;
  cfg_nametags : bool;
  cfg_chestEsp : bool;
  sharedCamFound : bool;
  sharedMatsOk : bool
}.

(** [{ LockGuard lk(m); local = v; }]. *)
Definition copy_under (m : Mutex) (v : Shared) : list Event :=
  [Lock m; Read v; Unlock m].

(** [UpdateRealGuiState()] (bridge_121.cpp:3763-3783). *)
Definition UpdateRealGuiState (f : Frame) : list Event :=
  if negb (glfw_ready f) then []
  else if cursor_normal f && negb (g_ShowMenu f)
  then copy_under g_jniStateMtx g_jniScreenName
  else [].

(** [hwglSwapBuffers(hDc)] (bridge_121.cpp:3931-4680). *)
Definition hwglSwapBuffers (f : Frame) : list Event :=
  if negb (passes_early_tests f) then []
  else
    ((if g_jvm f && negb (s_chestThreadStarted f)
      then [CreateThread_ChestScanThreadProc] else [])
     ++ UpdateRealGuiState f
     ++ copy_under g_configMutex g_config
     ++ copy_under g_jniStateMtx g_jniInWorld
     ++ if negb (g_ShowMenu f) && inWorld f then
          copy_under g_bgCamMutex g_bgCamState
          ++ copy_under g_playerListMutex g_playerList
          ++ (if cfg_nametags f || cfg_chestEsp f
              then copy_under g_bgCamMutex g_bgCamState else [])
          ++ (if cfg_chestEsp f && sharedCamFound f && sharedMatsOk f
              then copy_under g_chestListMutex g_chestList else [])
        else [])%list.

End Bridge121Render.

(* ===================================================================== *)
(** * Publishing the player and chest lists (bridge_121.cpp) *)
(* ===================================================================== *)

Module Bridge121Snapshot.

(** An entry of [g_playerList] or [g_chestList], with the number of the
    poll pass that built it. *)
Record Entry : Set := { pass_of : nat; payload : Z }.

(** The threads that copy the published list: the render thread
    (bridge_121.cpp:4156, 4425) and the network thread (4810). *)
Inductive Reader : Set := Render | Network.

(** The owner of the mutex of the list; [Poller] is [ChestScanThreadProc]. *)
Inductive Thread : Set := Poller | ReaderThread (r : Reader).

(** Where the polling thread stands in [UpdatePlayerListOverlay] or
    [UpdateChestList], or in the [clear()] of [ChestScanThreadProc]. *)
Inductive PState : Set :=
| PIdle
| PBuilding (localList : list Entry)   (* filling the private localList *)
| PLocked (localList : list Entry)     (* LockGuard taken, before swap *)
| PSwapping (localList old : list Entry) (* inside vector::swap *)
| PSwapped (old : list Entry)          (* swap done, lock still held *)
| PClearLocked                         (* LockGuard taken, before clear() *)
| PCleared.

(** Where a reader stands in [{ LockGuard lk(m); snap = g_list; }]. *)
Inductive RState : Set :=
| RIdle
| RCopying (copy : list Entry)         (* lock held, copied so far *)
| RDone (copy : list Entry).           (* lock released, copy complete *)

Record State : Set := {
  g_list : list Entry;
  mutex : option Thread;
  pass : nat;
  poller : PState;
  render : RState;
  network : RState
}.

Definition init : State := {|
  g_list := []; mutex := None; pass := 0%nat; poller := PIdle;
  render := RIdle; network := RIdle
|}.

Definition reader_state (s : State) (r : Reader) : RState :=
  match r with Render => render s | Network => network s end.

Definition set_reader (r : Reader) (v : RState) (s : State) : State :=
  match r with
  | Render =>
      {| g_list := g_list s; mutex := mutex s; pass := pass s;
         poller := poller s; render := v; network := network s |}
  | Network =>
      {| g_list := g_list s; mutex := mutex s; pass := pass s;
         poller := poller s; render := render s; network := v |}
  end.

Definition set_poller (g : list Entry) (m : option Thread) (n : nat)
  (p : PState) (s : State) : State :=
  {| g_list := g; mutex := m; pass := n; poller := p;
     render := render s; network := network s |}.

Definition set_mutex (m : option Thread) (s : State) : State :=
  {| g_list := g_list s; mutex := m; pass := pass s; poller := poller s;
     render := render s; network := network s |}.

Definition is_free (s : State) : bool :=
  match mutex s with None => true | Some _ => false end.

(** The atomic steps of the threads.  A vector's swap and copy are not
    atomic: between [swap_begin] and [swap_end] the shared list holds
    whatever [torn] is, and a reader copies one entry per step. *)
Inductive Action : Set :=
| poll_begin                    (* a new pass starts with an empty localList *)
| poll_push (data : Z)          (* localList.push_back *)
| poll_lock                     (* LockGuard lk(mutex) *)
| swap_begin (torn : list Entry)
| swap_end                      (* g_list.swap(localList) complete *)
| poll_unlock                   (* ~LockGuard *)
| clear_lock
| clear                         (* g_list.clear() *)
| clear_unlock
| read_lock (r : Reader)
| read_copy (r : Reader)        (* one more entry copied *)
| read_unlock (r : Reader)      (* copy complete, ~LockGuard *)
| read_reset (r : Reader).      (* the copy is dropped, next frame *)

(** One step; [None] when the thread cannot take it in this state. *)
Definition exec (a : Action) (s : State) : option State :=
  match a with
  | poll_begin =>
      match poller s with
      | PIdle => Some (set_poller (g_list s) (mutex s) (S (pass s))
                         (PBuilding []) s)
      | _ => None
      end
  | poll_push data =>
      match poller s with
      | PBuilding l =>
          Some (set_poller (g_list s) (mutex s) (pass s)
                  (PBuilding (l ++ [{| pass_of := pass s; payload := data |}])) s)
      | _ => None
      end
  | poll_lock =>
      match poller s with
      | PBuilding l =>
          if is_free s
          then Some (set_poller (g_list s) (Some Poller) (pass s) (PLocked l) s)
          else None
      | _ => None
      end
  | swap_begin torn =>
      match poller s with
      | PLocked l =>
          Some (set_poller torn (mutex s) (pass s) (PSwapping l (g_list s)) s)
      | _ => None
      end
  | swap_end =>
      match poller s with
      | PSwapping l old =>
          Some (set_poller l (mutex s) (pass s) (PSwapped old) s)
      | _ => None
      end
  | poll_unlock =>
      match poller s with
      | PSwapped _ => Some (set_poller (g_list s) None (pass s) PIdle s)
      | _ => None
      end
  | clear_lock =>
      match poller s with
      | PIdle =>
          if is_free s
          then Some (set_poller (g_list s) (Some Poller) (pass s) PClearLocked s)
          else None
      | _ => None
      end
  | clear =>
      match poller s with
      | PClearLocked => Some (set_poller [] (mutex s) (pass s) PCleared s)
      | _ => None
      end
  | clear_unlock =>
      match poller s with
      | PCleared => Some (set_poller (g_list s) None (pass s) PIdle s)
      | _ => None
      end
  | read_lock r =>
      match reader_state s r with
      | RIdle =>
          if is_free s
          then Some (set_reader r (RCopying [])
                       (set_mutex (Some (ReaderThread r)) s))
          else None
      | _ => None
      end
  | read_copy r =>
      match reader_state s r with
      | RCopying copy =>
          match nth_error (g_list s) (List.length copy) with
          | Some e => Some (set_reader r (RCopying (copy ++ [e])) s)
          | None => None
          end
      | _ => None
      end
  | read_unlock r =>
      match reader_state s r with
      | RCopying copy =>
          if Nat.eqb (List.length copy) (List.length (g_list s))
          then Some (set_reader r (RDone copy) (set_mutex None s))
          else None
      | _ => None
      end
  | read_reset r =>
      match reader_state s r with
      | RDone _ => Some (set_reader r RIdle s)
      | _ => None
      end
  end.

(** A schedule: the steps of all threads in the order they happen. *)
Fixpoint run (acts : list Action) (s : State) : option State :=
  match acts with
  | [] => Some s
  | a :: rest =>
      match exec a s with
      | Some s' => run rest s'
      | None => None
      end
  end.

(** No two entries of the list come from different passes. *)
Definition single_pass (l : list Entry) : Prop :=
  forall e1 e2, In e1 l -> In e2 l -> pass_of e1 = pass_of e2.

(** The polling thread holds the mutex. *)
Definition poller_holds (p : PState) : bool :=
  match p with
  | PLocked _ | PSwapping _ _ | PSwapped _ | PClearLocked | PCleared => true
  | PIdle | PBuilding _ => false
  end.

Definition local_of (p : PState) : list Entry :=
  match p with
  | PBuilding l | PLocked l | PSwapping l _ => l
  | _ => []
  end.

Definition swapping (p : PState) : bool :=
  match p with PSwapping _ _ => true | _ => false end.

(** What holds in every state a schedule reaches. *)
Definition consistent (s : State) : Prop :=
  Forall (fun e => pass_of e = pass s) (local_of (poller s))
  /\ (swapping (poller s) = false -> single_pass (g_list s))
  /\ (poller_holds (poller s) = true -> mutex s = Some Poller)
  /\ forall r,
       match reader_state s r with
       | RIdle => True
       | RCopying copy =>
           mutex s = Some (ReaderThread r)
           /\ copy = firstn (List.length copy) (g_list s)
       | RDone copy => single_pass copy
       end.

End Bridge121Snapshot.

(* ===================================================================== *)

Module Messages.

(** The message [{"type":"config","armed":true}]. *)
Definition armed_only : string :=
  "{" ++ quoted "type" ++ ":" ++ quoted "config" ++ ","
      ++ quoted "armed" ++ ":true}".

(** A message that sets some fields: nametags and jitter on, 12 to 16
    clicks per second, key 78 for the nametags, 12 nametags at most. *)
Definition settings_msg : string :=
  "{" ++ quoted "type" ++ ":" ++ quoted "config" ++ ","
      ++ quoted "nametags" ++ ":true,"
      ++ quoted "jitter" ++ ":true,"
      ++ quoted "minCPS" ++ ":12,"
      ++ quoted "maxCPS" ++ ":16,"
      ++ quoted "keybindNametags" ++ ":78,"
      ++ quoted "nametagMaxCount" ++ ":12}".

End Messages.

(* ===================================================================== *)
(** * The camera scenarios of the specification *)
(* ===================================================================== *)

Module Scenario.

Open Scope R_scope.

(** Camera at the origin; a point 10 blocks straight ahead (yaw 0 looks
    along +Z) and one 10 blocks straight behind. *)
Definition camera : LegoVec3 R := {| vec_x := 0; vec_y := 0; vec_z := 0 |}.
Definition ahead : LegoVec3 R := {| vec_x := 0; vec_y := 0; vec_z := 10 |}.
Definition behind : LegoVec3 R := {| vec_x := 0; vec_y := 0; vec_z := -10 |}.

(** An overlay entry resting at the screen origin, for either bridge, and
    a projected position 1000 pixels to its right. *)
Definition tag_at_origin : Bridge.TagSmoothingState (F := R) :=
  {| Bridge.x := 0; Bridge.y := 0; Bridge.vx := 0; Bridge.vy := 0;
     Bridge.lastFrame := 0; Bridge.init := true |}.

Definition point_at_origin : Bridge121.SmoothedPoint (F := R) :=
  {| Bridge121.key := "Steve"; Bridge121.sx := 0; Bridge121.sy := 0;
     Bridge121.lastSeenMs := 0 |}.

(** A host with two classes that pass the test of the scan, [a.Small] with
    16 instance fields listed before [b.Big] with 20, none of them loadable
    by the known name; the singleton field of either class holds the object
    [inst]. *)
Definition int_field (n : string) : Jni.HostField :=
  {| Jni.fld_name := n; Jni.fld_static := false;
     Jni.fld_type := Some (Jni.Cls "int") |}.

Definition self_field (cls : string) : Jni.HostField :=
  {| Jni.fld_name := "theInstance"; Jni.fld_static := true;
     Jni.fld_type := Some (Jni.Cls cls) |}.

Definition class_name (hd : Jni.Handle) : string :=
  match hd with
  | Jni.Cls n => n
  | _ => EmptyString
  end.

Definition two_roots (inst : Z) : Jni.Host := {|
  Jni.GetEnv_JVMTI := true;
  Jni.GetLoadedClasses := [Jni.Cls "a.Small"; Jni.Cls "b.Big"];
  Jni.getAllStackTraces :=
    [ {| Jni.thr_name := "Client thread";
         Jni.thr_loader := Some (Jni.Obj 0) |} ];
  Jni.loadClass := fun _ _ => None;
  Jni.FindClass := fun _ => None;
  Jni.getName := fun hd =>
    match hd with Jni.Cls n => Some n | _ => None end;
  Jni.getDeclaredFields := fun hd =>
    if String.eqb (class_name hd) "a.Small"
    then Some (self_field "a.Small" :: repeat (int_field "f") 16)
    else if String.eqb (class_name hd) "b.Big"
    then Some (self_field "b.Big" :: repeat (int_field "f") 20)
    else None;
  Jni.getDeclaredMethods := fun _ => None;
  Jni.getDeclaredConstructors := fun _ => None;
  Jni.getSuperclass := fun _ => None;
  Jni.GetFieldID := fun _ _ _ => None;
  Jni.GetStaticFieldID := fun hd n _ => Some (Jni.Fld (class_name hd) n);
  Jni.GetMethodID := fun _ _ _ => None;
  Jni.GetStaticMethodID := fun _ _ _ => None;
  Jni.GetStaticObjectField := fun _ _ => Some (Jni.Obj inst);
  Jni.GetObjectField := fun _ _ => None;
  Jni.GetObjectClass := fun hd => hd;
  Jni.FromReflectedField := fun _ _ => None;
  Jni.IsAssignableFrom := fun _ _ => false
|}.

(** A host whose root class loads by its known name and declares the
    singleton field, a [theWorld] field and a [thePlayer] field whose type
    has [float getHealth()] and the field [rotationYaw]; the root instance
    is the object [inst], the world object is of class [worldClass], and
    only the class [WorldClient] knows the field [playerEntities]. *)
Definition WorldClient : string :=
  "net.minecraft.client.multiplayer.WorldClient".

Definition Minecraft : string := "net.minecraft.client.Minecraft".

Definition EntityPlayerSP : string :=
  "net.minecraft.client.entity.EntityPlayerSP".

Definition vanilla (inst : Z) (worldClass : string) : Jni.Host := {|
  Jni.GetEnv_JVMTI := true;
  Jni.GetLoadedClasses := [Jni.Cls Minecraft; Jni.Cls WorldClient];
  Jni.getAllStackTraces :=
    [ {| Jni.thr_name := "Client thread";
         Jni.thr_loader := Some (Jni.Obj 0) |} ];
  Jni.loadClass := fun _ n =>
    if String.eqb n Minecraft || String.eqb n EntityPlayerSP
    then Some (Jni.Cls n) else None;
  Jni.FindClass := fun _ => None;
  Jni.getName := fun hd =>
    match hd with Jni.Cls n => Some n | _ => None end;
  Jni.getDeclaredFields := fun hd =>
    if String.eqb (class_name hd) Minecraft
    then Some [ self_field Minecraft;
                {| Jni.fld_name := "theWorld"; Jni.fld_static := false;
                   Jni.fld_type := Some (Jni.Cls WorldClient) |};
                {| Jni.fld_name := "thePlayer"; Jni.fld_static := false;
                   Jni.fld_type := Some (Jni.Cls EntityPlayerSP) |} ]
    else None;
  Jni.getDeclaredMethods := fun hd =>
    if String.eqb (class_name hd) EntityPlayerSP
    then Some [ {| Jni.mth_name := "getHealth"; Jni.mth_params := Some [];
                   Jni.mth_ret := Some (Jni.Cls "float") |} ]
    else None;
  Jni.getDeclaredConstructors := fun _ => None;
  Jni.getSuperclass := fun _ => None;
  Jni.GetFieldID := fun hd n _ =>
    if (String.eqb (class_name hd) WorldClient && String.eqb n "playerEntities")
       || (String.eqb (class_name hd) Minecraft && String.eqb n "thePlayer")
       || (String.eqb (class_name hd) EntityPlayerSP
           && String.eqb n "rotationYaw")
    then Some (Jni.Fld (class_name hd) n) else None;
  Jni.GetStaticFieldID := fun hd n _ => Some (Jni.Fld (class_name hd) n);
  Jni.GetMethodID := fun _ _ _ => None;
  Jni.GetStaticMethodID := fun _ _ _ => None;
  Jni.GetStaticObjectField := fun _ _ => Some (Jni.Obj inst);
  Jni.GetObjectField := fun _ _ => Some (Jni.Obj 5);
  Jni.GetObjectClass := fun _ => Jni.Cls worldClass;
  Jni.FromReflectedField := fun hd f =>
    Some (Jni.Fld (class_name hd) (Jni.fld_name f));
  Jni.IsAssignableFrom := fun _ _ => false
|}.

(** A host that has its game thread but has not loaded the game classes
    yet. *)
Definition not_loaded : Jni.Host := {|
  Jni.GetEnv_JVMTI := true;
  Jni.GetLoadedClasses := [];
  Jni.getAllStackTraces :=
    [ {| Jni.thr_name := "Render thread";
         Jni.thr_loader := Some (Jni.Obj 0) |} ];
  Jni.loadClass := fun _ _ => None;
  Jni.FindClass := fun _ => None;
  Jni.getName := fun _ => None;
  Jni.getDeclaredFields := fun _ => None;
  Jni.getDeclaredMethods := fun _ => None;
  Jni.getDeclaredConstructors := fun _ => None;
  Jni.getSuperclass := fun _ => None;
  Jni.GetFieldID := fun _ _ _ => None;
  Jni.GetStaticFieldID := fun _ _ _ => None;
  Jni.GetMethodID := fun _ _ _ => None;
  Jni.GetStaticMethodID := fun _ _ _ => None;
  Jni.GetStaticObjectField := fun _ _ => None;
  Jni.GetObjectField := fun _ _ => None;
  Jni.GetObjectClass := fun hd => hd;
  Jni.FromReflectedField := fun _ _ => None;
  Jni.IsAssignableFrom := fun _ _ => false
|}.

(** The host as the attempts of [MainThread] find it: not loaded at the
    attempts 0 and 1, loaded from attempt 2 on. *)
Definition booting (attempt : nat) : Jni.Host :=
  if (attempt <? 2)%nat then not_loaded else vanilla 1 WorldClient.

(** A frame of bridge_121.cpp in a world, with nametags and chest ESP
    on. *)
Definition frame_in_world : Bridge121Render.Frame := {|
  Bridge121Render.passes_early_tests := true;
  Bridge121Render.g_jvm := true;
  Bridge121Render.s_chestThreadStarted := true;
  Bridge121Render.glfw_ready := true;
  Bridge121Render.cursor_normal := false;
  Bridge121Render.g_ShowMenu := false;
  Bridge121Render.inWorld := true;
  Bridge121Render.cfg_closestPlayer := true;
  Bridge121Render.cfg_nametags := true;
  Bridge121Render.cfg_chestEsp := true;
  Bridge121Render.sharedCamFound := true;
  Bridge121Render.sharedMatsOk := true
|}.



(** A schedule of the three threads: the first pass publishes two entries;
    while the second pass fills its private list, the render thread copies
    the published list entry by entry. *)
Definition schedule : list Bridge121Snapshot.Action :=
  [ Bridge121Snapshot.poll_begin;
    Bridge121Snapshot.poll_push 11;
    Bridge121Snapshot.poll_push 12;
    Bridge121Snapshot.poll_lock;
    Bridge121Snapshot.swap_begin [];
    Bridge121Snapshot.swap_end;
    Bridge121Snapshot.poll_unlock;
    Bridge121Snapshot.poll_begin;
    Bridge121Snapshot.poll_push 21;
    Bridge121Snapshot.read_lock Bridge121Snapshot.Render;
    Bridge121Snapshot.read_copy Bridge121Snapshot.Render;
    Bridge121Snapshot.poll_push 22;
    Bridge121Snapshot.read_copy Bridge121Snapshot.Render;
    Bridge121Snapshot.read_unlock Bridge121Snapshot.Render ].

Definition first_snapshot : list Bridge121Snapshot.Entry :=
  [ {| Bridge121Snapshot.pass_of := 1; Bridge121Snapshot.payload := 11 |};
    {| Bridge121Snapshot.pass_of := 1; Bridge121Snapshot.payload := 12 |} ].

Definition after_schedule : Bridge121Snapshot.State := {|
  Bridge121Snapshot.g_list := first_snapshot;
  Bridge121Snapshot.mutex := None;
  Bridge121Snapshot.pass := 2;
  Bridge121Snapshot.poller :=
    Bridge121Snapshot.PBuilding
      [ {| Bridge121Snapshot.pass_of := 2; Bridge121Snapshot.payload := 21 |};
        {| Bridge121Snapshot.pass_of := 2; Bridge121Snapshot.payload := 22 |} ];
  Bridge121Snapshot.render := Bridge121Snapshot.RDone first_snapshot;
  Bridge121Snapshot.network := Bridge121Snapshot.RIdle
|}.

(** A frame of bridge.cpp with nametags on and every mapping resolved; the
    entity list holds the local player and one other player, [Steve], who
    is on screen and near. *)
Definition steve : BridgeRender.Entity := {|
  BridgeRender.get_raises := false;
  BridgeRender.is_null := false;
  BridgeRender.is_player := false;
  BridgeRender.getName := Some "Steve";
  BridgeRender.projected := true;
  BridgeRender.far := false;
  BridgeRender.off_screen := false;
  BridgeRender.held_item_calls := []
|}.

Definition local_player : BridgeRender.Entity := {|
  BridgeRender.get_raises := false;
  BridgeRender.is_null := false;
  BridgeRender.is_player := true;
  BridgeRender.getName := Some "Me";
  BridgeRender.projected := false;
  BridgeRender.far := false;
  BridgeRender.off_screen := false;
  BridgeRender.held_item_calls := []
|}.

Definition frame_with_steve : BridgeRender.Frame := {|
  BridgeRender.nametags := true;
  BridgeRender.nametagShowArmor := true;
  BridgeRender.ready := fun _ => true;
  BridgeRender.env_ok := true;
  BridgeRender.exception_pending := false;
  BridgeRender.push_ok := true;
  BridgeRender.modelView := BridgeRender.Floats None;
  BridgeRender.projection := BridgeRender.Floats None;
  BridgeRender.timer := true;
  BridgeRender.renderManager := true;
  BridgeRender.world := true;
  BridgeRender.startList := true;
  BridgeRender.size_raises := false;
  BridgeRender.size := 2;
  BridgeRender.currentScreen := false;
  BridgeRender.mGetName := false;
  BridgeRender.player := true;
  BridgeRender.entity := fun i => if i =? 0 then local_player else steve;
  BridgeRender.g_glInitialized := true;
  BridgeRender.window_size_ok := true;
  BridgeRender.PollKeyboardToggle := [];
  BridgeRender.RenderClosestPlayerInfo := [];
  BridgeRender.RenderChestESP := [];
  BridgeRender.RenderClickGUI := []
|}.

End Scenario.
(* ===================================================================== *)
(** * Text helpers of bridge.cpp *)
(* ===================================================================== *)

Module BridgeText.

Import Str.

(** The bytes the helpers name: backslash, line feed, carriage return,
    tab, space. *)
Definition bs : ascii := "092"%char.
Definition LF : ascii := "010"%char.
Definition CR : ascii := "013"%char.
Definition TAB : ascii := "009"%char.
Definition SP : ascii := " "%char.

(* --------------------------------------------------------------------- *)
(** ** [JsonEscape] (bridge.cpp:211-225) *)
(* --------------------------------------------------------------------- *)

(** The [switch] on one byte: what is appended to [out]. *)
Definition escape (c : ascii) : string :=
  if Ascii.eqb c bs then String bs (String bs EmptyString)
  else if Ascii.eqb c dq then String bs (String dq EmptyString)
  else if Ascii.eqb c LF then String bs "n"
  else if Ascii.eqb c CR then String bs "r"
  else if Ascii.eqb c TAB then String bs "t"
  else String c EmptyString.

Fixpoint JsonEscape (s : string) : string :=
  match s with
  | EmptyString => EmptyString
  | String c rest => escape c ++ JsonEscape rest
  end.

(** One of the five bytes that [JsonEscape] rewrites. *)
Definition special (c : ascii) : bool :=
  Ascii.eqb c bs || Ascii.eqb c dq || Ascii.eqb c LF || Ascii.eqb c CR
  || Ascii.eqb c TAB.

(** The second byte of an escape pair. *)
Definition escape_letter (d : ascii) : bool :=
  Ascii.eqb d bs || Ascii.eqb d dq || Ascii.eqb d "n"%char
  || Ascii.eqb d "r"%char || Ascii.eqb d "t"%char.

(** Reading an escaped text from the left: every backslash is followed by
    one of the five escape letters, and no quote, line feed, carriage
    return or tab stands outside such a pair. *)
Fixpoint quotes_escaped (s : string) : bool :=
  match s with
  | EmptyString => true
  | String c rest =>
      if Ascii.eqb c bs then
        match rest with
        | String d rest' => escape_letter d && quotes_escaped rest'
        | EmptyString => false
        end
      else negb (special c) && quotes_escaped rest
  end.

(** A byte that does not end or break a line of text. *)
Definition line_safe (c : ascii) : bool :=
  negb (Ascii.eqb c LF || Ascii.eqb c CR || Ascii.eqb c TAB).

(** A left inverse of [JsonEscape], by which nothing it reads is lost: the
    byte an escape letter stands for, and the text read back pair by
    pair. *)
Definition letter_byte (d : ascii) : ascii :=
  if Ascii.eqb d "n"%char then LF
  else if Ascii.eqb d "r"%char then CR
  else if Ascii.eqb d "t"%char then TAB
  else d.

Fixpoint read_back (s : string) : string :=
  match s with
  | EmptyString => EmptyString
  | String c rest =>
      if Ascii.eqb c bs then
        match rest with
        | String d rest' => String (letter_byte d) (read_back rest')
        | EmptyString => String c EmptyString
        end
      else String c (read_back rest)
  end.

(* --------------------------------------------------------------------- *)
(** ** Character classes of the C locale *)
(* --------------------------------------------------------------------- *)

Definition between (lo hi : N) (c : ascii) : bool :=
  ((lo <=? code c) && (code c <=? hi))%N.

Definition isspace (c : ascii) : bool := Decimal.is_space c.
Definition isupper (c : ascii) : bool := between 65 90 c.
Definition islower (c : ascii) : bool := between 97 122 c.
Definition isdigit (c : ascii) : bool := between 48 57 c.
Definition isalpha (c : ascii) : bool := isupper c || islower c.
Definition isalnum (c : ascii) : bool := isalpha c || isdigit c.

(** [std::tolower((unsigned char)ch)]. *)
Definition tolower (c : ascii) : ascii :=
  if isupper c then byte (code c + 32) else c.

(* --------------------------------------------------------------------- *)
(** ** [ToLowerAscii], [NormalizeSpaces], [ContainsItemKeyword]
       (bridge.cpp:1343-1385) *)
(* --------------------------------------------------------------------- *)

Fixpoint ToLowerAscii (s : string) : string :=
  match s with
  | EmptyString => EmptyString
  | String ch rest => String (tolower ch) (ToLowerAscii rest)
  end.

(** The [for] loop of [NormalizeSpaces]: what the bytes of [s] push onto
    [out] when the byte before them was a space or not ([wasSpace]). *)
Fixpoint collapse (wasSpace : bool) (s : string) : string :=
  match s with
  | EmptyString => EmptyString
  | String ch rest =>
      let isSpace := isspace ch in
      if isSpace then
        if wasSpace then collapse isSpace rest
        else String SP (collapse isSpace rest)
      else String ch (collapse isSpace rest)
  end.

(** [while (!out.empty() && out.front() == ' ') out.erase(out.begin());] *)
Fixpoint trim_front (out : string) : string :=
  match out with
  | String c rest => if Ascii.eqb c SP then trim_front rest else out
  | EmptyString => EmptyString
  end.

(** [while (!out.empty() && out.back() == ' ') out.pop_back();]: the text
    without its trailing spaces. *)
Fixpoint trim_back (out : string) : string :=
  match out with
  | EmptyString => EmptyString
  | String c rest =>
      match trim_back rest with
      | EmptyString => if Ascii.eqb c SP then EmptyString else String c EmptyString
      | kept => String c kept
      end
  end.

Definition NormalizeSpaces (s : string) : string :=
  trim_back (trim_front (collapse false s)).

(** The shape [NormalizeSpaces] gives a text: every white-space byte is a
    space, no two spaces are adjacent, and no space stands first or
    last. *)
Definition space_or_ink (c : ascii) : bool := negb (isspace c) || Ascii.eqb c SP.

Fixpoint no_double_space (s : string) : bool :=
  match s with
  | String a rest =>
      match rest with
      | String b _ => negb (Ascii.eqb a SP && Ascii.eqb b SP)
      | EmptyString => true
      end && no_double_space rest
  | EmptyString => true
  end.

Definition first_is_space (s : string) : bool :=
  match s with
  | String c _ => Ascii.eqb c SP
  | EmptyString => false
  end.

Fixpoint last_is_space (s : string) : bool :=
  match s with
  | EmptyString => false
  | String c EmptyString => Ascii.eqb c SP
  | String _ rest => last_is_space rest
  end.

Definition normalized (s : string) : bool :=
  all space_or_ink s && no_double_space s && negb (first_is_space s)
  && negb (last_is_space s).

(** The bytes of a text that are not white space. *)
Fixpoint ink (s : string) : string :=
  match s with
  | EmptyString => EmptyString
  | String c rest => if isspace c then ink rest else String c (ink rest)
  end.

Definition ContainsItemKeyword (lower : string) : bool :=
  contains lower "sword" || contains lower "axe" || contains lower "pick"
  || contains lower "bow" || contains lower "rod" || contains lower "potion"
  || contains lower "pearl" || contains lower "block".

(* --------------------------------------------------------------------- *)
(** ** [RomanValue], [ParseRoman] (bridge.cpp:1436-1461) *)
(* --------------------------------------------------------------------- *)

Definition RomanValue (c : ascii) : Z :=
  let l := tolower c in
  if Ascii.eqb l "i" then 1
  else if Ascii.eqb l "v" then 5
  else if Ascii.eqb l "x" then 10
  else if Ascii.eqb l "l" then 50
  else if Ascii.eqb l "c" then 100
  else if Ascii.eqb l "d" then 500
  else if Ascii.eqb l "m" then 1000
  else 0.

(** The bytes of a token from the last to the first. *)
Fixpoint backwards (s : string) (acc : list ascii) : list ascii :=
  match s with
  | EmptyString => acc
  | String c rest => backwards rest (c :: acc)
  end.

(** The [for] loop of [ParseRoman], which runs from the last byte to the
    first, on the bytes still to visit. *)
Fixpoint ParseRoman_loop (bytes : list ascii) (total prev : Z) : Z :=
  match bytes with
  | [] => total
  | c :: rest =>
      let v := RomanValue c in
      if v =? 0 then 0
      else ParseRoman_loop rest (if v <? prev then total - v else total + v) v
  end.

(** [ParseRoman(token)], computed on unbounded integers; the result is at
    most 1000 times the length of the token, so [int] holds it for every
    token shorter than 2147483 bytes. *)
Definition ParseRoman (token : string) : Z :=
  match token with
  | EmptyString => 0
  | _ => ParseRoman_loop (backwards token []) 0 0
  end.

(** A Roman digit, in either case, and a token made of such only. *)
Definition roman_byte (c : ascii) : bool := negb (RomanValue c =? 0).

Definition roman_digits (token : string) : bool := all roman_byte token.

(** The seven values of the digits. *)
Definition denomination (v : Z) : Prop :=
  v = 1 \/ v = 5 \/ v = 10 \/ v = 50 \/ v = 100 \/ v = 500 \/ v = 1000.

(* --------------------------------------------------------------------- *)
(** ** [CleanupHeldBaseName], [BuildCappedHeldText] (bridge.cpp:1387-1523) *)
(* --------------------------------------------------------------------- *)

(** [looksLikeCode]: the lower-cased first byte is a digit, [a]-[f],
    [k]-[o] or [r]. *)
Definition looksLikeCode (c0 : ascii) : bool :=
  let first := tolower c0 in
  between 48 57 first || between 97 102 first || between 107 111 first
  || Ascii.eqb first "r".

(** The first [while] of [CleanupHeldBaseName]; [fuel] bounds the
    iterations, each of which removes a byte. *)
Fixpoint strip_codes (fuel : nat) (clean : string) : string :=
  match fuel with
  | O => clean
  | S fuel' =>
      match clean with
      | String c0 (String second rest) =>
          if looksLikeCode c0
             && (isupper second || Ascii.eqb second "["
                 || Ascii.eqb second "(")
          then strip_codes fuel' (NormalizeSpaces (String second rest))
          else clean
      | _ => clean
      end
  end.

(** [while (!clean.empty() && !std::isalnum(clean.front()))
    clean.erase(clean.begin());] *)
Fixpoint erase_non_alnum (clean : string) : string :=
  match clean with
  | String c rest => if isalnum c then clean else erase_non_alnum rest
  | EmptyString => EmptyString
  end.

(** [p = 1; while (p < clean.size() && !std::isalpha(clean[p])) p++;] on
    the bytes after the first: how far [p] moves. *)
Fixpoint skip_non_alpha (s : string) : nat :=
  match s with
  | String c rest => if isalpha c then O else S (skip_non_alpha rest)
  | EmptyString => O
  end.

(** The last [while]: numeric junk before the first letter goes. *)
Fixpoint strip_numeric (fuel : nat) (clean : string) : string :=
  match fuel with
  | O => clean
  | S fuel' =>
      match clean with
      | String c rest =>
          if isdigit c then
            let p := S (skip_non_alpha rest) in
            match String.get p clean with
            | Some ch =>
                if isalpha ch
                then strip_numeric fuel' (erase_non_alnum (drop p clean))
                else clean
            | None => clean
            end
          else clean
      | EmptyString => clean
      end
  end.

(** [CleanupHeldBaseName(rawName)]; [None] when [clean.substr(possessive
    + 3)] throws [std::out_of_range], which it does when the position lies
    beyond the end of [clean]: [possessive] was found in [lower], the
    lower-cased text as it was before the first loop shortened [clean]. *)
Definition CleanupHeldBaseName (rawName : string) : option string :=
  let clean := NormalizeSpaces rawName in
  match clean with
  | EmptyString => Some clean
  | _ =>
      let lower := ToLowerAscii clean in
      let clean := strip_codes (String.length clean) clean in
      let after_possessive :=
        match find lower "'s " with
        | Some possessive =>
            if (possessive <? 20)%nat then
              if (String.length clean <? possessive + 3)%nat then None
              else
                let right := drop (possessive + 3) clean in
                if ContainsItemKeyword (ToLowerAscii right) then Some right
                else Some clean
            else Some clean
        | None => Some clean
        end in
      match after_possessive with
      | None => None
      | Some clean =>
          let clean := erase_non_alnum clean in
          let clean := strip_numeric (String.length clean) clean in
          Some (NormalizeSpaces clean)
      end
  end.

Section HeldText.

Context {F : Type} `{FloatOps F}.

(** What [printf] writes for ["%.1f"]; any text will do. *)
Variable fmt1 : F -> string.

(** [snprintf(dmgBuf, sizeof(dmgBuf), " (%.1f dmg)", swordDmg)] into
    [char dmgBuf[24]]: the first 23 bytes of the formatted text. *)
Definition dmgBuf (swordDmg : F) : string :=
  take 23 (" (" ++ fmt1 swordDmg ++ " dmg)").

(** [BuildCappedHeldText(rawName, swordDmg)]; [None] when
    [CleanupHeldBaseName] throws. *)
Definition BuildCappedHeldText (rawName : string) (swordDmg : F)
  : option string :=
  match CleanupHeldBaseName rawName with
  | None => None
  | Some base =>
      let base := match base with EmptyString => "Item" | _ => base end in
      let maxTotal := 36 in
      let suffix :=
        if fgt swordDmg (lit32 0) then dmgBuf swordDmg else EmptyString in
      let allowedBase := maxTotal - Z.of_nat (String.length suffix) in
      let allowedBase := if allowedBase <? 8 then 8 else allowedBase in
      let base :=
        if allowedBase <? Z.of_nat (String.length base) then
          if 3 <? allowedBase
          then take (Z.to_nat (allowedBase - 3)) base ++ "..."
          else take (Z.to_nat allowedBase) base
        else base in
      Some (base ++ suffix)
  end.

End HeldText.

End BridgeText.

(* ===================================================================== *)
(** * Text written by bridge_121.cpp *)
(* ===================================================================== *)

Module Bridge121Text.

Import BridgeText.

(** The loop that escapes the screen name, the action bar text and each
    player name for the state line (bridge_121.cpp:4804-4807, 4893-4894):
    a backslash is put before every quote and every backslash, and every
    byte is then appended as it is. *)
Fixpoint nameEsc (name : string) : string :=
  match name with
  | EmptyString => EmptyString
  | String c rest =>
      if Ascii.eqb c dq || Ascii.eqb c bs
      then String bs (String c (nameEsc rest))
      else String c (nameEsc rest)
  end.

End Bridge121Text.

(* ===================================================================== *)
(** * Lines from the socket (bridge.cpp:3526-3537, bridge_121.cpp:4924-4936) *)
(* ===================================================================== *)

Module Framing.

Import Str.

Definition NUL : ascii := "000"%char.
Definition LF : ascii := BridgeText.LF.

(** ["\n"], the key of [readBuf.find]. *)
Definition newline : string := String LF EmptyString.

(** [readBuf += buf] reads [buf] as a C string: the bytes before the first
    zero byte.  [buf] holds the [r] bytes received, and [buf[r] = 0]. *)
Fixpoint c_str (buf : string) : string :=
  match buf with
  | EmptyString => EmptyString
  | String c rest => if Ascii.eqb c NUL then EmptyString else String c (c_str rest)
  end.

(** The [while ((pos = readBuf.find('\n')) != npos)] loop: the lines given
    to [ParseConfig], in order, and what stays in [readBuf].  Each turn
    takes at least one byte off [readBuf], so its length is fuel enough. *)
Fixpoint drain (fuel : nat) (readBuf : string) : list string * string :=
  match fuel with
  | O => ([], readBuf)
  | S fuel' =>
      match find readBuf newline with
      | None => ([], readBuf)
      | Some pos =>
          let line := take pos readBuf in
          let readBuf := drop (pos + 1) readBuf in
          let (lines, left) := drain fuel' readBuf in
          (match line with
           | EmptyString => lines
           | _ => line :: lines
           end, left)
      end
  end.

(** The body of [if (r > 0)] for one [recv]. *)
Definition on_recv (readBuf buf : string) : list string * string :=
  let readBuf := readBuf ++ c_str buf in
  drain (String.length readBuf) readBuf.

(** One connection: the chunks that [recv] returns with [r > 0], in order;
    [readBuf] starts empty. *)
Fixpoint recv_all (readBuf : string) (chunks : list string)
  : list string * string :=
  match chunks with
  | [] => ([], readBuf)
  | buf :: rest =>
      let (lines, readBuf) := on_recv readBuf buf in
      let (more, left) := recv_all readBuf rest in
      ((lines ++ more)%list, left)
  end.

(** The stream a sender writes for a list of packets: each one followed by
    a line feed. *)
Fixpoint framed (packets : list string) : string :=
  match packets with
  | [] => EmptyString
  | p :: rest => p ++ String LF (framed rest)
  end.

(** The bytes of the chunks in the order received. *)
Fixpoint stream (chunks : list string) : string :=
  match chunks with
  | [] => EmptyString
  | buf :: rest => buf ++ stream rest
  end.

Definition no_LF (s : string) : bool := all (fun c => negb (Ascii.eqb c LF)) s.
Definition no_NUL (s : string) : bool := all (fun c => negb (Ascii.eqb c NUL)) s.

Definition nonempty (s : string) : bool :=
  match s with
  | EmptyString => false
  | _ => true
  end.

(** A line as [ParseConfig] gets it: not empty, without a line feed. *)
Definition packet_ok (line : string) : bool := nonempty line && no_LF line.

End Framing.

(* ===================================================================== *)
(** * The name tag overlay of bridge_121.cpp (4269-4420) *)
(* ===================================================================== *)

Module Bridge121Overlay.

Import Str.
Import Bridge121.

Section Overlay.

Context {F : Type} {ops : FloatOps F}.

(** [struct PlayerData121]. *)
Record PlayerData121 : Type := {
  name : string;
  dist : F;
  ex : F;
  ey : F;
  ez : F;
  hp : F;
  armor : Z;
  heldItem : string
}.

(** The filter for hologram lines: [isFakeDash] stays [true] when every
    byte of the name is one of [-], [=], space, [_], [[] and []]. *)
Definition dash_byte (c : ascii) : bool :=
  Ascii.eqb c "-" || Ascii.eqb c "=" || Ascii.eqb c " " || Ascii.eqb c "_"
  || Ascii.eqb c "[" || Ascii.eqb c "]".

Definition isFakeDash (name : string) : bool := all dash_byte name.

(** [if (isFakeDash && it.name.length() > 0) continue;] *)
Definition skipped_as_dashes (it : PlayerData121) : bool :=
  isFakeDash (name it) && (0 <? String.length (name it))%nat.

(** [LegoVec3 headPos = { it.ex, it.ey + 2.05, it.ez }]. *)
Definition headPos (it : PlayerData121) : LegoVec3 F :=
  {| vec_x := ex it; vec_y := (ey it + lit64 2.05)%f64; vec_z := ez it |}.

(** [(std::max)(1, (std::min)(20, cfg.nametagMaxCount))]. *)
Definition nametagRenderCap (nametagMaxCount : Z) : Z :=
  Z.max 1 (Z.min 20 nametagMaxCount).

(** What the frame reads from the shared camera state. *)
Record Camera : Type := {
  cam : LegoVec3 F;
  yaw : F;
  pitch : F;
  projMat : Matrix4x4 F;
  viewMat : Matrix4x4 F;
  matsOk : bool;
  winW : Z;
  winH : Z
}.

(** [projected = matsOk ? WorldToScreen(...) : WorldToScreen_Angles(...)],
    with [fov = 70.0f]. *)
Definition project (v : Camera) (p : LegoVec3 F) : option (F * F) :=
  if matsOk v
  then WorldToScreen p (cam v) (viewMat v) (projMat v) (winW v) (winH v)
  else WorldToScreen_Angles p (cam v) (yaw v) (pitch v) (lit32 70)
         (winW v) (winH v).

(** A name tag as it is drawn: the name and the smoothed position. *)
Definition Tag : Type := (string * (F * F))%type.

(** The [for (const auto& it : playerSnap)] loop: the tags drawn, in
    order, and [s_nametagSmooth] after it.  [drawnTags] counts the tags
    drawn so far. *)
Fixpoint nametag_loop (v : Camera) (alpha : F) (overlayNowMs cap : Z)
  (playerSnap : list PlayerData121) (drawnTags : Z)
  (smooth : list (@SmoothedPoint F)) : list Tag * list (@SmoothedPoint F) :=
  match playerSnap with
  | [] => ([], smooth)
  | it :: rest =>
      if cap <=? drawnTags then ([], smooth)
      else if skipped_as_dashes it
      then nametag_loop v alpha overlayNowMs cap rest drawnTags smooth
      else
        match project v (headPos it) with
        | None => nametag_loop v alpha overlayNowMs cap rest drawnTags smooth
        | Some (x, y) =>
            let '(smooth, at_) :=
              smooth_nametag smooth (name it) x y alpha overlayNowMs in
            let '(tags, smooth) :=
              nametag_loop v alpha overlayNowMs cap rest (drawnTags + 1)
                smooth in
            ((name it, at_) :: tags, smooth)
        end
  end.

(** The name tag part of one frame: stale entries go, then, with
    [cfg.nametags && sharedCamFound && sharedMatsOk], the loop runs. *)
Definition nametag_frame (nametags sharedCamFound : bool) (v : Camera)
  (DeltaTime : F) (overlayNowMs nametagMaxCount : Z)
  (playerSnap : list PlayerData121) (s_nametagSmooth : list (@SmoothedPoint F))
  : list Tag * list (@SmoothedPoint F) :=
  let s_nametagSmooth := evict_stale overlayNowMs s_nametagSmooth in
  if nametags && sharedCamFound && matsOk v then
    nametag_loop v (overlaySmoothAlpha DeltaTime) overlayNowMs
      (nametagRenderCap nametagMaxCount) playerSnap 0 s_nametagSmooth
  else ([], s_nametagSmooth).

(** The keys of [s_nametagSmooth]. *)
Definition keys (l : list (@SmoothedPoint F)) : list string := map (@key F) l.

(** An entry for [k] that was refreshed at [now]. *)
Definition fresh (now : Z) (l : list (@SmoothedPoint F)) (k : string) : Prop :=
  exists sm, In sm l /\ key sm = k /\ lastSeenMs sm = now.

End Overlay.

(** The point at distance [t] from the camera along its forward vector. *)
Definition on_view_axis (camPos : LegoVec3 R) (yawDeg pitchDeg t : R)
  : LegoVec3 R :=
  let '(fX, fY, fZ) := forward (ops := RealOps) yawDeg pitchDeg in
  {| vec_x := vec_x camPos + t * fX;
     vec_y := vec_y camPos + t * fY;
     vec_z := vec_z camPos + t * fZ |}%R.

(** The argument of [tanf] in [WorldToScreen_Angles]:
    [fovDeg * 0.5f * (PI / 180.0f)]. *)
Definition half_fov (fovDeg : R) : R :=
  (fovDeg * lit32 0.5 * (PI_f / lit32 180))%f32.

End Bridge121Overlay.

(** A frame of the overlay in exact arithmetic: a camera at the origin that
    looks down the negative z axis, with the identity as view matrix and a
    perspective projection whose [w] is the depth; two players in front of
    it, and entries of the smoothing table. *)
Module OverlayScenario.

Import Bridge121.
Import Bridge121Overlay.

Definition identity_matrix : Matrix4x4 R :=
  {| m := fun i => match i with
                   | 0%nat | 5%nat | 10%nat | 15%nat => 1%R
                   | _ => 0%R
                   end |}.

Definition perspective_matrix : Matrix4x4 R :=
  {| m := fun i => match i with
                   | 0%nat | 5%nat => 1%R
                   | 10%nat | 11%nat => (-1)%R
                   | _ => 0%R
                   end |}.

Definition view : Camera (F := R) :=
  {| cam := Scenario.camera; yaw := 180%R; pitch := 0%R;
     projMat := perspective_matrix; viewMat := identity_matrix;
     matsOk := true; winW := 1920; winH := 1080 |}.

Definition steve : PlayerData121 (F := R) :=
  {| name := "Steve"; dist := 10%R; ex := 0%R; ey := 0%R; ez := (-10)%R;
     hp := 20%R; armor := 0; heldItem := EmptyString |}.

Definition alex : PlayerData121 (F := R) :=
  {| name := "Alex"; dist := 5%R; ex := 1%R; ey := 0%R; ez := (-5)%R;
     hp := 20%R; armor := 0; heldItem := EmptyString |}.

Definition entry (lastSeen : Z) : @SmoothedPoint R :=
  {| key := "Steve"; sx := 960%R; sy := 540%R; lastSeenMs := lastSeen |}.

Definition notch_entry (lastSeen : Z) : @SmoothedPoint R :=
  {| key := "Notch"; sx := 100%R; sy := 100%R; lastSeenMs := lastSeen |}.

End OverlayScenario.

(* ===================================================================== *)
(** * What discovery leaves for its users (bridge_121.cpp:2737-3110) *)
(* ===================================================================== *)

Module Bridge121Ready.

Import Jni.
Import Bridge121.

(** The handles that the code under [if (g_stateJniReady)] and under
    [if (g_chatJniReady)] hands to JNI are not null. *)
Definition ready_ok (c : Cache) : Prop :=
  (g_stateJniReady c = true ->
   resolved c g_screenField = true /\ resolved c g_mcInstance = true)
  /\ (g_chatJniReady c = true ->
      resolved c g_setScreenMethod = true
      /\ resolved c g_chatScreenClass = true
      /\ resolved c g_chatScreenCtor = true
      /\ resolved c g_mcInstance = true).

(** The arguments [OpenChatScreen] passes to [NewObject] after the class
    and the constructor, by [g_chatCtorKind] (bridge_121.cpp:3065-3075);
    [None] when no object is made. *)
Inductive Arg : Set :=
| EmptyJavaString
| JNI_FALSE.

Definition NewObject_args (kind : Z) : option (list Arg) :=
  if kind =? 0 then Some []
  else if kind =? 1 then Some [EmptyJavaString]
  else if kind =? 2 then Some [EmptyJavaString; JNI_FALSE]
  else None.

(** The two constructors the fallback scan asks for, in its order. *)
Definition scan_ctor (h : Host) (cls : Handle) : option Handle :=
  first_some [ GetMethodID h cls "<init>" "(Ljava/lang/String;)V";
               GetMethodID h cls "<init>" "()V" ].

(** A static field of the root's own type, the fields step 2 looks at. *)
Definition is_self_field (h : Host) (mcName : string) (fld : HostField) : bool :=
  match fld_type fld with
  | Some ft =>
      fld_static fld && String.eqb (GetClassNameFromClass h (Some ft)) mcName
  | None => false
  end.

End Bridge121Ready.

(** A host on which the chat screen is found by the fallback scan only:
    no class loads by name, and the loaded class [x.ChatBox] has a
    constructor taking a [String]. *)
Module DiscoveryScenario.

Import Jni.

Definition chat_by_scan_only : Host := {|
  GetEnv_JVMTI := true;
  GetLoadedClasses := [Cls "x.Menu"; Cls "x.ChatBox"];
  getAllStackTraces :=
    [ {| thr_name := "Render thread"; thr_loader := Some (Obj 0) |} ];
  loadClass := fun _ _ => None;
  FindClass := fun _ => None;
  getName := fun hd => match hd with Cls n => Some n | _ => None end;
  getDeclaredFields := fun _ => None;
  getDeclaredMethods := fun _ => None;
  getDeclaredConstructors := fun _ => None;
  getSuperclass := fun _ => None;
  GetFieldID := fun _ _ _ => None;
  GetStaticFieldID := fun _ _ _ => None;
  GetMethodID := fun hd n sig =>
    if String.eqb n "<init>" && String.eqb sig "(Ljava/lang/String;)V"
    then Some (Mth (Scenario.class_name hd) n sig) else None;
  GetStaticMethodID := fun _ _ _ => None;
  GetStaticObjectField := fun _ _ => None;
  GetObjectField := fun _ _ => None;
  GetObjectClass := fun hd => hd;
  FromReflectedField := fun _ _ => None;
  IsAssignableFrom := fun _ _ => false
|}.

(** Threads as a launcher may start them: a [Client thread] without a
    context class loader listed before the [Render thread] that has one. *)
Definition two_threads : Host := {|
  GetEnv_JVMTI := true;
  GetLoadedClasses := [];
  getAllStackTraces :=
    [ {| thr_name := "Client thread"; thr_loader := None |};
      {| thr_name := "Render thread"; thr_loader := Some (Obj 7) |} ];
  loadClass := fun _ _ => None;
  FindClass := fun _ => None;
  getName := fun _ => None;
  getDeclaredFields := fun _ => None;
  getDeclaredMethods := fun _ => None;
  getDeclaredConstructors := fun _ => None;
  getSuperclass := fun _ => None;
  GetFieldID := fun _ _ _ => None;
  GetStaticFieldID := fun _ _ _ => None;
  GetMethodID := fun _ _ _ => None;
  GetStaticMethodID := fun _ _ _ => None;
  GetStaticObjectField := fun _ _ => None;
  GetObjectField := fun _ _ => None;
  GetObjectClass := fun hd => hd;
  FromReflectedField := fun _ _ => None;
  IsAssignableFrom := fun _ _ => false
|}.

End DiscoveryScenario.

(** A settings message whose [minCPS] is no number, and one whose [type]
    field is a closed string. *)
Module BadMessages.

Definition bad_rate : string :=
  "{" ++ quoted "type" ++ ":" ++ quoted "config" ++ ","
      ++ quoted "armed" ++ ":true," ++ quoted "minCPS" ++ ":fast}".

Definition type_only : string :=
  "{" ++ quoted "type" ++ ":" ++ quoted "config" ++ "}".

End BadMessages.

(** Bytes outside a set of delimiters. *)
Module Fields.

Definition not_in (set : list ascii) (c : ascii) : bool :=
  negb (existsb (Ascii.eqb c) set).

End Fields.

(* ===================================================================== *)
(** * The state line of bridge.cpp (ServerLoop, bridge.cpp:3463-3495) *)
(* ===================================================================== *)

Module BridgeState.

Import BridgeText.

Section StateLine.

Context {F : Type}.

(** [std::to_string] on a [float] or a [double]. *)
Variable to_string : F -> string.

(** [struct GameState]. *)
Record GameState : Type := {
  mapped : bool;
  guiOpen : bool;
  screenName : string;
  health : F;
  posX : F;
  posY : F;
  posZ : F;
  holdingBlock : bool
}.

(** [std::string(b ? "true" : "false")]. *)
Definition bool_text (b : bool) : string := if b then "true" else "false".

(** [entitiesJson]: the pending text of the render thread when name tags
    are on and there is one, ["[]"] otherwise. *)
Definition entitiesJson (nametagsEnabled : bool) (g_pendingJson : string)
  : string :=
  if nametagsEnabled then
    match g_pendingJson with
    | EmptyString => "[]"
    | _ => g_pendingJson
    end
  else "[]".

(** [jsonToSend] as [ServerLoop] builds it. *)
Definition jsonToSend (state : GameState) (nametagsEnabled : bool)
  (g_pendingJson : string) : string :=
  "{"
  ++ (quoted "mapped" ++ ":") ++ bool_text (mapped state) ++ ","
  ++ (quoted "guiOpen" ++ ":") ++ bool_text (guiOpen state) ++ ","
  ++ (quoted "screenName" ++ ":") ++ quoted (JsonEscape (screenName state))
  ++ ","
  ++ (quoted "health" ++ ":") ++ to_string (health state) ++ ","
  ++ (quoted "posX" ++ ":") ++ to_string (posX state) ++ ","
  ++ (quoted "posY" ++ ":") ++ to_string (posY state) ++ ","
  ++ (quoted "posZ" ++ ":") ++ to_string (posZ state) ++ ","
  ++ (quoted "holdingBlock" ++ ":") ++ bool_text (holdingBlock state) ++ ","
  ++ (quoted "entities" ++ ":")
  ++ entitiesJson nametagsEnabled g_pendingJson
  ++ String "}" Framing.newline.

End StateLine.

End BridgeState.

(** A state whose screen name holds a quote and a line feed; every number
    is written as [0.000000]. *)
Module StateScenario.

Import BridgeState.

Definition zeros (x : R) : string := "0.000000".

Definition odd_screen : GameState (F := R) :=
  {| mapped := true; guiOpen := true;
     screenName := "Gui" ++ String dq ("Chat" ++ Framing.newline);
     health := 20%R; posX := 0%R; posY := 64%R; posZ := 0%R;
     holdingBlock := false |}.

End StateScenario.
(* ===================================================================== *)
(** * Player names of bridge_121.cpp (624-660, 1122-1135, 4893-4908) *)
(* ===================================================================== *)

Module Bridge121Names.

Import Str.
Import BridgeText.
Import Bridge121Text.
Import Bridge121Overlay.

(** The bytes the [trim] lambda of [GetStablePlayerName] removes. *)
Definition blank (c : ascii) : bool :=
  Ascii.eqb c SP || Ascii.eqb c TAB || Ascii.eqb c CR || Ascii.eqb c LF.

(** [while (!s.empty() && blank(s.back())) s.pop_back();] *)
Fixpoint pop_blanks (s : string) : string :=
  match s with
  | EmptyString => EmptyString
  | String c rest =>
      match pop_blanks rest with
      | EmptyString => if blank c then EmptyString else String c EmptyString
      | rest' => String c rest'
      end
  end.

(** [while (i < s.size() && blank(s[i])) i++; if (i > 0) s.erase(0, i);] *)
Fixpoint erase_blanks (s : string) : string :=
  match s with
  | EmptyString => EmptyString
  | String c rest => if blank c then erase_blanks rest else s
  end.

Definition trim (s : string) : string := erase_blanks (pop_blanks s).

(** What the host answers about one player object. *)
Record PlayerObj : Type := {
  env_and_player : bool;         (* env && playerObj *)
  g_getName_121 : bool;          (* the accessor is resolved *)
  getName_text : option string;  (* CallTextToString of Entity.getName(),
                                    None when the call raised or gave null *)
  profile_accessors : bool;      (* g_getGameProfile_121 &&
                                    g_gameProfileGetName_121 after
                                    EnsureGameProfileCaches *)
  gp : option (option string)    (* getGameProfile(): None when it raised or
                                    gave null, else GameProfile.getName() *)
}.

(** [GetStablePlayerName(env, playerObj)]. *)
Definition GetStablePlayerName (p : PlayerObj) : string :=
  if negb (env_and_player p) then EmptyString
  else
    let name :=
      if g_getName_121 p then
        match getName_text p with
        | Some text => text
        | None => EmptyString
        end
      else EmptyString in
    let name := trim name in
    if negb (String.eqb name EmptyString) && negb (String.eqb name "-")
    then name
    else if negb (profile_accessors p) then name
    else
      match gp p with
      | None => name
      | Some js =>
          let name := match js with Some cs => cs | None => name end in
          trim name
      end.

(** [std::string name = GetStablePlayerName(env, lw.obj);
    if (name.empty()) name = "Player";] *)
Definition player_name (p : PlayerObj) : string :=
  match GetStablePlayerName p with
  | EmptyString => "Player"
  | name => name
  end.

Section PlayerList.

Context {F : Type} {ops : FloatOps F}.

(** [std::to_string] on a [float] or a [double]. *)
Variable to_string : F -> string.

(** [localList.emplace_back(PlayerData121{name, lw.dist, lw.x, lw.y, lw.z,
    hp, armor, held})]. *)
Definition player_data (p : PlayerObj) (dist x y z hp : F) (armor : Z)
  (held : string) : PlayerData121 :=
  {| name := player_name p; dist := dist; ex := x; ey := y; ez := z;
     hp := hp; armor := armor; heldItem := held |}.

(** The object the state line holds for one player of the list
    (bridge_121.cpp:4893-4908); [(sx, sy)] is the projected aim point. *)
Definition player_json (p : PlayerData121) (projected : bool) (sx sy : F)
  : string :=
  ("{" ++ quoted "sx" ++ ":")
  ++ to_string (if projected then sx else (- lit32 1)%f32)
  ++ ("," ++ quoted "sy" ++ ":")
  ++ to_string (if projected then sy else (- lit32 1)%f32)
  ++ ("," ++ quoted "dist" ++ ":") ++ to_string (dist p)
  ++ ("," ++ quoted "name" ++ ":") ++ quoted (nameEsc (name p))
  ++ ("," ++ quoted "hp" ++ ":") ++ to_string (hp p)
  ++ "}".

End PlayerList.

End Bridge121Names.

(** A player whose display name starts with the colour code for red: the
    section sign in UTF-8, the code letter [c], then [Steve]. *)
Module NameScenario.

Import Bridge121Names.

Definition section_sign : string :=
  String (ascii_of_nat 194) (String (ascii_of_nat 167) EmptyString).

Definition red_steve : string := section_sign ++ "cSteve".

Definition red_steve_obj : PlayerObj :=
  {| env_and_player := true; g_getName_121 := true;
     getName_text := Some red_steve; profile_accessors := true;
     gp := Some (Some "Steve") |}.

Definition red_steve_data : Bridge121Overlay.PlayerData121 (F := R) :=
  player_data red_steve_obj 10%R 0%R 0%R (-10)%R 20%R 0 EmptyString.

End NameScenario.

(* ===================================================================== *)
(** * Properties *)
(* ===================================================================== *)

(* --------------------------------------------------------------------- *)
(** ** Strings *)
(* --------------------------------------------------------------------- *)

Module StrFacts.

Import Str.

Lemma length_take n s : (String.length (take n s) <= n)%nat.
Proof.
  revert s; induction n as [|n IH]; intros [|c s]; simpl; try lia.
  specialize (IH s); lia.
Qed.

Lemma all_take p n s : all p s = true -> all p (take n s) = true.
Proof.
  revert s; induction n as [|n IH]; intros [|c s]; simpl; auto.
  intros H; apply andb_true_iff in H as [Hc Hs].
  rewrite Hc; simpl; auto.
Qed.

Lemma take_all_length n s : (String.length s <= n)%nat -> take n s = s.
Proof.
  revert s; induction n as [|n IH]; intros [|c s]; simpl; auto; try lia.
  intros H; f_equal; apply IH; lia.
Qed.

Lemma all_impl (p q : ascii -> bool) s :
  (forall c, p c = true -> q c = true) -> all p s = true -> all q s = true.
Proof.
  intros Hpq. induction s as [|c s IH]; simpl; auto.
  intros H. apply andb_true_iff in H as [Hc Hs].
  rewrite (Hpq _ Hc), IH; auto.
Qed.

End StrFacts.

(* --------------------------------------------------------------------- *)
(** ** Name sanitising *)
(* --------------------------------------------------------------------- *)

Module SanitizeFacts.

Import Str Bridge StrFacts.

(** Strong induction on the length, for a loop that advances by one, two
    or three bytes. *)
Lemma string_length_ind (P : string -> Prop) :
  (forall s, (forall t, (String.length t < String.length s)%nat -> P t) -> P s) ->
  forall s, P s.
Proof.
  intros H s.
  remember (String.length s) as n eqn:Hn.
  revert s Hn.
  induction n as [n IH] using lt_wf_ind.
  intros s ->. apply H. intros t Ht. eapply IH; eauto.
Qed.

Lemma strip_loop_printable s : all printable (strip_loop s) = true.
Proof.
  induction s as [s IH] using string_length_ind.
  destruct s as [|c rest]; [reflexivity|].
  cbn [strip_loop].
  assert (Hplain :
    all printable
      (if is_A7 c then
         match rest with
         | String _ rest' => strip_loop rest'
         | EmptyString => EmptyString
         end
       else if printable c then String c (strip_loop rest)
       else strip_loop rest) = true).
  { destruct (is_A7 c).
    - destruct rest as [|c1 rest']; [reflexivity|].
      apply IH; simpl; lia.
    - destruct (printable c) eqn:Hp.
      + simpl. rewrite Hp. simpl. apply IH; simpl; lia.
      + apply IH; simpl; lia. }
  destruct (is_C2 c); [|exact Hplain].
  destruct rest as [|c1 [|c2 rest']]; try exact Hplain.
  destruct (is_A7 c1); [|exact Hplain].
  apply IH; simpl; lia.
Qed.

Lemma printable_not_A7 c : printable c = true -> is_A7 c = false.
Proof.
  unfold printable, is_A7. intros H.
  apply andb_true_iff in H as [_ H]. apply N.leb_le in H.
  apply N.eqb_neq. lia.
Qed.

Lemma printable_not_C2 c : printable c = true -> is_C2 c = false.
Proof.
  unfold printable, is_C2. intros H.
  apply andb_true_iff in H as [_ H]. apply N.leb_le in H.
  apply N.eqb_neq. lia.
Qed.

(** A text of printable bytes goes through the loop unchanged. *)
Lemma strip_loop_plain s : all printable s = true -> strip_loop s = s.
Proof.
  induction s as [|c rest IH]; [reflexivity|].
  simpl. intros H. apply andb_true_iff in H as [Hc Hrest].
  rewrite (printable_not_C2 _ Hc), (printable_not_A7 _ Hc), Hc.
  now rewrite IH.
Qed.

(** A printable byte in front is kept. *)
Lemma strip_loop_keep c rest :
  printable c = true -> strip_loop (String c rest) = String c (strip_loop rest).
Proof.
  intros Hc. cbn [strip_loop].
  now rewrite (printable_not_C2 _ Hc), (printable_not_A7 _ Hc), Hc.
Qed.

(** A raw section sign goes together with the byte after it. *)
Lemma strip_loop_raw_sign a c rest :
  is_A7 a = true -> strip_loop (String a (String c rest)) = strip_loop rest.
Proof.
  intros Ha. cbn [strip_loop].
  assert (is_C2 a = false) as ->.
  { unfold is_A7, is_C2 in *. apply N.eqb_eq in Ha. apply N.eqb_neq. lia. }
  now rewrite Ha.
Qed.

(** The two-byte section sign goes together with the byte after it. *)
Lemma strip_loop_utf8_sign b a c rest :
  is_C2 b = true -> is_A7 a = true ->
  strip_loop (String b (String a (String c rest))) = strip_loop rest.
Proof.
  intros Hb Ha. cbn [strip_loop]. now rewrite Hb, Ha.
Qed.

Lemma Strip_take s : StripMinecraftFormatting s = take 96 (strip_loop s).
Proof.
  unfold StripMinecraftFormatting. cbv zeta.
  destruct (96 <? String.length (strip_loop s))%nat eqn:E; [reflexivity|].
  apply Nat.ltb_ge in E. now rewrite take_all_length.
Qed.

End SanitizeFacts.

(* --------------------------------------------------------------------- *)
(** ** Config messages *)
(* --------------------------------------------------------------------- *)

Module ConfigFacts.

Import Str.

Section Generic.

Context {F : Type} {ops : FloatOps F}.

(* ---- bridge_121.cpp ---- *)

Lemma getStr_absent_121 line key :
  Bridge121.absent line key -> Bridge121.getStr line key = EmptyString.
Proof. unfold Bridge121.absent, Bridge121.getStr. now intros ->. Qed.

Lemma ParseConfig_bool_121 line (c : Bridge121.Config F) f :
  Bridge121.getStr line "type" = "config" ->
  Bridge121.cfg_bool (Bridge121.ParseConfig line c) f =
  Bridge121.getBool line (Bridge121.bool_key f).
Proof.
  intros Ht. unfold Bridge121.ParseConfig. rewrite Ht.
  destruct f; reflexivity.
Qed.

Lemma ParseConfig_float_121 line (c : Bridge121.Config F) f :
  Bridge121.getStr line "type" = "config" ->
  Bridge121.cfg_float (Bridge121.ParseConfig line c) f =
  Bridge121.getFloat line (Bridge121.float_key f).
Proof.
  intros Ht. unfold Bridge121.ParseConfig. rewrite Ht.
  destruct f; reflexivity.
Qed.

Lemma ParseConfig_str_121 line (c : Bridge121.Config F) f :
  Bridge121.getStr line "type" = "config" ->
  Bridge121.cfg_str (Bridge121.ParseConfig line c) f =
  Bridge121.getStr line (Bridge121.str_key f).
Proof.
  intros Ht. unfold Bridge121.ParseConfig. rewrite Ht.
  destruct f; reflexivity.
Qed.

Lemma ParseConfig_int_121 line (c : Bridge121.Config F) f :
  Bridge121.getStr line "type" = "config" ->
  Bridge121.cfg_int (Bridge121.ParseConfig line c) f =
  match f with
  | Bridge121.gtbCount => Bridge121.getInt line "gtbCount" 0
  | _ => Bridge121.clamp_1_20
           (Bridge121.getInt line (Bridge121.int_key f) (Bridge121.cfg_int c f))
  end.
Proof.
  intros Ht. unfold Bridge121.ParseConfig. rewrite Ht.
  destruct f; reflexivity.
Qed.

Import Bridge121(counts_ok).

Lemma counts_ok_default : counts_ok Bridge121.Config_default.
Proof. intros f Hf. destruct f; simpl; try lia. congruence. Qed.

Lemma counts_ok_ParseConfig line c :
  counts_ok c -> counts_ok (Bridge121.ParseConfig line c).
Proof.
  intros Hc f Hf.
  destruct (String.eqb (Bridge121.getStr line "type") "config") eqn:Ht.
  - apply String.eqb_eq in Ht. rewrite ParseConfig_int_121 by exact Ht.
    destruct f; try congruence; unfold Bridge121.clamp_1_20; lia.
  - unfold Bridge121.ParseConfig. rewrite Ht. simpl. now apply Hc.
Qed.

Lemma counts_ok_ParseConfig_all lines c :
  counts_ok c -> counts_ok (Bridge121.ParseConfig_all lines c).
Proof.
  revert c. induction lines as [|l lines IH]; intros c Hc; [exact Hc|].
  simpl. apply IH. now apply counts_ok_ParseConfig.
Qed.


(* ---- bridge.cpp ---- *)

Import Bridge(float_value, int_value, apply_keybind).

Lemma getFloat_run line key (c : Bridge.Config F) :
  Bridge.getFloat line key c = (c, float_value line key).
Proof.
  unfold Bridge.getFloat, float_value.
  destruct (Bridge.getStr line key); [reflexivity|].
  destruct (stof _); reflexivity.
Qed.

Lemma getInt_run line key (c : Bridge.Config F) :
  Bridge.getInt line key c = (c, int_value line key).
Proof.
  unfold Bridge.getInt, int_value.
  destruct (Bridge.getStr line key); [reflexivity|].
  destruct (Decimal.stoi _); reflexivity.
Qed.

Lemma getStr_absent line key :
  Bridge.absent line key -> Bridge.getStr line key = EmptyString.
Proof. unfold Bridge.absent, Bridge.getStr. now intros ->. Qed.

Lemma float_value_absent line key :
  Bridge.absent line key -> float_value line key = Some (lit32 0).
Proof. intros H. unfold float_value. now rewrite getStr_absent. Qed.

Lemma int_value_absent line key :
  Bridge.absent line key -> int_value line key = Some (-1).
Proof. intros H. unfold int_value. now rewrite getStr_absent. Qed.

Lemma keybind_run line key f (c : Bridge.Config F) :
  Bridge.keybind line key f c =
  match int_value line key with
  | Some v => (apply_keybind v f c, Some tt)
  | None => (c, None)
  end.
Proof.
  unfold Bridge.keybind, Bridge.bind. rewrite getInt_run.
  destruct (int_value line key) as [v|]; [|reflexivity].
  unfold apply_keybind. destruct (0 <=? v); reflexivity.
Qed.

(** [ParseConfig] step by step: every statement either goes on or leaves
    with the state reached. *)
Ltac step_ParseConfig :=
  unfold Bridge.ParseConfig, Bridge.bind, Bridge.assign, Bridge.ret;
  repeat first
    [ rewrite getFloat_run
    | rewrite keybind_run
    | match goal with
      | |- context [float_value ?l ?k] =>
          destruct (float_value l k) eqn:?
      | |- context [int_value ?l ?k] =>
          destruct (int_value l k) eqn:?
      end
    | progress cbv beta iota ].

(** A keybind whose key is absent is never written, whether the call
    returns or throws. *)
Lemma ParseConfig_keybind_absent line (c : Bridge.Config F) f :
  Bridge.absent line (Bridge.int_key f) ->
  Bridge.cfg_int (fst (Bridge.ParseConfig line c)) f = Bridge.cfg_int c f.
Proof.
  intros Habs. apply int_value_absent in Habs.
  destruct (String.eqb (Bridge.getStr line "type") "config") eqn:Ht;
    [|unfold Bridge.ParseConfig; now rewrite Ht].
  step_ParseConfig; rewrite ?Ht; step_ParseConfig; try reflexivity.
  all: destruct f; cbn [Bridge.int_key] in Habs;
    repeat match goal with
    | H1 : int_value ?l ?k = _, H2 : int_value ?l ?k = _ |- _ =>
        rewrite H1 in H2; inversion H2; subst; clear H2
    end; try reflexivity.
  all: cbn [fst]; unfold apply_keybind; change (0 <=? -1) with false;
    repeat match goal with
    | |- context [0 <=? ?z] => destruct (0 <=? z)
    end; reflexivity.
Qed.

(** When the call returns, every boolean and float field holds what the
    message gave for its key, and every keybind was parsed. *)
Lemma ParseConfig_returns line (c : Bridge.Config F) :
  Bridge.getStr line "type" = "config" ->
  snd (Bridge.ParseConfig line c) = Some tt ->
  (forall f, Bridge.cfg_bool (fst (Bridge.ParseConfig line c)) f =
             Bridge.getBool line (Bridge.bool_key f)) /\
  (forall f, float_value line (Bridge.float_key f) =
             Some (Bridge.cfg_float (fst (Bridge.ParseConfig line c)) f)).
Proof.
  intros Ht. apply String.eqb_eq in Ht.
  step_ParseConfig; rewrite ?Ht; step_ParseConfig; cbn [fst snd];
    try discriminate.
  intros _. split; intros fld; destruct fld; cbn [Bridge.float_key];
    unfold apply_keybind;
    repeat match goal with
    | |- context [0 <=? ?z] => destruct (0 <=? z)
    end; try reflexivity; cbn; assumption.
Qed.

(** The call returns when no number of the message fails to parse. *)
Lemma ParseConfig_no_throw line (c : Bridge.Config F) :
  (forall f, float_value line (Bridge.float_key f) <> None) ->
  (forall f, int_value line (Bridge.int_key f) <> None) ->
  snd (Bridge.ParseConfig line c) = Some tt.
Proof.
  intros Hf Hi.
  pose proof (Hf Bridge.minCPS) as F1. pose proof (Hf Bridge.maxCPS) as F2.
  pose proof (Hf Bridge.rightMinCPS) as F3.
  pose proof (Hf Bridge.rightMaxCPS) as F4.
  pose proof (Hi Bridge.keybindAutoclicker) as I1.
  pose proof (Hi Bridge.keybindNametags) as I2.
  pose proof (Hi Bridge.keybindClosestPlayer) as I3.
  pose proof (Hi Bridge.keybindChestEsp) as I4.
  cbn [Bridge.float_key Bridge.int_key] in *.
  destruct (String.eqb (Bridge.getStr line "type") "config") eqn:Ht;
    [|unfold Bridge.ParseConfig; now rewrite Ht].
  step_ParseConfig; rewrite ?Ht; step_ParseConfig; cbn [snd];
    try reflexivity; congruence.
Qed.

End Generic.

End ConfigFacts.

Module ConfigClaims.

Import Str ConfigFacts Messages.

Lemma armed_only_type_121 : Bridge121.getStr armed_only "type" = "config".
Proof. reflexivity. Qed.

Lemma armed_only_type : Bridge.getStr armed_only "type" = "config".
Proof. reflexivity. Qed.

Lemma armed_only_absent_bool_121 f :
  f <> Bridge121.armed -> Bridge121.absent armed_only (Bridge121.bool_key f).
Proof. destruct f; intros H; try reflexivity; congruence. Qed.

Lemma armed_only_absent_bool f :
  f <> Bridge.armed -> Bridge.absent armed_only (Bridge.bool_key f).
Proof. destruct f; intros H; try reflexivity; congruence. Qed.

(** C1, as the code has it: a message of type [config] rewrites every
    field.  A field whose key is absent from the message is reset (a flag to
    false, a float to 0, a string to empty, [gtbCount] to 0); only the four
    keybinds of bridge.cpp and the two caps [nametagMaxCount] and
    [chestEspMaxCount] of bridge_121.cpp keep their previous value.  So
    after any sequence of messages, the message with [armed] alone sets
    [armed], keeps the keybinds and the caps, and resets everything else. *)
Theorem C1_absent_keys_reset_except_keybinds_and_caps
  {F : Type} {ops : FloatOps F} :
  (* bridge_121.cpp *)
  (forall (lines : list string) (line : string),
     Bridge121.getStr line "type" = "config" ->
     let c := Bridge121.ParseConfig_all lines Bridge121.Config_default in
     let c' := Bridge121.ParseConfig line c in
     (forall f, Bridge121.absent line (Bridge121.bool_key f) ->
                Bridge121.cfg_bool c' f = false) /\
     (forall f, Bridge121.absent line (Bridge121.float_key f) ->
                Bridge121.cfg_float c' f = lit32 0) /\
     (forall f, Bridge121.absent line (Bridge121.str_key f) ->
                Bridge121.cfg_str c' f = EmptyString) /\
     (Bridge121.absent line "gtbCount" ->
                Bridge121.cfg_int c' Bridge121.gtbCount = 0) /\
     (forall f, f <> Bridge121.gtbCount ->
                Bridge121.absent line (Bridge121.int_key f) ->
                Bridge121.cfg_int c' f = Bridge121.cfg_int c f)) /\
  (* bridge.cpp *)
  (forall (c : Bridge.Config F) (line : string),
     Bridge.getStr line "type" = "config" ->
     let r := Bridge.ParseConfig line c in
     (forall f, Bridge.absent line (Bridge.int_key f) ->
                Bridge.cfg_int (fst r) f = Bridge.cfg_int c f) /\
     (snd r = Some tt ->
      (forall f, Bridge.absent line (Bridge.bool_key f) ->
                 Bridge.cfg_bool (fst r) f = false) /\
      (forall f, Bridge.absent line (Bridge.float_key f) ->
                 Bridge.cfg_float (fst r) f = lit32 0)) /\
     ((forall f, Bridge.absent line (Bridge.float_key f)) ->
      (forall f, Bridge.absent line (Bridge.int_key f)) ->
      snd r = Some tt)) /\
  (* the message with [armed] alone *)
  (forall (lines : list string),
     let c := Bridge121.ParseConfig_all lines Bridge121.Config_default in
     let c' := Bridge121.ParseConfig armed_only c in
     (forall f, Bridge121.cfg_bool c' f =
                match f with Bridge121.armed => true | _ => false end) /\
     (forall f, Bridge121.cfg_float c' f = lit32 0) /\
     (forall f, Bridge121.cfg_str c' f = EmptyString) /\
     (forall f, Bridge121.cfg_int c' f =
                match f with
                | Bridge121.gtbCount => 0
                | _ => Bridge121.cfg_int c f
                end)) /\
  (forall (c : Bridge.Config F),
     let r := Bridge.ParseConfig armed_only c in
     snd r = Some tt /\
     (forall f, Bridge.cfg_bool (fst r) f =
                match f with Bridge.armed => true | _ => false end) /\
     (forall f, Bridge.cfg_float (fst r) f = lit32 0) /\
     (forall f, Bridge.cfg_int (fst r) f = Bridge.cfg_int c f)).
Proof.
  assert (H121 : forall (lines : list string) (line : string),
     Bridge121.getStr line "type" = "config" ->
     let c := Bridge121.ParseConfig_all lines Bridge121.Config_default in
     let c' := Bridge121.ParseConfig line c in
     (forall f, Bridge121.absent line (Bridge121.bool_key f) ->
                Bridge121.cfg_bool c' f = false) /\
     (forall f, Bridge121.absent line (Bridge121.float_key f) ->
                Bridge121.cfg_float c' f = lit32 0) /\
     (forall f, Bridge121.absent line (Bridge121.str_key f) ->
                Bridge121.cfg_str c' f = EmptyString) /\
     (Bridge121.absent line "gtbCount" ->
                Bridge121.cfg_int c' Bridge121.gtbCount = 0) /\
     (forall f, f <> Bridge121.gtbCount ->
                Bridge121.absent line (Bridge121.int_key f) ->
                Bridge121.cfg_int c' f = Bridge121.cfg_int c f)).
  { intros lines line Ht c c'. subst c'. repeat split.
    - intros f Ha. rewrite ParseConfig_bool_121 by exact Ht.
      unfold Bridge121.getBool. now rewrite getStr_absent_121.
    - intros f Ha. rewrite ParseConfig_float_121 by exact Ht.
      unfold Bridge121.getFloat. now rewrite getStr_absent_121.
    - intros f Ha. rewrite ParseConfig_str_121 by exact Ht.
      now rewrite getStr_absent_121.
    - intros Ha. rewrite ParseConfig_int_121 by exact Ht.
      unfold Bridge121.getInt. now rewrite getStr_absent_121.
    - intros f Hf Ha. rewrite ParseConfig_int_121 by exact Ht.
      assert (Hc : 1 <= Bridge121.cfg_int c f <= 20).
      { apply counts_ok_ParseConfig_all; [apply counts_ok_default | exact Hf]. }
      unfold Bridge121.getInt. rewrite getStr_absent_121 by exact Ha.
      destruct f; try congruence; unfold Bridge121.clamp_1_20; lia. }
  assert (H189 : forall (c : Bridge.Config F) (line : string),
     Bridge.getStr line "type" = "config" ->
     let r := Bridge.ParseConfig line c in
     (forall f, Bridge.absent line (Bridge.int_key f) ->
                Bridge.cfg_int (fst r) f = Bridge.cfg_int c f) /\
     (snd r = Some tt ->
      (forall f, Bridge.absent line (Bridge.bool_key f) ->
                 Bridge.cfg_bool (fst r) f = false) /\
      (forall f, Bridge.absent line (Bridge.float_key f) ->
                 Bridge.cfg_float (fst r) f = lit32 0)) /\
     ((forall f, Bridge.absent line (Bridge.float_key f)) ->
      (forall f, Bridge.absent line (Bridge.int_key f)) ->
      snd r = Some tt)).
  { intros c line Ht r. subst r. repeat split.
    - intros f Ha. now apply ParseConfig_keybind_absent.
    - intros f Ha. destruct (ParseConfig_returns line c Ht H) as [Hb _].
      rewrite Hb. unfold Bridge.getBool. now rewrite getStr_absent.
    - intros f Ha. destruct (ParseConfig_returns line c Ht H) as [_ Hf].
      specialize (Hf f). rewrite float_value_absent in Hf by exact Ha.
      now inversion Hf.
    - intros Hf Hi. apply ParseConfig_no_throw.
      + intros f. now rewrite float_value_absent.
      + intros f. now rewrite int_value_absent. }
  split; [exact H121|]. split; [exact H189|]. split.
  - intros lines c c'.
    destruct (H121 lines armed_only armed_only_type_121)
      as (Hb & Hf & Hs & Hg & Hi).
    fold c in Hb, Hf, Hs, Hg, Hi. fold c' in Hb, Hf, Hs, Hg, Hi.
    repeat split.
    + intros f. destruct (Bridge121.BoolField_eq_dec f Bridge121.armed) as [->|Hne].
      * subst c'. now rewrite ParseConfig_bool_121.
      * rewrite Hb by now apply armed_only_absent_bool_121.
        destruct f; congruence.
    + intros f. apply Hf. destruct f; reflexivity.
    + intros f. apply Hs. destruct f; reflexivity.
    + intros f. destruct f; [apply Hi | apply Hi | apply Hg];
        try congruence; reflexivity.
  - intros c r.
    destruct (H189 c armed_only armed_only_type) as (Hi & Hret & Hno).
    fold r in Hi, Hret, Hno.
    assert (Hsome : snd r = Some tt).
    { apply Hno; intros f; destruct f; reflexivity. }
    destruct (Hret Hsome) as [Hb Hf].
    split; [exact Hsome|]. split; [|split].
    + intros f. destruct (Bridge.BoolField_eq_dec f Bridge.armed) as [->|Hne].
      * destruct (ParseConfig_returns armed_only c armed_only_type Hsome)
          as [Hb' _]. subst r. now rewrite Hb'.
      * rewrite Hb by now apply armed_only_absent_bool.
        destruct f; congruence.
    + intros f. apply Hf. destruct f; reflexivity.
    + intros f. apply Hi. destruct f; reflexivity.
Qed.

(** C1, counterexample: after a message that turns the nametags on
    and sets 12 to 16 clicks per second, the message with [armed] alone
    turns the nametags off again and sets the click rates to 0, in both
    bridges, although it names neither key. *)
Lemma C1_armed_alone_resets_other_fields :
  (let c := Bridge121.ParseConfig settings_msg
              (Bridge121.Config_default (F := R)) in
   let c' := Bridge121.ParseConfig armed_only c in
   Bridge121.absent armed_only "nametags" /\
   Bridge121.absent armed_only "minCPS" /\
   Bridge121.cfg_bool c Bridge121.nametags = true /\
   Bridge121.cfg_bool c' Bridge121.nametags = false /\
   Bridge121.cfg_float c Bridge121.minCPS = 12%R /\
   Bridge121.cfg_float c' Bridge121.minCPS = 0%R) /\
  (let c := fst (Bridge.ParseConfig settings_msg
                   (Bridge.Config_default (F := R))) in
   let r := Bridge.ParseConfig armed_only c in
   Bridge.absent armed_only "nametags" /\
   Bridge.absent armed_only "minCPS" /\
   snd r = Some tt /\
   Bridge.cfg_bool c Bridge.nametags = true /\
   Bridge.cfg_bool (fst r) Bridge.nametags = false /\
   Bridge.cfg_float c Bridge.minCPS = 12%R /\
   Bridge.cfg_float (fst r) Bridge.minCPS = 0%R).
Proof.
  split; cbv zeta; repeat split; try reflexivity.
  all: cbv -[Q2R]; unfold Q2R; cbn; lra.
Qed.

(** C1, witness, on exact reals: after [settings_msg] set the cap to
    12, the message with [armed] alone keeps it (bridge_121.cpp) and keeps
    key 78 (bridge.cpp). *)
Lemma C1_absent_keys_witness :
  Bridge121.getStr armed_only "type" = "config" /\
  Bridge.getStr armed_only "type" = "config" /\
  Bridge121.cfg_int
    (Bridge121.ParseConfig armed_only
       (Bridge121.ParseConfig_all [settings_msg]
          (Bridge121.Config_default (F := R))))
    Bridge121.nametagMaxCount = 12 /\
  Bridge.cfg_int
    (fst (Bridge.ParseConfig armed_only
       (fst (Bridge.ParseConfig settings_msg
          (Bridge.Config_default (F := R))))))
    Bridge.keybindNametags = 78.
Proof.
  split; [reflexivity|]. split; [reflexivity|].
  destruct (C1_absent_keys_reset_except_keybinds_and_caps (F := R))
    as (H121 & H189 & _).
  split.
  - destruct (H121 [settings_msg] armed_only eq_refl) as (_ & _ & _ & _ & Hi).
    rewrite Hi; [reflexivity | discriminate | reflexivity].
  - destruct (H189 (fst (Bridge.ParseConfig settings_msg
                           (Bridge.Config_default (F := R))))
                   armed_only eq_refl) as (Hi & _).
    rewrite Hi; reflexivity.
Defined.

End ConfigClaims.

(* --------------------------------------------------------------------- *)
(** ** Projection *)
(* --------------------------------------------------------------------- *)

Module ProjectorFacts.

Section Generic.

Context {F : Type} {ops : FloatOps F}.

Lemma Bridge_WorldToScreen_rejects x y z view proj w h :
  flt (Bridge.WorldToScreen_pW x y z view proj) (lit32 0.02) = true ->
  Bridge.WorldToScreen x y z view proj w h = None.
Proof.
  unfold Bridge.WorldToScreen, Bridge.WorldToScreen_pW. cbv zeta.
  now intros ->.
Qed.

Lemma Bridge121_WorldToScreen_rejects pos camPos view proj winW winH :
  isfinite (Bridge121.WorldToScreen_ndcW pos camPos view proj) = false \/
  flt (Bridge121.WorldToScreen_ndcW pos camPos view proj) (lit32 0.1) = true ->
  Bridge121.WorldToScreen pos camPos view proj winW winH = None.
Proof.
  unfold Bridge121.WorldToScreen, Bridge121.WorldToScreen_ndcW. cbv zeta.
  intros [-> | ->]; [reflexivity|].
  now rewrite orb_true_r.
Qed.

Lemma WorldToScreen_Angles_rejects worldPos camPos yawDeg pitchDeg fovDeg
  winW winH :
  isfinite (Bridge121.WorldToScreen_Angles_vFwd worldPos camPos yawDeg pitchDeg)
    = false \/
  flt (Bridge121.WorldToScreen_Angles_vFwd worldPos camPos yawDeg pitchDeg)
      (lit32 0.1) = true ->
  Bridge121.WorldToScreen_Angles worldPos camPos yawDeg pitchDeg fovDeg
    winW winH = None.
Proof.
  unfold Bridge121.WorldToScreen_Angles, Bridge121.WorldToScreen_Angles_vFwd.
  cbv zeta.
  destruct (Bridge121.forward yawDeg pitchDeg) as [[fX fY] fZ].
  destruct (flt (sqrtf _) _); cbv beta iota;
    (intros [-> | ->]; [reflexivity | now rewrite orb_true_r]).
Qed.

(** What the three functions return is on the near side: when a position
    comes back, [w] (or the forward component) is finite where the code
    asks for it and not below the threshold. *)
Lemma WorldToScreen_Angles_accepts worldPos camPos yawDeg pitchDeg fovDeg
  winW winH p :
  Bridge121.WorldToScreen_Angles worldPos camPos yawDeg pitchDeg fovDeg
    winW winH = Some p ->
  isfinite (Bridge121.WorldToScreen_Angles_vFwd worldPos camPos yawDeg pitchDeg)
    = true /\
  flt (Bridge121.WorldToScreen_Angles_vFwd worldPos camPos yawDeg pitchDeg)
      (lit32 0.1) = false.
Proof.
  intros H.
  destruct (isfinite _) eqn:E1.
  - destruct (flt (Bridge121.WorldToScreen_Angles_vFwd _ _ _ _) _) eqn:E2; auto.
    rewrite WorldToScreen_Angles_rejects in H by (now right). discriminate.
  - rewrite WorldToScreen_Angles_rejects in H by (now left). discriminate.
Qed.

(** C3: a point behind the camera plane is never given a screen position.
    The matrix strategy of either bridge returns false whenever the
    post-projection [w] is below its threshold (0.02 in bridge.cpp, 0.1 in
    bridge_121.cpp, where a non-finite [w] is refused too), and the
    angle-reconstruction strategy returns false whenever the forward
    component of the camera-relative offset is not finite or not positive.
    The only fact of arithmetic used is that a finite value that is not
    above 0 is below 0.1. *)
Theorem C3_behind_camera_is_rejected
  (Hnonpos : forall v : F, isfinite v = true ->
             flt (lit32 0) v = false -> flt v (lit32 0.1) = true) :
  (forall x y z view proj w h,
     flt (Bridge.WorldToScreen_pW x y z view proj) (lit32 0.02) = true ->
     Bridge.WorldToScreen x y z view proj w h = None) /\
  (forall pos camPos view proj winW winH,
     (isfinite (Bridge121.WorldToScreen_ndcW pos camPos view proj) = false \/
      flt (Bridge121.WorldToScreen_ndcW pos camPos view proj) (lit32 0.1) = true) ->
     Bridge121.WorldToScreen pos camPos view proj winW winH = None) /\
  (forall worldPos camPos yawDeg pitchDeg fovDeg winW winH,
     let vFwd :=
       Bridge121.WorldToScreen_Angles_vFwd worldPos camPos yawDeg pitchDeg in
     (isfinite vFwd = false \/ flt (lit32 0) vFwd = false) ->
     Bridge121.WorldToScreen_Angles worldPos camPos yawDeg pitchDeg fovDeg
       winW winH = None).
Proof.
  split; [|split].
  - intros. now apply Bridge_WorldToScreen_rejects.
  - intros. now apply Bridge121_WorldToScreen_rejects.
  - intros worldPos camPos yawDeg pitchDeg fovDeg winW winH vFwd H.
    apply WorldToScreen_Angles_rejects. fold vFwd.
    destruct (isfinite vFwd) eqn:Efin; [|now left].
    destruct H as [H|H]; [discriminate|].
    right. now apply Hnonpos.
Qed.

End Generic.

(* ---- exact real arithmetic ---- *)

Lemma Rltb_true a b : (a < b)%R -> Rltb a b = true.
Proof. unfold Rltb. destruct (Rlt_dec a b); tauto. Qed.

Lemma Rltb_false a b : (b <= a)%R -> Rltb a b = false.
Proof. unfold Rltb. destruct (Rlt_dec a b); auto. lra. Qed.

Lemma Rltb_true_inv a b : Rltb a b = true -> (a < b)%R.
Proof. unfold Rltb. destruct (Rlt_dec a b); auto. discriminate. Qed.

Lemma Rltb_false_inv a b : Rltb a b = false -> (b <= a)%R.
Proof. unfold Rltb. destruct (Rlt_dec a b); [discriminate|]. lra. Qed.

Lemma RealOps_nonpos (v : R) :
  isfinite v = true -> flt (lit32 0) v = false -> flt v (lit32 0.1) = true.
Proof.
  intros _ H. cbn in *. apply Rltb_false_inv in H. apply Rltb_true.
  unfold Q2R in *. cbn in *. lra.
Qed.

Import Scenario.

Lemma to_rad_0 : Bridge121.to_rad (ops := RealOps) 0%R = 0%R.
Proof. unfold Bridge121.to_rad. cbn. apply Rmult_0_l. Qed.

Lemma forward_0_0 :
  Bridge121.forward (ops := RealOps) 0%R 0%R = (-0 * 1, -0, 1 * 1)%R.
Proof.
  unfold Bridge121.forward. cbv zeta. rewrite to_rad_0. cbn.
  now rewrite sin_0, cos_0.
Qed.

Lemma Q2R_0 : Q2R 0 = 0%R.
Proof. unfold Q2R. cbn. lra. Qed.

Lemma Q2R_1 : Q2R 1 = 1%R.
Proof. unfold Q2R. cbn. lra. Qed.

(** C5: with the camera at the origin, yaw 0, pitch 0, a vertical field of
    view of 70 degrees and a 1920 by 1080 viewport, the angle-reconstruction
    projector accepts the point (0, 0, 10) straight ahead and puts it at
    the centre of the screen, (960, 540).  Computed in exact real
    arithmetic, where the result is exactly the centre. *)
Theorem C5_point_ahead_projects_to_screen_centre :
  Bridge121.WorldToScreen_Angles (ops := RealOps) ahead camera 0%R 0%R 70%R
    1920 1080 = Some (960, 540)%R.
Proof.
  unfold Bridge121.WorldToScreen_Angles. cbv zeta. rewrite forward_0_0.
  cbn. rewrite Q2R_0, Q2R_1.
  match goal with
  | |- context [sqrt ?a] => replace a with 1%R by ring
  end.
  rewrite sqrt_1.
  rewrite Rltb_false by lra.
  cbv beta iota.
  rewrite Rltb_false by lra.
  f_equal. f_equal.
  - unfold Rdiv. lra.
  - unfold Rdiv. lra.
Qed.

Lemma vFwd_behind :
  Bridge121.WorldToScreen_Angles_vFwd (ops := RealOps) behind camera 0%R 0%R
  = (-10)%R.
Proof.
  unfold Bridge121.WorldToScreen_Angles_vFwd. cbv zeta. rewrite forward_0_0.
  cbn. lra.
Qed.

(** C3, witness, the second scenario of the specification: the
    point (0, 0, -10) straight behind the same camera is refused. *)
Lemma C3_point_behind_witness :
  (forall v : R, isfinite v = true ->
     flt (lit32 0) v = false -> flt v (lit32 0.1) = true) /\
  flt (lit32 0)
    (Bridge121.WorldToScreen_Angles_vFwd (ops := RealOps) behind camera 0%R 0%R)
    = false /\
  Bridge121.WorldToScreen_Angles (ops := RealOps) behind camera 0%R 0%R 70%R
    1920 1080 = None.
Proof.
  assert (H : flt (lit32 0)
    (Bridge121.WorldToScreen_Angles_vFwd (ops := RealOps) behind camera 0%R 0%R)
    = false).
  { rewrite vFwd_behind. cbn. apply Rltb_false. rewrite Q2R_0. lra. }
  split; [exact RealOps_nonpos|]. split; [exact H|].
  apply (proj2 (proj2 (C3_behind_camera_is_rejected RealOps_nonpos))).
  now right.
Defined.

End ProjectorFacts.

(* --------------------------------------------------------------------- *)
(** ** Overlay smoothing *)
(* --------------------------------------------------------------------- *)

Module SmoothingFacts.

Import ProjectorFacts.

Section Generic.

Context {F : Type} {ops : FloatOps F}.

(** First sighting: the entry takes the position as it is. *)
Lemma smooth_update_first (smooth : Bridge.TagSmoothingState) px py dist frame :
  Bridge.init smooth = false ->
  Bridge.x (Bridge.smooth_update smooth px py dist frame) = px /\
  Bridge.y (Bridge.smooth_update smooth px py dist frame) = py.
Proof. unfold Bridge.smooth_update. now intros ->. Qed.

(** A jump above the threshold: the entry takes the position as it is. *)
Lemma smooth_update_jump (smooth : Bridge.TagSmoothingState) px py dist frame :
  fgt (Bridge.deltaSq smooth px py) (lit32 24000) = true ->
  Bridge.x (Bridge.smooth_update smooth px py dist frame) = px /\
  Bridge.y (Bridge.smooth_update smooth px py dist frame) = py.
Proof.
  unfold Bridge.smooth_update, Bridge.deltaSq. cbv zeta. intros ->.
  now destruct (Bridge.init smooth).
Qed.

(** Below the threshold the entry moves by the blend factor. *)
Lemma smooth_update_blend (smooth : Bridge.TagSmoothingState) px py dist frame :
  Bridge.init smooth = true ->
  fgt (Bridge.deltaSq smooth px py) (lit32 24000) = false ->
  let b := Bridge.blend_of dist (Bridge.deltaSq smooth px py) in
  Bridge.x (Bridge.smooth_update smooth px py dist frame)
    = (Bridge.x smooth + (px - Bridge.x smooth) * b)%f32 /\
  Bridge.y (Bridge.smooth_update smooth px py dist frame)
    = (Bridge.y smooth + (py - Bridge.y smooth) * b)%f32.
Proof.
  unfold Bridge.smooth_update, Bridge.deltaSq. cbv zeta.
  now intros -> ->.
Qed.

End Generic.

(* ---- exact real arithmetic ---- *)

Open Scope R_scope.

(** A sequence of errors that shrinks by a factor [c < 1] in every step, up
    to a disturbance that vanishes, vanishes. *)
Lemma contraction_vanishes (e d : nat -> R) (c : R) :
  0 <= c < 1 ->
  (forall n, 0 <= e n) ->
  (forall n, e (S n) <= c * e n + d n) ->
  Un_cv d 0 ->
  Un_cv e 0.
Proof.
  intros Hc He Hstep Hd eps Heps.
  destruct (Hd (eps * (1 - c) / 2)) as [N1 HN1].
  { apply Rlt_gt. apply Rdiv_lt_0_compat; [|lra].
    apply Rmult_lt_0_compat; lra. }
  assert (HA : forall k, e (N1 + k)%nat <= c ^ k * e N1 + eps / 2).
  { induction k as [|k IH].
    - rewrite Nat.add_0_r. simpl. lra.
    - replace (N1 + S k)%nat with (S (N1 + k)) by lia.
      eapply Rle_trans; [apply Hstep|].
      assert (Hdk : d (N1 + k)%nat < eps * (1 - c) / 2).
      { specialize (HN1 (N1 + k)%nat ltac:(lia)).
        unfold R_dist in HN1. rewrite Rminus_0_r in HN1.
        apply Rabs_def2 in HN1. lra. }
      simpl.
      assert (c * e (N1 + k)%nat <= c * (c ^ k * e N1 + eps / 2)).
      { apply Rmult_le_compat_l; lra. }
      lra. }
  destruct (pow_lt_1_zero c) with (y := eps / (2 * (e N1 + 1))) as [N2 HN2].
  { rewrite Rabs_right; lra. }
  { specialize (He N1). apply Rdiv_lt_0_compat; lra. }
  exists (N1 + N2)%nat. intros n Hn.
  replace n with (N1 + (n - N1))%nat by lia.
  set (k := (n - N1)%nat).
  unfold R_dist. rewrite Rminus_0_r.
  rewrite Rabs_right by (apply Rle_ge, He).
  eapply Rle_lt_trans; [apply HA|].
  specialize (HN2 k ltac:(unfold k; lia)).
  assert (Hck : 0 <= c ^ k) by (apply pow_le; lra).
  rewrite Rabs_right in HN2 by lra.
  specialize (He N1).
  assert (c ^ k * e N1 <= eps / (2 * (e N1 + 1)) * e N1).
  { apply Rmult_le_compat_r; lra. }
  assert (eps / (2 * (e N1 + 1)) * e N1 < eps / 2).
  { unfold Rdiv. rewrite Rinv_mult.
    assert (Hinv : 0 < / (e N1 + 1)) by (apply Rinv_0_lt_compat; lra).
    assert (Hone : / (e N1 + 1) * e N1 < 1).
    { apply (Rmult_lt_reg_l (e N1 + 1)); [lra|].
      rewrite <- Rmult_assoc, Rinv_r by lra. lra. }
    replace (eps * (/ 2 * / (e N1 + 1)) * e N1)
      with (eps * / 2 * (/ (e N1 + 1) * e N1)) by ring.
    rewrite <- (Rmult_1_r (eps * / 2)) at 2.
    apply Rmult_lt_compat_l; lra. }
  lra.
Qed.

(** One blending step brings the value closer, up to the distance of the
    target from the limit. *)
Lemma blend_bound (x p L b c : R) :
  0 <= b <= 1 -> 1 - b <= c ->
  Rabs (x + (p - x) * b - L) <= c * Rabs (x - L) + Rabs (p - L).
Proof.
  intros Hb Hc.
  replace (x + (p - x) * b - L) with ((1 - b) * (x - L) + b * (p - L)) by ring.
  eapply Rle_trans; [apply Rabs_triang|].
  rewrite !Rabs_mult.
  rewrite (Rabs_right (1 - b)), (Rabs_right b) by lra.
  pose proof (Rabs_pos (x - L)). pose proof (Rabs_pos (p - L)).
  assert ((1 - b) * Rabs (x - L) <= c * Rabs (x - L))
    by (apply Rmult_le_compat_r; lra).
  assert (b * Rabs (p - L) <= 1 * Rabs (p - L))
    by (apply Rmult_le_compat_r; lra).
  lra.
Qed.

Lemma snap_bound (x p L c : R) :
  0 <= c -> Rabs (p - L) <= c * Rabs (x - L) + Rabs (p - L).
Proof.
  intros Hc. pose proof (Rabs_pos (x - L)).
  assert (0 <= c * Rabs (x - L)) by (apply Rmult_le_pos; lra). lra.
Qed.

(** From convergence of a sequence to convergence of its distance. *)
Lemma cv_dist (u : nat -> R) (L : R) :
  Un_cv u L -> Un_cv (fun n => Rabs (u n - L)) 0.
Proof.
  intros H eps Heps. destruct (H eps Heps) as [N HN]. exists N.
  intros n Hn. specialize (HN n Hn). unfold R_dist in *.
  rewrite Rminus_0_r, Rabs_Rabsolu. exact HN.
Qed.

Lemma dist_cv (u : nat -> R) (L : R) :
  Un_cv (fun n => Rabs (u n - L)) 0 -> Un_cv u L.
Proof.
  intros H eps Heps. destruct (H eps Heps) as [N HN]. exists N.
  intros n Hn. specialize (HN n Hn). unfold R_dist in *.
  rewrite Rminus_0_r, Rabs_Rabsolu in HN. exact HN.
Qed.

(* ---- bridge.cpp ---- *)

Lemma Q2R_lit (a : Z) (b : positive) : Q2R (a # b) = IZR a / IZR (Zpos b).
Proof. reflexivity. Qed.

Lemma blend_of_bounds (dist dSq : R) :
  0.12 <= Bridge.blend_of (ops := RealOps) dist dSq <= 0.22.
Proof.
  unfold Bridge.blend_of. cbn.
  repeat match goal with
  | |- context [Rltb ?a ?b] => destruct (Rltb a b)
  end; unfold Q2R; cbn; lra.
Qed.

Lemma smooth_update_bound_x (smooth : Bridge.TagSmoothingState (F := R))
  px py dist frame L :
  Rabs (Bridge.x (Bridge.smooth_update smooth px py dist frame) - L)
  <= 0.88 * Rabs (Bridge.x smooth - L) + Rabs (px - L).
Proof.
  unfold Bridge.smooth_update. cbv zeta.
  destruct (negb (Bridge.init smooth)); [apply snap_bound; lra|].
  destruct (fgt _ _); [apply snap_bound; lra|].
  cbn [Bridge.x].
  match goal with
  | |- context [Bridge.blend_of ?d ?q] =>
      pose proof (blend_of_bounds d q); generalize dependent (Bridge.blend_of d q)
  end.
  intros b Hb. cbn. apply blend_bound; lra.
Qed.

Lemma smooth_update_bound_y (smooth : Bridge.TagSmoothingState (F := R))
  px py dist frame L :
  Rabs (Bridge.y (Bridge.smooth_update smooth px py dist frame) - L)
  <= 0.88 * Rabs (Bridge.y smooth - L) + Rabs (py - L).
Proof.
  unfold Bridge.smooth_update. cbv zeta.
  destruct (negb (Bridge.init smooth)); [apply snap_bound; lra|].
  destruct (fgt _ _); [apply snap_bound; lra|].
  cbn [Bridge.y].
  match goal with
  | |- context [Bridge.blend_of ?d ?q] =>
      pose proof (blend_of_bounds d q); generalize dependent (Bridge.blend_of d q)
  end.
  intros b Hb. cbn. apply blend_bound; lra.
Qed.

Lemma Bridge_smoothing_converges (smooth0 : Bridge.TagSmoothingState (F := R))
  (target : nat -> R * R * R) (frame0 : Z) (Lx Ly : R) :
  Un_cv (fun n => fst (fst (target n))) Lx ->
  Un_cv (fun n => snd (fst (target n))) Ly ->
  Un_cv (fun n => Bridge.x (Bridge.smooth_seq smooth0 target frame0 n)) Lx /\
  Un_cv (fun n => Bridge.y (Bridge.smooth_seq smooth0 target frame0 n)) Ly.
Proof.
  intros Hx Hy. split; apply dist_cv.
  - apply contraction_vanishes
      with (c := 0.88) (d := fun n => Rabs (fst (fst (target n)) - Lx)).
    + lra.
    + intros n. apply Rabs_pos.
    + intros n. cbn [Bridge.smooth_seq].
      destruct (target n) as [[px py] dist]. apply smooth_update_bound_x.
    + now apply cv_dist.
  - apply contraction_vanishes
      with (c := 0.88) (d := fun n => Rabs (snd (fst (target n)) - Ly)).
    + lra.
    + intros n. apply Rabs_pos.
    + intros n. cbn [Bridge.smooth_seq].
      destruct (target n) as [[px py] dist]. apply smooth_update_bound_y.
    + now apply cv_dist.
Qed.

(* ---- bridge_121.cpp ---- *)

Lemma overlaySmoothAlpha_bounds (dt : R) :
  0.15 <= Bridge121.overlaySmoothAlpha (ops := RealOps) dt <= 0.65.
Proof.
  unfold Bridge121.overlaySmoothAlpha, fmax, fmin. cbn.
  unfold Rltb.
  repeat match goal with
  | |- context [Rlt_dec ?a ?b] => destruct (Rlt_dec a b)
  end; unfold Q2R in *; cbn in *; lra.
Qed.

Lemma Bridge121_smoothing_converges (sm0 : Bridge121.SmoothedPoint (F := R))
  (frames : nat -> R * R * R * Z) (Lx Ly : R) :
  Un_cv (fun n => fst (fst (fst (frames n)))) Lx ->
  Un_cv (fun n => snd (fst (fst (frames n)))) Ly ->
  Un_cv (fun n => Bridge121.sx (Bridge121.smooth_seq sm0 frames n)) Lx /\
  Un_cv (fun n => Bridge121.sy (Bridge121.smooth_seq sm0 frames n)) Ly.
Proof.
  intros Hx Hy. split; apply dist_cv.
  - apply contraction_vanishes
      with (c := 0.85) (d := fun n => Rabs (fst (fst (fst (frames n))) - Lx)).
    + lra.
    + intros n. apply Rabs_pos.
    + intros n. cbn [Bridge121.smooth_seq].
      destruct (frames n) as [[[x y] dt] now]. cbn.
      pose proof (overlaySmoothAlpha_bounds dt). apply blend_bound; lra.
    + now apply cv_dist.
  - apply contraction_vanishes
      with (c := 0.85) (d := fun n => Rabs (snd (fst (fst (frames n))) - Ly)).
    + lra.
    + intros n. apply Rabs_pos.
    + intros n. cbn [Bridge121.smooth_seq].
      destruct (frames n) as [[[x y] dt] now]. cbn.
      pose proof (overlaySmoothAlpha_bounds dt). apply blend_bound; lra.
    + now apply cv_dist.
Qed.

(** The 1.21 overlay has no threshold: whatever the jump, the entry covers
    between 15 and 65 percent of it and so does not reach the target. *)
Lemma blend_point_never_snaps (sm : Bridge121.SmoothedPoint (F := R))
  (x y dt : R) (now : Z) :
  let sm' := Bridge121.blend_point sm x y (Bridge121.overlaySmoothAlpha dt) now in
  0.35 * Rabs (x - Bridge121.sx sm) <= Rabs (x - Bridge121.sx sm')
    <= 0.85 * Rabs (x - Bridge121.sx sm).
Proof.
  cbv zeta. cbn.
  pose proof (overlaySmoothAlpha_bounds dt) as Ha.
  generalize dependent (Bridge121.overlaySmoothAlpha (ops := RealOps) dt).
  intros a Ha.
  replace (x - (Bridge121.sx sm + (x - Bridge121.sx sm) * a))
    with ((1 - a) * (x - Bridge121.sx sm)) by ring.
  rewrite Rabs_mult, (Rabs_right (1 - a)) by lra.
  pose proof (Rabs_pos (x - Bridge121.sx sm)).
  split; apply Rmult_le_compat_r; lra.
Qed.

Import Scenario.

(** C8, as the code has it: in both bridges the smoothed position of a
    tracked entity converges to the point its projected positions converge
    to (in exact real arithmetic).  In bridge.cpp an entry seen for the
    first time, or one whose squared distance to the new position exceeds
    24000, takes the new position at once.  In bridge_121.cpp there is no
    threshold: every update blends with a factor between 0.15 and 0.65, so
    the entry covers between 15 and 65 percent of any jump. *)
Theorem C8_smoothing_converges_and_snaps_only_in_bridge_cpp :
  (forall (F : Type) (ops : FloatOps F) (smooth : Bridge.TagSmoothingState)
          (px py dist : F) (frame : Z),
     (Bridge.init smooth = false \/
      fgt (Bridge.deltaSq smooth px py) (lit32 24000) = true) ->
     Bridge.x (Bridge.smooth_update smooth px py dist frame) = px /\
     Bridge.y (Bridge.smooth_update smooth px py dist frame) = py) /\
  (forall (smooth0 : Bridge.TagSmoothingState (F := R))
          (target : nat -> R * R * R) (frame0 : Z) (Lx Ly : R),
     Un_cv (fun n => fst (fst (target n))) Lx ->
     Un_cv (fun n => snd (fst (target n))) Ly ->
     Un_cv (fun n => Bridge.x (Bridge.smooth_seq smooth0 target frame0 n)) Lx /\
     Un_cv (fun n => Bridge.y (Bridge.smooth_seq smooth0 target frame0 n)) Ly) /\
  (forall (sm0 : Bridge121.SmoothedPoint (F := R))
          (frames : nat -> R * R * R * Z) (Lx Ly : R),
     Un_cv (fun n => fst (fst (fst (frames n)))) Lx ->
     Un_cv (fun n => snd (fst (fst (frames n)))) Ly ->
     Un_cv (fun n => Bridge121.sx (Bridge121.smooth_seq sm0 frames n)) Lx /\
     Un_cv (fun n => Bridge121.sy (Bridge121.smooth_seq sm0 frames n)) Ly) /\
  (forall (sm : Bridge121.SmoothedPoint (F := R)) (x y dt : R) (now : Z),
     let sm' :=
       Bridge121.blend_point sm x y (Bridge121.overlaySmoothAlpha dt) now in
     0.35 * Rabs (x - Bridge121.sx sm) <= Rabs (x - Bridge121.sx sm')
       <= 0.85 * Rabs (x - Bridge121.sx sm)).
Proof.
  split; [|split; [|split]].
  - intros F ops smooth px py dist frame [H|H].
    + now apply smooth_update_first.
    + now apply smooth_update_jump.
  - apply Bridge_smoothing_converges.
  - apply Bridge121_smoothing_converges.
  - apply blend_point_never_snaps.
Qed.

Lemma jump_exceeds_threshold :
  fgt (Bridge.deltaSq tag_at_origin 1000 0) (lit32 24000) = true.
Proof.
  unfold fgt, Bridge.deltaSq. cbn. apply Rltb_true.
  unfold Q2R. cbn. lra.
Qed.

(** C8, witness: an entry at the origin and a projected position
    1000 pixels away; bridge.cpp takes the jump in one frame. *)
Lemma C8_snap_witness :
  fgt (Bridge.deltaSq tag_at_origin 1000 0) (lit32 24000) = true /\
  Bridge.x (Bridge.smooth_update tag_at_origin 1000 0 30 1) = 1000.
Proof.
  split; [exact jump_exceeds_threshold|].
  apply (proj1 C8_smoothing_converges_and_snaps_only_in_bridge_cpp
           R RealOps tag_at_origin 1000 0 30 1%Z).
  right. exact jump_exceeds_threshold.
Defined.

(** C8, counterexample, in bridge_121.cpp: for the same jump of 1000
    pixels (squared distance far above 24000), at 60 frames per second,
    the entry moves to 1000 * 14 / 60 and not to the new position. *)
Lemma C8_bridge121_blends_large_jump :
  let sm' :=
    Bridge121.blend_point point_at_origin 1000 0
      (Bridge121.overlaySmoothAlpha (1 / 60)) 16 in
  24000 < (1000 - Bridge121.sx point_at_origin) ^ 2
          + (0 - Bridge121.sy point_at_origin) ^ 2 /\
  Bridge121.sx sm' = 1000 * 14 / 60 /\
  Bridge121.sx sm' <> 1000.
Proof.
  cbv zeta.
  assert (Ha : Bridge121.overlaySmoothAlpha (ops := RealOps) (1 / 60) = 14 / 60).
  { unfold Bridge121.overlaySmoothAlpha.
    assert (Hmin : fmin (lit32 0.65) (f32_mul (1 / 60) (lit32 14)) = 14 / 60).
    { unfold fmin. cbn. rewrite Rltb_true by (unfold Q2R; cbn; lra).
      unfold Q2R. cbn. lra. }
    rewrite Hmin. unfold fmax. cbn.
    now rewrite Rltb_true by (unfold Q2R; cbn; lra). }
  unfold Bridge121.blend_point. rewrite Ha. cbn. repeat split; lra.
Qed.

End SmoothingFacts.

(* ===================================================================== *)
(** * Root selection *)
(* ===================================================================== *)

Module RootFacts.

Import Jni.
Import Bridge121.
Local Open Scope list_scope.

(** bridge.cpp: the scan returns the first candidate. *)
Lemma Bridge_scan_first (h : Host) (classes : list Handle) :
  Bridge.scan_singleton h classes = hd_error (Bridge.candidates h classes).
Proof.
  induction classes as [|cls rest IH]; [reflexivity|].
  unfold Bridge.candidates in *. cbn [Bridge.scan_singleton flat_map].
  destruct (Bridge.singleton_candidate h cls) as [[name n]|]; [reflexivity|].
  exact IH.
Qed.

Lemma Bridge121_scan_fold (h : Host) (classes : list Handle) best :
  fold_left (Bridge121.scan_step h) classes best
  = fold_left pick (Bridge121.candidates h classes) best.
Proof.
  revert best. induction classes as [|cls rest IH]; intros best; [reflexivity|].
  unfold Bridge121.candidates in *. cbn [fold_left flat_map].
  rewrite fold_left_app, IH. f_equal.
  unfold Bridge121.scan_step.
  destruct (Bridge121.singleton_candidate h cls) as [[name n]|]; reflexivity.
Qed.

Lemma chosen_step seen best y :
  chosen seen best -> chosen (seen ++ [y]) (pick best y).
Proof.
  unfold pick, chosen. destruct best as [[[bc bn] bf]|]; cbn.
  - intros (pre & post & -> & H).
    unfold cand_name, cand_count in *. cbn in *.
    destruct y as [[yc yn] yk]; cbn.
    destruct (Bridge121.in_net_minecraft bn) eqn:Hb; cbn.
    + rewrite !andb_false_r. cbn.
      exists pre, (post ++ [(yc, yn, yk)]). rewrite <- app_assoc. cbn.
      rewrite Hb. split; [reflexivity|exact H].
    + rewrite !andb_true_r. destruct H as (Hnm & Hlt & Hle).
      destruct (Bridge121.in_net_minecraft yn) eqn:Hy; cbn.
      * exists (pre ++ (bc, bn, bf) :: post), []. cbn. rewrite Hy.
        split; [reflexivity|].
        apply Forall_app in Hnm. destruct Hnm as [Hpre Hpost].
        apply Forall_app. split; [exact Hpre|]. constructor; [exact Hb|exact Hpost].
      * destruct (bf <? yk) eqn:Hk.
        -- apply Z.ltb_lt in Hk.
           exists (pre ++ (bc, bn, bf) :: post), []. cbn. rewrite Hy.
           split; [reflexivity|].
           apply Forall_app in Hnm. destruct Hnm as [Hpre Hpost].
           rewrite app_nil_r. repeat split.
           ++ apply Forall_app. split; [exact Hpre|]. constructor; [exact Hb|exact Hpost].
           ++ apply Forall_app. split.
              ** eapply Forall_impl; [|exact Hlt]. cbn. intros; lia.
              ** constructor; [cbn; lia|].
                 eapply Forall_impl; [|exact Hle]. cbn. intros; lia.
           ++ constructor.
        -- apply Z.ltb_ge in Hk.
           exists pre, (post ++ [(yc, yn, yk)]). rewrite <- app_assoc. cbn.
           rewrite Hb. split; [reflexivity|].
           apply Forall_app in Hnm. destruct Hnm as [Hpre Hpost].
           repeat split.
           ++ apply Forall_app. split; [exact Hpre|].
              apply Forall_app. split; [exact Hpost|]. constructor; [exact Hy|constructor].
           ++ exact Hlt.
           ++ apply Forall_app. split; [exact Hle|]. constructor; [cbn; lia|constructor].
  - intros ->. exists [], []. cbn. split; [reflexivity|].
    destruct (Bridge121.in_net_minecraft (cand_name y)); repeat constructor.
Qed.

Lemma chosen_fold l : forall seen best,
  chosen seen best -> chosen (seen ++ l) (fold_left pick l best).
Proof.
  induction l as [|y l IH]; intros seen best H; cbn.
  - now rewrite app_nil_r.
  - replace (seen ++ y :: l) with ((seen ++ [y]) ++ l)
      by (rewrite <- app_assoc; reflexivity).
    apply IH. now apply chosen_step.
Qed.

Lemma Bridge121_scan_chosen (h : Host) (classes : list Handle) :
  chosen (Bridge121.candidates h classes) (Bridge121.scan_singleton h classes).
Proof.
  unfold Bridge121.scan_singleton. rewrite Bridge121_scan_fold.
  apply (chosen_fold (Bridge121.candidates h classes) [] None). reflexivity.
Qed.

(** C6 (as the code has it).  The fallback scan of bridge.cpp returns the
    first class of the loaded-class list that declares a static field of
    its own type and more than 15 instance fields, whatever its name and
    however many fields later candidates have.  The scan of bridge_121.cpp
    returns nothing exactly when no class passes that test; otherwise it
    returns the first candidate whose name starts with [net.minecraft] when
    there is one, and, when there is none, the first candidate of largest
    instance-field count.  On the host [Scenario.two_roots], where a
    candidate with 16 fields precedes the only one with 20, bridge_121.cpp
    selects the one with 20. *)
Theorem C6_root_selection_by_bridge (h : Host) (classes : list Handle) :
  Bridge.scan_singleton h classes = hd_error (Bridge.candidates h classes)
  /\ (Bridge121.scan_singleton h classes = None
      <-> Bridge121.candidates h classes = [])
  /\ (forall x, Bridge121.scan_singleton h classes = Some x ->
      exists pre post,
        Bridge121.candidates h classes = pre ++ x :: post
        /\ (in_net_minecraft (cand_name x) = true ->
            Forall (fun y => in_net_minecraft (cand_name y) = false) pre)
        /\ (in_net_minecraft (cand_name x) = false ->
            Forall (fun y => in_net_minecraft (cand_name y) = false)
              (pre ++ post)
            /\ Forall (fun y => cand_count y < cand_count x) pre
            /\ Forall (fun y => cand_count y <= cand_count x) post))
  /\ Bridge121.scan_singleton (Scenario.two_roots 1)
       (GetLoadedClasses (Scenario.two_roots 1))
     = Some (Cls "b.Big", "b.Big"%string, 20).
Proof.
  split; [apply Bridge_scan_first|].
  pose proof (Bridge121_scan_chosen h classes) as Hc.
  split; [|split].
  - split.
    + intros Hn. rewrite Hn in Hc. exact Hc.
    + intros He. unfold Bridge121.scan_singleton.
      rewrite Bridge121_scan_fold, He. reflexivity.
  - intros x Hx. rewrite Hx in Hc. cbn in Hc.
    destruct Hc as (pre & post & Heq & H).
    exists pre, post. split; [exact Heq|].
    destruct (in_net_minecraft (cand_name x)).
    + split; [intros _; exact H|discriminate].
    + split; [discriminate|intros _; exact H].
  - vm_compute. reflexivity.
Qed.

(** C6, counterexample.  In bridge.cpp the host [Scenario.two_roots] has
    two candidates, [a.Small] with 16 instance fields and then [b.Big], the
    only class with 20; the scan selects [a.Small], and the pass stores it
    as the root class. *)
Lemma C6_bridge_cpp_selects_first_not_largest :
  Bridge.candidates (Scenario.two_roots 1)
    (GetLoadedClasses (Scenario.two_roots 1))
  = [ (Cls "a.Small", "a.Small"%string, 16);
      (Cls "b.Big", "b.Big"%string, 20) ]
  /\ Bridge.scan_singleton (Scenario.two_roots 1)
       (GetLoadedClasses (Scenario.two_roots 1))
     = Some (Cls "a.Small", "a.Small"%string, 16)
  /\ fst (Bridge.DiscoverMappings (Scenario.two_roots 1) Bridge.Cache_initial)
       Bridge.g_mcClass
     = Some (Cls "a.Small").
Proof.
  repeat split; vm_compute; reflexivity.
Qed.

(** C6, witness: on [Scenario.two_roots] the scan of bridge_121.cpp returns
    [b.Big], which no candidate listed before it equals or exceeds in
    count. *)
Lemma C6_largest_candidate_witness :
  Bridge121.scan_singleton (Scenario.two_roots 1)
    (GetLoadedClasses (Scenario.two_roots 1))
  = Some (Cls "b.Big", "b.Big"%string, 20)
  /\ exists pre post,
       Bridge121.candidates (Scenario.two_roots 1)
         (GetLoadedClasses (Scenario.two_roots 1))
       = pre ++ (Cls "b.Big", "b.Big"%string, 20) :: post
       /\ Forall (fun y => cand_count y < 20) pre.
Proof.
  split; [vm_compute; reflexivity|].
  destruct (proj1 (proj2 (proj2
              (C6_root_selection_by_bridge (Scenario.two_roots 1)
                 (GetLoadedClasses (Scenario.two_roots 1)))))
              (Cls "b.Big", "b.Big"%string, 20) eq_refl)
    as (pre & post & Heq & _ & Hno).
  exists pre, post. split; [exact Heq|].
  exact (proj1 (proj2 (Hno eq_refl))).
Defined.

End RootFacts.

(* ===================================================================== *)
(** * The accessor cache of bridge.cpp across passes *)
(* ===================================================================== *)

Module CacheFacts.

Import Jni.
Import Bridge.

Lemma set_role_same r v (c : Cache) : set_role r v c r = v.
Proof. unfold set_role. destruct (Role_eq_dec r r); congruence. Qed.

Lemma set_role_other r r' v (c : Cache) : r <> r' -> set_role r' v c r = c r.
Proof. intros H. unfold set_role. destruct (Role_eq_dec r r'); congruence. Qed.


(** A write under the test [!g_role] keeps every resolved role. *)
Lemma kept_set_unresolved r r' v w (c : Cache) :
  c r = Some w -> unresolved c r' = true -> set_role r' v c r = Some w.
Proof.
  intros Hr Hu. destruct (Role_eq_dec r r') as [->|Hn].
  - unfold unresolved, resolved in Hu. rewrite Hr in Hu. discriminate.
  - now rewrite set_role_other.
Qed.

Lemma kept_set_if_unresolved r r' v w (c : Cache) :
  c r = Some w -> set_if_unresolved r' v c r = Some w.
Proof.
  intros Hr. unfold set_if_unresolved.
  destruct (unresolved c r') eqn:Hu; [now apply kept_set_unresolved|exact Hr].
Qed.



























End CacheFacts.

(* ===================================================================== *)
(** * The retry of discovery *)
(* ===================================================================== *)

Module RetryFacts.

Import Jni.
Import Bridge121.

Lemma role_set_role_other r r' v c :
  r <> r' -> role (set_role r' v c) r = role c r.
Proof.
  intros H. unfold set_role. cbn [role].
  destruct (Role_eq_dec r r'); congruence.
Qed.

Lemma role_set_if_unresolved_other r r' v c :
  r <> r' -> role (set_if_unresolved r' v c) r = role c r.
Proof.
  intros H. unfold set_if_unresolved.
  destruct (unresolved c r'); [now apply role_set_role_other|reflexivity].
Qed.

Lemma role_set_if_unresolved_kept r r' v w c :
  role c r = Some w -> role (set_if_unresolved r' v c) r = Some w.
Proof.
  intros Hr. unfold set_if_unresolved.
  destruct (unresolved c r') eqn:Hu; [|exact Hr].
  destruct (Role_eq_dec r r') as [->|Hn].
  - unfold unresolved, resolved in Hu. rewrite Hr in Hu. discriminate.
  - now rewrite role_set_role_other.
Qed.

(** Rewriting a write to another role away. *)
Ltac frame_roles :=
  repeat first
    [ rewrite role_set_role_other by discriminate
    | rewrite role_set_if_unresolved_other by discriminate
    | progress cbn [role set_chatCtorKind set_screenType set_ready fst snd]
    | reflexivity
    | match goal with
      | |- context [match ?x with _ => _ end] => destruct x
      end ].

Lemma screen_step_loader h mcClass st fld :
  role (fst (screen_step h mcClass st fld)) g_gameClassLoader
  = role (fst st) g_gameClassLoader.
Proof.
  destruct st as [c screenType]. unfold screen_step. frame_roles.
Qed.

Lemma screen_fold_loader h mcClass fields : forall st,
  role (fst (fold_left (screen_step h mcClass) fields st)) g_gameClassLoader
  = role (fst st) g_gameClassLoader.
Proof.
  induction fields as [|f fields IH]; intros st; [reflexivity|].
  cbn [fold_left]. rewrite IH. apply screen_step_loader.
Qed.

Lemma find_setScreen_loader h mcClass screenType c :
  role (find_setScreen h mcClass screenType c) g_gameClassLoader
  = role c g_gameClassLoader.
Proof. unfold find_setScreen. frame_roles. Qed.

Lemma find_chatScreen_loader h gcl screenType c :
  role (find_chatScreen h gcl screenType c) g_gameClassLoader
  = role c g_gameClassLoader.
Proof. unfold find_chatScreen. frame_roles. Qed.

Lemma store_render_roles_loader h gcl mcClass c :
  role (store_render_roles h gcl mcClass c) g_gameClassLoader
  = role c g_gameClassLoader.
Proof.
  unfold store_render_roles, matrix_fields. cbn [fold_left fst snd].
  frame_roles.
Qed.

(** Steps 3 to 6 never write the class loader. *)
Lemma resolve_roles_loader h gcl mcClass mcInst c :
  role (resolve_roles h gcl mcClass mcInst c) g_gameClassLoader
  = role c g_gameClassLoader.
Proof.
  unfold resolve_roles.
  pose proof (screen_fold_loader h mcClass (mcFields_of h mcClass)
                (c, EmptyString)) as Hs.
  destruct (fold_left (screen_step h mcClass) (mcFields_of h mcClass)
              (c, EmptyString)) as [c1 screenType].
  cbn [fst] in Hs. rewrite store_render_roles_loader.
  cbn [role set_ready]. rewrite role_set_role_other by discriminate.
  destruct screenType as [|a s]; [exact Hs|].
  now rewrite find_chatScreen_loader, find_setScreen_loader.
Qed.

(** A pass that returns false wrote at most the class loader, and only
    while it was null. *)
Lemma failed_pass_writes h c :
  snd (DiscoverJniMappings h c) = false ->
  fst (DiscoverJniMappings h c) = c
  \/ exists gcl, fst (DiscoverJniMappings h c)
                 = set_if_unresolved g_gameClassLoader (Some gcl) c.
Proof.
  unfold DiscoverJniMappings.
  destruct (negb (GetEnv_JVMTI h)); [now left|].
  destruct (GetGameClassLoader h) as [gcl|]; [|now left].
  destruct (find_mcClass h gcl) as [[mcClass mcName]|];
    [|intros _; right; now exists gcl].
  destruct (find_singletonField h mcClass mcName) as [sf|];
    [|intros _; right; now exists gcl].
  destruct (GetStaticObjectField h mcClass sf) as [mcInst|];
    [|intros _; right; now exists gcl].
  cbn [snd]. discriminate.
Qed.

(** No pass changes a class loader that is stored. *)
Lemma pass_keeps_loader h c w :
  role c g_gameClassLoader = Some w ->
  role (fst (DiscoverJniMappings h c)) g_gameClassLoader = Some w.
Proof.
  intros Hr. unfold DiscoverJniMappings.
  destruct (negb (GetEnv_JVMTI h)); [exact Hr|].
  destruct (GetGameClassLoader h) as [gcl|]; [|exact Hr].
  pose proof (@role_set_if_unresolved_kept g_gameClassLoader g_gameClassLoader
                (Some gcl) w c Hr) as Hk.
  destruct (find_mcClass h gcl) as [[mcClass mcName]|]; [|exact Hk].
  destruct (find_singletonField h mcClass mcName) as [sf|]; [|exact Hk].
  destruct (GetStaticObjectField h mcClass sf) as [mcInst|]; [|exact Hk].
  cbn [fst]. now rewrite resolve_roles_loader.
Qed.

Lemma keeps_resolved_refl c : keeps_resolved c c.
Proof. intros r v H. exact H. Qed.

Lemma keeps_resolved_trans a b c :
  keeps_resolved a b -> keeps_resolved b c -> keeps_resolved a c.
Proof. intros H1 H2 r v H. apply H2, H1, H. Qed.

Lemma only_loader_initial : only_loader Cache_initial.
Proof. intros r _. reflexivity. Qed.

Lemma pass_keeps_resolved h c :
  only_loader c -> keeps_resolved c (fst (DiscoverJniMappings h c)).
Proof.
  intros Ho r v Hr.
  destruct (Role_eq_dec r g_gameClassLoader) as [->|Hn].
  - now apply pass_keeps_loader.
  - rewrite (Ho r Hn) in Hr. discriminate.
Qed.

Lemma failed_pass_only_loader h c :
  only_loader c -> snd (DiscoverJniMappings h c) = false ->
  only_loader (fst (DiscoverJniMappings h c)).
Proof.
  intros Ho Hf. destruct (@failed_pass_writes h c Hf) as [->|[gcl ->]];
    [exact Ho|].
  intros r Hn. rewrite role_set_if_unresolved_other by exact Hn.
  now apply Ho.
Qed.

(** The shape of the trace of the loop started at attempt [k] with [left]
    iterations allowed. *)
Lemma retry_loop_trace hosts left : forall k c,
  only_loader c ->
  (List.length (attempts (snd (retry_loop hosts k left c))) <= left)%nat
  /\ map (fun p => fst (fst p)) (attempts (snd (retry_loop hosts k left c)))
     = seq k (List.length (attempts (snd (retry_loop hosts k left c))))
  /\ paced (snd (retry_loop hosts k left c)) = true
  /\ Forall (keeps_resolved c)
       (map snd (attempts (snd (retry_loop hosts k left c))))
  /\ ForallOrdPairs keeps_resolved
       (map snd (attempts (snd (retry_loop hosts k left c)))).
Proof.
  induction left as [|left IH]; intros k c Ho.
  - cbn. repeat split; try constructor.
  - cbn [retry_loop].
    pose proof (@pass_keeps_resolved (hosts k) c Ho) as Hk.
    pose proof (@failed_pass_only_loader (hosts k) c Ho) as Hf.
    destruct (DiscoverJniMappings (hosts k) c) as [c' [|]].
    + cbn in *. repeat split; try lia; repeat constructor. exact Hk.
    + cbn [fst snd] in Hk, Hf. specialize (Hf eq_refl).
      specialize (IH (S k) c' Hf).
      destruct (retry_loop hosts (S k) left c') as [c'' evs].
      cbn [snd] in *. destruct IH as (Hlen & Hseq & Hp & Hall & Hord).
      cbn [attempts map List.length seq fst snd paced].
      repeat split.
      * lia.
      * now rewrite Hseq.
      * rewrite Z.eqb_refl. exact Hp.
      * constructor; [exact Hk|].
        eapply Forall_impl; [|exact Hall].
        intros a Ha. now apply keeps_resolved_trans with c'.
      * constructor; assumption.
Qed.

Lemma retry_loop_nonempty hosts left k c :
  (1 <= List.length (attempts (snd (retry_loop hosts k (S left) c))))%nat.
Proof.
  cbn [retry_loop].
  destruct (DiscoverJniMappings (hosts k) c) as [c' [|]].
  - cbn. lia.
  - destruct (retry_loop hosts (S k) left c') as [c'' evs]. cbn. lia.
Qed.

(** C7.  [MainThread] of bridge_121.cpp runs at most five discovery passes
    (at least one when the thread has a JNI environment), numbered from 0
    without a gap; every pass that fails is directly followed by
    [Sleep(3000)] and a pass that succeeds ends the loop, so there is no
    sixth attempt; and of any two passes the later one leaves every role
    the earlier one had resolved on the same handle.  [ServerLoop] of
    bridge.cpp runs the pass once and never again. *)
Theorem C7_discovery_is_retried_at_most_five_times
  (denv : bool) (hosts : nat -> Host) (h : Host) :
  (List.length (attempts (snd (MainThread_discovery denv hosts))) <= 5)%nat
  /\ (denv = true ->
      (1 <= List.length (attempts (snd (MainThread_discovery denv hosts))))%nat)
  /\ map (fun p => fst (fst p))
       (attempts (snd (MainThread_discovery denv hosts)))
     = seq 0 (List.length (attempts (snd (MainThread_discovery denv hosts))))
  /\ paced (snd (MainThread_discovery denv hosts)) = true
  /\ ForallOrdPairs keeps_resolved
       (map snd (attempts (snd (MainThread_discovery denv hosts))))
  /\ List.length (snd (Bridge.ServerLoop_discovery h)) = 1%nat.
Proof.
  pose proof (@retry_loop_trace hosts 5 0%nat Cache_initial only_loader_initial)
    as (Hlen & Hseq & Hp & _ & Hord).
  pose proof (retry_loop_nonempty hosts 4 0 Cache_initial) as Hpos.
  unfold MainThread_discovery.
  assert (Hb : List.length (snd (Bridge.ServerLoop_discovery h)) = 1%nat).
  { unfold Bridge.ServerLoop_discovery.
    destruct (Bridge.DiscoverMappings h Bridge.Cache_initial). reflexivity. }
  destruct denv.
  - destruct (retry_loop hosts 0 5 Cache_initial) as [c evs].
    cbn [snd attempts paced] in *.
    repeat split; try assumption. intros _. exact Hpos.
  - cbn. repeat split; try lia; try constructor; try discriminate;
      try exact Hb.
Qed.

(** C7, witness: on the host [Scenario.booting] the attempts 0 and 1 fail
    and attempt 2 succeeds; the class loader stored by attempt 0 is kept
    by the later ones. *)
Lemma C7_third_attempt_succeeds_witness :
  map (fun p => fst p)
    (attempts (snd (MainThread_discovery true Scenario.booting)))
  = [(0%nat, false); (1%nat, false); (2%nat, true)]
  /\ ForallOrdPairs keeps_resolved
       (map snd (attempts (snd (MainThread_discovery true Scenario.booting)))).
Proof.
  split; [vm_compute; reflexivity|].
  exact (proj1 (proj2 (proj2 (proj2 (proj2
           (C7_discovery_is_retried_at_most_five_times true Scenario.booting
              Scenario.not_loaded)))))).
Defined.

End RetryFacts.

(* ===================================================================== *)
(** * Publishing a snapshot under the lock *)
(* ===================================================================== *)

Module SnapshotFacts.

Import Bridge121Snapshot.
Local Open Scope list_scope.

Lemma single_pass_nil : single_pass [].
Proof. intros e1 e2 []. Qed.

Lemma single_pass_of_pass n l :
  Forall (fun e => pass_of e = n) l -> single_pass l.
Proof.
  intros H e1 e2 H1 H2. rewrite Forall_forall in H.
  rewrite (H e1 H1), (H e2 H2). reflexivity.
Qed.

Lemma firstn_snoc (A : Type) (l : list A) n e :
  nth_error l n = Some e -> firstn (S n) l = firstn n l ++ [e].
Proof.
  revert n. induction l as [|a l IH]; intros [|n] H; cbn in *;
    try discriminate.
  - now inversion H.
  - f_equal. now apply IH.
Qed.

Lemma reader_set_same r v s : reader_state (set_reader r v s) r = v.
Proof. destruct r; reflexivity. Qed.

Lemma reader_set_other r r' v s :
  r' <> r -> reader_state (set_reader r v s) r' = reader_state s r'.
Proof. destruct r, r'; intros H; try reflexivity; congruence. Qed.

Lemma Reader_eq_dec (a b : Reader) : {a = b} + {a <> b}.
Proof. decide equality. Qed.

(** While a reader copies, the polling thread does not hold the mutex. *)
Lemma copying_excludes_poller s r copy :
  consistent s -> reader_state s r = RCopying copy ->
  poller_holds (poller s) = false.
Proof.
  intros (_ & _ & Hm & Hr) Hc. specialize (Hr r). rewrite Hc in Hr.
  destruct Hr as [Hmu _].
  destruct (poller_holds (poller s)) eqn:Hp; [|reflexivity].
  rewrite (Hm eq_refl) in Hmu. discriminate.
Qed.

Lemma free_excludes_copying s r copy :
  consistent s -> is_free s = true -> reader_state s r <> RCopying copy.
Proof.
  intros (_ & _ & _ & Hr) Hf Hc. specialize (Hr r). rewrite Hc in Hr.
  destruct Hr as [Hmu _]. unfold is_free in Hf. rewrite Hmu in Hf.
  discriminate.
Qed.

Lemma init_consistent : consistent init.
Proof.
  repeat split; cbn; try constructor; try discriminate.
  - intros _. apply single_pass_nil.
  - intros []; exact I.
Qed.

(** The readers' part of [consistent] after a step of the polling thread
    that keeps the list and the mutex, or is taken with the mutex free, or
    with the mutex held by the polling thread. *)
Lemma readers_kept s g m n p :
  consistent s ->
  (g = g_list s /\ m = mutex s) \/ is_free s = true
  \/ poller_holds (poller s) = true ->
  forall r,
    match reader_state (set_poller g m n p s) r with
    | RIdle => True
    | RCopying copy =>
        mutex (set_poller g m n p s) = Some (ReaderThread r)
        /\ copy = firstn (List.length copy) (g_list (set_poller g m n p s))
    | RDone copy => single_pass copy
    end.
Proof.
  intros Hc Hcase r.
  assert (Hrs : reader_state (set_poller g m n p s) r = reader_state s r)
    by (destruct r; reflexivity).
  rewrite Hrs. pose proof Hc as (_ & _ & _ & Hr). specialize (Hr r).
  destruct (reader_state s r) as [|copy|copy] eqn:Hst; [exact I| |exact Hr].
  destruct Hcase as [[-> ->]|[Hf|Hp]].
  - exact Hr.
  - exfalso. exact (free_excludes_copying r Hc Hf Hst).
  - exfalso. rewrite (copying_excludes_poller r Hc Hst) in Hp. discriminate.
Qed.

(** Every step keeps [consistent]. *)
Lemma exec_consistent a s s' :
  consistent s -> exec a s = Some s' -> consistent s'.
Proof.
  intros Hc He. pose proof Hc as (Hl & Hg & Hm & Hr).
  destruct a; cbn [exec] in He.
  - (* poll_begin *)
    destruct (poller s) eqn:Hp; try discriminate. inversion He; subst s'.
    split; [constructor|]. split; [intros _; now apply Hg|].
    split; [discriminate|]. apply readers_kept; auto.
  - (* poll_push *)
    destruct (poller s) eqn:Hp; try discriminate. inversion He; subst s'.
    split.
    { cbn. cbn in Hl. apply Forall_app. split; [exact Hl|].
      constructor; [reflexivity|constructor]. }
    split; [intros _; now apply Hg|].
    split; [discriminate|]. apply readers_kept; auto.
  - (* poll_lock *)
    destruct (poller s) eqn:Hp; try discriminate.
    destruct (is_free s) eqn:Hf; try discriminate. inversion He; subst s'.
    split; [exact Hl|]. split; [intros _; now apply Hg|].
    split; [reflexivity|]. apply readers_kept; auto.
  - (* swap_begin *)
    destruct (poller s) eqn:Hp; try discriminate. inversion He; subst s'.
    split; [exact Hl|]. split; [discriminate|].
    split; [intros _; now apply Hm|].
    apply readers_kept; auto. right; right. now rewrite Hp.
  - (* swap_end *)
    destruct (poller s) eqn:Hp; try discriminate. inversion He; subst s'.
    split; [constructor|].
    split; [intros _; cbn; now apply single_pass_of_pass with (pass s)|].
    split; [intros _; now apply Hm|].
    apply readers_kept; auto. right; right. now rewrite Hp.
  - (* poll_unlock *)
    destruct (poller s) eqn:Hp; try discriminate. inversion He; subst s'.
    split; [constructor|]. split; [intros _; now apply Hg|].
    split; [discriminate|].
    apply readers_kept; auto. right; right. now rewrite Hp.
  - (* clear_lock *)
    destruct (poller s) eqn:Hp; try discriminate.
    destruct (is_free s) eqn:Hf; try discriminate. inversion He; subst s'.
    split; [constructor|]. split; [intros _; now apply Hg|].
    split; [reflexivity|]. apply readers_kept; auto.
  - (* clear *)
    destruct (poller s) eqn:Hp; try discriminate. inversion He; subst s'.
    split; [constructor|]. split; [intros _; apply single_pass_nil|].
    split; [intros _; now apply Hm|].
    apply readers_kept; auto. right; right. now rewrite Hp.
  - (* clear_unlock *)
    destruct (poller s) eqn:Hp; try discriminate. inversion He; subst s'.
    split; [constructor|]. split; [intros _; now apply Hg|].
    split; [discriminate|].
    apply readers_kept; auto. right; right. now rewrite Hp.
  - (* read_lock *)
    destruct (reader_state s r) eqn:Hst; try discriminate.
    destruct (is_free s) eqn:Hf; try discriminate. inversion He; subst s'.
    assert (Hnp : poller_holds (poller s) = false).
    { destruct (poller_holds (poller s)) eqn:Hp; [|reflexivity].
      unfold is_free in Hf. rewrite (Hm eq_refl) in Hf. discriminate. }
    split; [destruct r; exact Hl|].
    split; [destruct r; exact Hg|].
    split.
    { intros Hp. exfalso. destruct r; cbn in Hp; rewrite Hnp in Hp;
        discriminate. }
    intros r'. destruct (Reader_eq_dec r' r) as [->|Hn].
    + rewrite reader_set_same. split; [destruct r; reflexivity|reflexivity].
    + rewrite reader_set_other by exact Hn.
      assert (Hsame : reader_state (set_mutex (Some (ReaderThread r)) s) r'
                      = reader_state s r') by (destruct r'; reflexivity).
      rewrite Hsame. specialize (Hr r').
      destruct (reader_state s r') as [|copy|copy] eqn:Hst'; auto.
      exfalso. exact (free_excludes_copying r' Hc Hf Hst').
  - (* read_copy *)
    destruct (reader_state s r) as [|copy|] eqn:Hst; try discriminate.
    destruct (nth_error (g_list s) (List.length copy)) as [e|] eqn:Hn;
      try discriminate.
    inversion He; subst s'.
    split; [destruct r; exact Hl|]. split; [destruct r; exact Hg|].
    split; [destruct r; exact Hm|].
    intros r'. destruct (Reader_eq_dec r' r) as [->|Hne].
    + rewrite reader_set_same. pose proof (Hr r) as Hrr. rewrite Hst in Hrr.
      destruct Hrr as [Hmu Hpre].
      split; [destruct r; exact Hmu|].
      assert (Hgl : g_list (set_reader r (RCopying (copy ++ [e])) s) = g_list s)
        by (destruct r; reflexivity).
      rewrite Hgl, length_app. cbn [List.length].
      rewrite Nat.add_1_r, (firstn_snoc _ _ Hn), <- Hpre. reflexivity.
    + rewrite reader_set_other by exact Hne. specialize (Hr r').
      destruct (reader_state s r') as [|copy'|copy'] eqn:Hst'; auto.
      destruct r; exact Hr.
  - (* read_unlock *)
    destruct (reader_state s r) as [|copy|] eqn:Hst; try discriminate.
    destruct (Nat.eqb (List.length copy) (List.length (g_list s))) eqn:Hlen;
      try discriminate.
    inversion He; subst s'. apply Nat.eqb_eq in Hlen.
    pose proof (copying_excludes_poller r Hc Hst) as Hnp.
    pose proof (Hr r) as Hrr. rewrite Hst in Hrr. destruct Hrr as [Hmu Hpre].
    split; [destruct r; exact Hl|]. split; [destruct r; exact Hg|].
    split.
    { intros Hp. exfalso. destruct r; cbn in Hp; rewrite Hnp in Hp;
        discriminate. }
    intros r'. destruct (Reader_eq_dec r' r) as [->|Hne].
    + rewrite reader_set_same.
      rewrite Hlen, firstn_all in Hpre. rewrite Hpre. apply Hg.
      destruct (poller s); try reflexivity. discriminate Hnp.
    + rewrite reader_set_other by exact Hne.
      assert (Hsame : reader_state (set_mutex None s) r' = reader_state s r')
        by (destruct r'; reflexivity).
      rewrite Hsame. specialize (Hr r').
      destruct (reader_state s r') as [|copy'|copy'] eqn:Hst'; auto.
      exfalso. destruct Hr as [Hmu' _]. rewrite Hmu in Hmu'.
      inversion Hmu'. congruence.
  - (* read_reset *)
    destruct (reader_state s r) as [| |copy] eqn:Hst; try discriminate.
    inversion He; subst s'.
    split; [destruct r; exact Hl|]. split; [destruct r; exact Hg|].
    split; [destruct r; exact Hm|].
    intros r'. destruct (Reader_eq_dec r' r) as [->|Hne].
    + rewrite reader_set_same. exact I.
    + rewrite reader_set_other by exact Hne. specialize (Hr r').
      destruct (reader_state s r') as [|copy'|copy'] eqn:Hst'; auto.
      destruct r; exact Hr.
Qed.

Lemma run_consistent acts : forall s s',
  consistent s -> run acts s = Some s' -> consistent s'.
Proof.
  induction acts as [|a acts IH]; intros s s' Hc Hr; cbn in Hr.
  - inversion Hr; subst. exact Hc.
  - destruct (exec a s) as [s1|] eqn:He; [|discriminate].
    apply (IH s1 s'); [|exact Hr]. now apply exec_consistent with a s.
Qed.

(** Only the swap and the [clear()] of the polling thread change the shared
    list. *)
Lemma exec_changes_list a s s' :
  exec a s = Some s' -> g_list s' <> g_list s ->
  poller_holds (poller s) = true /\ mutex s' = mutex s.
Proof.
  intros He Hne. destruct a; cbn [exec] in He;
    try (destruct (poller s) eqn:Hp; try discriminate;
         try (destruct (is_free s); try discriminate);
         inversion He; subst s'; cbn in *;
         first [congruence | now split]);
    destruct (reader_state s r) as [|copy|copy]; try discriminate;
    try (destruct (is_free s); try discriminate);
    try (destruct (nth_error (g_list s) (List.length copy)); try discriminate);
    try (destruct (Nat.eqb (List.length copy) (List.length (g_list s)));
         try discriminate);
    inversion He; subst s'; destruct r; cbn in Hne; congruence.
Qed.

(** C9.  In every state that a schedule of the polling thread and the two
    readers reaches, a copy that a reader completed holds entries of one
    poll pass only, although the copy takes one step per entry and the
    swap leaves the shared list torn between its two steps.  The shared
    list changes only in a step of the polling thread taken while it holds
    the mutex, which it still holds after the step: the list built in the
    private [localList] is published by the swap under the lock. *)
Theorem C9_completed_copy_is_of_one_pass
  (acts : list Action) (s : State) (Hrun : run acts init = Some s) :
  (forall r copy, reader_state s r = RDone copy -> single_pass copy)
  /\ (forall r copy, reader_state s r = RCopying copy ->
      swapping (poller s) = false
      /\ copy = firstn (List.length copy) (g_list s))
  /\ (forall a s', exec a s = Some s' -> g_list s' <> g_list s ->
      mutex s = Some Poller /\ mutex s' = Some Poller).
Proof.
  pose proof (run_consistent acts init_consistent Hrun) as Hc.
  pose proof Hc as (_ & _ & Hm & Hr).
  split; [|split].
  - intros r copy Hd. specialize (Hr r). now rewrite Hd in Hr.
  - intros r copy Hcp. pose proof (copying_excludes_poller r Hc Hcp) as Hnp.
    specialize (Hr r). rewrite Hcp in Hr. split; [|apply Hr].
    destruct (poller s); try reflexivity. discriminate Hnp.
  - intros a s' He Hne. destruct (exec_changes_list a s He Hne) as [Hp Hs].
    rewrite Hs. split; now apply Hm.
Qed.

(** C9, witness: the schedule [Scenario.schedule], in which the render
    thread copies during the second pass, ends with the render thread
    holding the complete list of the first pass. *)
Lemma C9_copy_during_second_pass_witness :
  run Scenario.schedule init = Some Scenario.after_schedule
  /\ single_pass Scenario.first_snapshot.
Proof.
  split; [reflexivity|].
  apply (proj1 (@C9_completed_copy_is_of_one_pass Scenario.schedule
                  Scenario.after_schedule eq_refl) Render).
  reflexivity.
Defined.

End SnapshotFacts.

(* ===================================================================== *)
(** * Host calls of the render callbacks *)
(* ===================================================================== *)

Module RenderFacts.

Local Open Scope list_scope.

(** The hook of bridge_121.cpp reads shared state only. *)
Lemma hwglSwapBuffers_no_host_access (f : Bridge121Render.Frame) :
  Forall (fun e => Bridge121Render.host_access e = false)
    (Bridge121Render.hwglSwapBuffers f).
Proof.
  unfold Bridge121Render.hwglSwapBuffers, Bridge121Render.UpdateRealGuiState,
    Bridge121Render.copy_under.
  destruct f as [early jvm started glfw cursor menu inw cp nt ce cam mats].
  cbn [Bridge121Render.passes_early_tests Bridge121Render.g_jvm
       Bridge121Render.s_chestThreadStarted Bridge121Render.glfw_ready
       Bridge121Render.cursor_normal Bridge121Render.g_ShowMenu
       Bridge121Render.inWorld Bridge121Render.cfg_closestPlayer
       Bridge121Render.cfg_nametags Bridge121Render.cfg_chestEsp
       Bridge121Render.sharedCamFound Bridge121Render.sharedMatsOk].
  destruct early, jvm, started, glfw, cursor, menu, inw, nt, ce, cam, mats;
    cbn; repeat constructor.
Qed.

Import BridgeRender.

Lemma In_HookedSwapBuffers (f : Frame) e :
  g_glInitialized f = true -> window_size_ok f = true ->
  In e (RenderNametags f) -> In e (HookedSwapBuffers f).
Proof.
  intros Hg Hw Hin. unfold HookedSwapBuffers. rewrite Hg, Hw.
  apply in_or_app. right. cbn [app]. right.
  apply in_or_app. left. exact Hin.
Qed.

Lemma RenderNametags_asks_size (f : Frame) :
  reaches_list f = true ->
  exists pre rest,
    RenderNametags f
    = pre ++ CallMethod g_listSizeMethod ::
        (if size_raises f then []
         else
           (if ready f g_currentScreenField then
              GetField g_currentScreenField ::
              (if currentScreen f && mGetName f
               then [CallMethod Class_getName] else [])
            else [])
           ++ GetField g_thePlayerField ::
              (if negb (player f) then []
               else
                 [GetField g_posXField; GetField g_posYField;
                  GetField g_posZField]
                 ++ entity_loop f (Z.to_nat (size f)) 0 0 ++ rest)).
Proof.
  intros H. unfold reaches_list in H.
  apply andb_prop in H. destruct H as [H Hsl].
  apply andb_prop in H. destruct H as [H Hwo].
  apply andb_prop in H. destruct H as [H Hpu].
  apply andb_prop in H. destruct H as [H Hex].
  apply andb_prop in H. destruct H as [H Hen].
  apply andb_prop in H. destruct H as [H Hr2].
  apply andb_prop in H. destruct H as [H Hr1].
  apply andb_prop in H. destruct H as [H Hnt].
  unfold RenderNametags.
  rewrite Hnt, Hr1, Hr2, Hen, Hpu, Hwo, Hsl.
  apply negb_true_iff in Hex. rewrite Hex. cbn [negb].
  eexists. exists [Lock g_jsonMutex; Unlock g_jsonMutex].
  rewrite !app_assoc.
  match goal with
  | |- ?a ++ GetField g_theWorldField :: GetField g_playerEntitiesField :: ?t
       = _ =>
      change (a ++ GetField g_theWorldField :: GetField g_playerEntitiesField :: t)
        with (a ++ [GetField g_theWorldField; GetField g_playerEntitiesField] ++ t)
  end.
  rewrite app_assoc. reflexivity.
Qed.

Lemma entity_loop_first (f : Frame) :
  0 < size f ->
  exists t, entity_loop f (Z.to_nat (size f)) 0 0
            = CallMethod g_listGetMethod :: t.
Proof.
  intros Hs. destruct (Z.to_nat (size f)) as [|n] eqn:Hn; [lia|].
  cbn [entity_loop].
  assert (Hc : (0 <? size f) && (0 <? 64) = true)
    by (apply andb_true_intro; split; apply Z.ltb_lt; lia).
  rewrite Hc. eexists. reflexivity.
Qed.

(** A frame that fails one of the tests leaves [RenderNametags] after the
    configuration lock. *)
Lemma RenderNametags_stops (f : Frame) :
  passes_tests f = false ->
  RenderNametags f = [Lock g_configMutex; Unlock g_configMutex].
Proof.
  unfold passes_tests, RenderNametags.
  destruct (nametags f); [|reflexivity]. cbn [negb andb].
  destruct (ready f g_mapped && ready f g_mcInstance
            && ready f g_activeRenderInfoClass && ready f g_modelViewField
            && ready f g_projectionField); [|reflexivity].
  destruct (ready f g_theWorldField && ready f g_playerEntitiesField
            && ready f g_listSizeMethod && ready f g_listGetMethod
            && ready f g_thePlayerField && ready f g_posXField
            && ready f g_posYField && ready f g_posZField); [|reflexivity].
  destruct (env_ok f); [|reflexivity].
  destruct (exception_pending f); [reflexivity|].
  destruct (push_ok f); [discriminate|reflexivity].
Qed.

(** A frame that passes them reads the world field of the root instance. *)
Lemma RenderNametags_reads_world (f : Frame) :
  passes_tests f = true ->
  In (GetField g_theWorldField) (RenderNametags f).
Proof.
  unfold passes_tests. intros H.
  apply andb_prop in H. destruct H as [H Hpu].
  apply andb_prop in H. destruct H as [H Hex].
  apply andb_prop in H. destruct H as [H Hen].
  apply andb_prop in H. destruct H as [H Hr2].
  apply andb_prop in H. destruct H as [Hnt Hr1].
  apply negb_true_iff in Hex.
  unfold RenderNametags. rewrite Hnt, Hr1, Hr2, Hen, Hpu, Hex. cbn [negb].
  apply in_or_app. right.
  do 4 (apply in_or_app; right). left. reflexivity.
Qed.

(** C2 (as the code has it).  The hook of bridge_121.cpp, [hwglSwapBuffers],
    reads and calls nothing of the host: it only copies shared state under
    the mutexes.  In bridge.cpp the hook [HookedSwapBuffers] runs
    [RenderNametags] between locking and unlocking [g_jniMutex], once the
    font is set up and the window has a size.  [RenderNametags] reads no
    host field and calls no host
    method exactly when the frame fails one of its tests: nametags on, the
    required mappings, the environment, no pending exception,
    [PushLocalFrame]; it then does nothing but lock and unlock the
    configuration mutex.  A frame that passes the tests up to the entity
    list invokes [List.size] on the render thread, and [List.get] as well
    when there is a local player and the list is not empty. *)
Theorem C2_render_callback_host_calls_by_bridge
  (f121 : Bridge121Render.Frame) (f : Frame) :
  Forall (fun e => Bridge121Render.host_access e = false)
    (Bridge121Render.hwglSwapBuffers f121)
  /\ (g_glInitialized f = true -> window_size_ok f = true ->
      HookedSwapBuffers f
      = PollKeyboardToggle f
        ++ [Lock g_jniMutex]
        ++ RenderNametags f
        ++ RenderClosestPlayerInfo f
        ++ RenderChestESP f
        ++ [Unlock g_jniMutex]
        ++ RenderClickGUI f)
  /\ (Forall (fun e => host_access e = false) (RenderNametags f)
      <-> passes_tests f = false)
  /\ (passes_tests f = false ->
      RenderNametags f = [Lock g_configMutex; Unlock g_configMutex])
  /\ (reaches_list f = true ->
      In (CallMethod g_listSizeMethod) (HookedSwapBuffers f))
  /\ (reaches_list f = true -> size_raises f = false -> player f = true ->
      0 < size f ->
      In (CallMethod g_listGetMethod) (HookedSwapBuffers f)).
Proof.
  split; [apply hwglSwapBuffers_no_host_access|].
  split; [intros Hg Hw; unfold HookedSwapBuffers; now rewrite Hg, Hw|].
  split.
  { split.
    - intros Hall. destruct (passes_tests f) eqn:Hp; [|reflexivity].
      rewrite Forall_forall in Hall.
      discriminate (Hall _ (RenderNametags_reads_world f Hp)).
    - intros Hp. rewrite (RenderNametags_stops f Hp).
      repeat constructor. }
  split; [apply RenderNametags_stops|].
  assert (Hhook : reaches_list f = true ->
                  g_glInitialized f = true /\ window_size_ok f = true).
  { unfold reaches_list. intros H.
    do 8 (apply andb_prop in H; destruct H as [H _]).
    now apply andb_prop in H. }
  split.
  - intros H. destruct (Hhook H) as [Hg Hw].
    apply In_HookedSwapBuffers; [exact Hg|exact Hw|].
    destruct (RenderNametags_asks_size f H) as (pre & rest & ->).
    apply in_or_app. right. left. reflexivity.
  - intros H Hr Hp Hs. destruct (Hhook H) as [Hg Hw].
    apply In_HookedSwapBuffers; [exact Hg|exact Hw|].
    destruct (RenderNametags_asks_size f H) as (pre & rest & ->).
    rewrite Hr, Hp. cbn [negb].
    destruct (entity_loop_first f Hs) as [t ->].
    apply in_or_app. right. right.
    apply in_or_app. right. right.
    cbn [app]. right. right. right. left. reflexivity.
Qed.

(** C2, counterexample.  In bridge.cpp, on a frame with nametags on and one
    other player in the list, the render callback invokes host methods:
    [FloatBuffer.get] for the two matrices, [List.size], [List.get] for
    both entries, and [getName], [getHealth], [getTotalArmorValue] and
    [hashCode] on the other player. *)
Lemma C2_bridge_cpp_render_invokes_host_methods :
  filter invokes_method (HookedSwapBuffers Scenario.frame_with_steve)
  = repeat (CallMethod g_floatBufferGet) 32
    ++ [ CallMethod g_listSizeMethod;
         CallMethod g_listGetMethod;
         CallMethod g_listGetMethod;
         CallMethod g_getNameMethod;
         CallMethod g_getHealthMethod;
         CallMethod g_getTotalArmorValueMethod;
         CallMethod g_objectHashCodeMethod ].
Proof. vm_compute. reflexivity. Qed.

(** C2, witness: the frame [Scenario.frame_with_steve] passes the tests
    and its list is not empty, so the callback of bridge.cpp invokes
    [List.get]; the frame [Scenario.frame_in_world] of bridge_121.cpp makes
    no host access. *)
Lemma C2_frame_with_a_player_witness :
  In (CallMethod g_listGetMethod) (HookedSwapBuffers Scenario.frame_with_steve)
  /\ Forall (fun e => Bridge121Render.host_access e = false)
       (Bridge121Render.hwglSwapBuffers Scenario.frame_in_world).
Proof.
  pose proof (C2_render_callback_host_calls_by_bridge Scenario.frame_in_world
                Scenario.frame_with_steve) as (H121 & _ & _ & _ & _ & Hget).
  split; [|exact H121].
  apply Hget; [reflexivity|reflexivity|reflexivity|reflexivity].
Defined.

End RenderFacts.
(* ===================================================================== *)
(** * Text helpers of bridge.cpp: what they guarantee *)
(* ===================================================================== *)

Module AppendFacts.

Lemma append_assoc (a b c : string) : (a ++ b) ++ c = a ++ (b ++ c).
Proof. induction a as [|x a IH]; cbn; [reflexivity|now rewrite IH]. Qed.

Lemma append_nil_r (a : string) : a ++ EmptyString = a.
Proof. induction a as [|x a IH]; cbn; [reflexivity|now rewrite IH]. Qed.

Lemma length_append (a b : string) :
  String.length (a ++ b) = (String.length a + String.length b)%nat.
Proof. induction a as [|c a IH]; cbn; [reflexivity|now rewrite IH]. Qed.

Lemma all_append p a b : Str.all p (a ++ b) = Str.all p a && Str.all p b.
Proof.
  induction a as [|c a IH]; [reflexivity|]. cbn. rewrite IH.
  now rewrite andb_assoc.
Qed.

Lemma take_app a b : Str.take (String.length a) (a ++ b) = a.
Proof. induction a as [|c a IH]; cbn; [now destruct b|now rewrite IH]. Qed.

Lemma drop_app a b : Str.drop (String.length a) (a ++ b) = b.
Proof. induction a as [|c a IH]; cbn; [reflexivity|exact IH]. Qed.

End AppendFacts.

Module JsonEscapeFacts.

Import Str.
Import BridgeText.
Import AppendFacts.

Lemma escape_plain c : special c = false -> escape c = String c EmptyString.
Proof.
  unfold special, escape. intros H.
  repeat (apply orb_false_elim in H; destruct H as [H ?]).
  now rewrite H, H0, H1, H2, H3.
Qed.

Lemma escape_special c :
  special c = true ->
  exists d, escape c = String bs (String d EmptyString)
            /\ escape_letter d = true /\ letter_byte d = c.
Proof.
  unfold special, escape. intros H.
  destruct (Ascii.eqb_spec c bs) as [E|_]; [subst c; exists bs; now vm_compute|].
  destruct (Ascii.eqb_spec c dq) as [E|_]; [subst c; exists dq; now vm_compute|].
  destruct (Ascii.eqb_spec c LF) as [E|_]; [subst c; exists "n"%char; now vm_compute|].
  destruct (Ascii.eqb_spec c CR) as [E|_]; [subst c; exists "r"%char; now vm_compute|].
  destruct (Ascii.eqb_spec c TAB) as [E|_]; [subst c; exists "t"%char; now vm_compute|].
  discriminate.
Qed.

Lemma special_bs c : special c = false -> Ascii.eqb c bs = false.
Proof.
  unfold special. intros H.
  repeat (apply orb_false_elim in H; destruct H as [H ?]). exact H.
Qed.

Lemma read_back_JsonEscape s : read_back (JsonEscape s) = s.
Proof.
  induction s as [|c s IH]; [reflexivity|]. cbn [JsonEscape].
  destruct (special c) eqn:Hs.
  - destruct (escape_special c Hs) as (d & -> & _ & Hd).
    cbn. now rewrite Hd, IH.
  - rewrite (escape_plain c Hs). cbn.
    now rewrite (special_bs c Hs), IH.
Qed.

Lemma JsonEscape_app a b : JsonEscape (a ++ b) = JsonEscape a ++ JsonEscape b.
Proof.
  induction a as [|c a IH]; [reflexivity|]. cbn.
  rewrite IH. symmetry. apply append_assoc.
Qed.

Lemma length_escape c :
  (1 <= String.length (escape c) <= 2)%nat.
Proof.
  destruct (special c) eqn:Hs.
  - destruct (escape_special c Hs) as (d & -> & _). cbn. lia.
  - rewrite (escape_plain c Hs). cbn. lia.
Qed.

Lemma quotes_escaped_JsonEscape s : quotes_escaped (JsonEscape s) = true.
Proof.
  induction s as [|c s IH]; [reflexivity|]. cbn [JsonEscape].
  destruct (special c) eqn:Hs.
  - destruct (escape_special c Hs) as (d & -> & Hd & _).
    cbn. now rewrite Hd, IH.
  - rewrite (escape_plain c Hs). cbn.
    now rewrite (special_bs c Hs), Hs, IH.
Qed.

Lemma JsonEscape_fixed s :
  JsonEscape s = s <-> all (fun c => negb (special c)) s = true.
Proof.
  induction s as [|c s IH]; [now split|]. cbn [JsonEscape all].
  destruct (special c) eqn:Hs; cbn.
  - split; [|discriminate]. intros H.
    destruct (escape_special c Hs) as (d & He & _).
    rewrite He in H. cbn in H. injection H as _ Hrest. exfalso.
    assert (Hlen : forall t, (String.length t <= String.length (JsonEscape t))%nat).
    { induction t as [|x t IHt]; [cbn; lia|]. cbn [JsonEscape].
      rewrite length_append. pose proof (length_escape x). cbn. lia. }
    specialize (Hlen s). rewrite <- Hrest in Hlen at 1. cbn in Hlen. lia.
  - rewrite (escape_plain c Hs). cbn. rewrite <- IH. split.
    + intros H. now injection H.
    + intros ->. reflexivity.
Qed.

Lemma escape_line_safe c : all line_safe (escape c) = true.
Proof.
  destruct (special c) eqn:Hs.
  - destruct (escape_special c Hs) as (d & -> & Hd & _).
    unfold escape_letter in Hd.
    repeat (apply orb_prop in Hd; destruct Hd as [Hd|Hd]);
      apply Ascii.eqb_eq in Hd; subst d; reflexivity.
  - rewrite (escape_plain c Hs). cbn. rewrite andb_true_r.
    unfold special in Hs. unfold line_safe.
    repeat (apply orb_false_elim in Hs; destruct Hs as [Hs ?]).
    now rewrite H1, H0, H.
Qed.

Lemma JsonEscape_line_safe s : all line_safe (JsonEscape s) = true.
Proof.
  induction s as [|c s IH]; [reflexivity|]. cbn [JsonEscape].
  now rewrite all_append, escape_line_safe, IH.
Qed.

Lemma JsonEscape_length s :
  (String.length s <= String.length (JsonEscape s) <= 2 * String.length s)%nat.
Proof.
  induction s as [|c s IH]; [cbn; lia|]. cbn [JsonEscape].
  rewrite length_append. pose proof (length_escape c). cbn [String.length]. lia.
Qed.

(** X1.  [JsonEscape] loses nothing: two texts with the same escaped form
    are the same text. *)
Theorem X1_JsonEscape_is_injective (a b : string) :
  JsonEscape a = JsonEscape b -> a = b.
Proof.
  intros H. rewrite <- (read_back_JsonEscape a), <- (read_back_JsonEscape b).
  now rewrite H.
Qed.

(** X1, witness: two spellings of one screen name. *)
Lemma X1_same_screen_name_witness :
  String dq "Chat" ++ String dq EmptyString = quoted "Chat".
Proof.
  apply (@X1_JsonEscape_is_injective
           (String dq "Chat" ++ String dq EmptyString) (quoted "Chat")).
  reflexivity.
Defined.

(** X2.  The text [JsonEscape] returns can stand between quotes on one
    line: every quote in it is behind a backslash, every backslash starts a
    pair, and no line feed, carriage return or tab is left.  It is between
    one and two times as long as the input, it is the input itself exactly
    when the input has none of the five bytes, and escaping goes through
    concatenation. *)
Theorem X2_JsonEscape_output_stays_in_its_quotes (s t : string) :
  quotes_escaped (JsonEscape s) = true
  /\ all line_safe (JsonEscape s) = true
  /\ (String.length s <= String.length (JsonEscape s)
      <= 2 * String.length s)%nat
  /\ (JsonEscape s = s <-> all (fun c => negb (special c)) s = true)
  /\ JsonEscape (s ++ t) = JsonEscape s ++ JsonEscape t.
Proof.
  split; [apply quotes_escaped_JsonEscape|].
  split; [apply JsonEscape_line_safe|].
  split; [apply JsonEscape_length|].
  split; [apply JsonEscape_fixed|apply JsonEscape_app].
Qed.

Import Bridge121Text.

Lemma nameEsc_line_safe s : all line_safe (nameEsc s) = all line_safe s.
Proof.
  induction s as [|c s IH]; [reflexivity|]. cbn [nameEsc].
  destruct (Ascii.eqb c dq || Ascii.eqb c bs) eqn:E; cbn; rewrite IH;
    [|reflexivity].
  apply orb_prop in E. destruct E as [E|E]; apply Ascii.eqb_eq in E; subst c;
    reflexivity.
Qed.

Lemma nameEsc_JsonEscape s :
  all line_safe s = true -> nameEsc s = JsonEscape s.
Proof.
  induction s as [|c s IH]; [reflexivity|]. cbn [all nameEsc JsonEscape].
  intros H. apply andb_prop in H. destruct H as [Hc Hs]. rewrite (IH Hs).
  unfold line_safe in Hc. apply negb_true_iff in Hc.
  repeat (apply orb_false_elim in Hc; destruct Hc as [Hc ?]).
  unfold escape. rewrite Hc, H, H0.
  destruct (Ascii.eqb_spec c bs) as [E|_];
    [subst c; reflexivity|].
  destruct (Ascii.eqb_spec c dq) as [E|_]; [subst c|]; reflexivity.
Qed.

Lemma read_back_nameEsc s : read_back (nameEsc s) = s.
Proof.
  induction s as [|c s IH]; [reflexivity|]. cbn [nameEsc].
  destruct (Ascii.eqb_spec c dq) as [E|Hq].
  - subst c. cbn. now rewrite IH.
  - destruct (Ascii.eqb_spec c bs) as [E|Hb].
    + subst c. cbn. now rewrite IH.
    + cbn. apply Ascii.eqb_neq in Hb. now rewrite Hb, IH.
Qed.

(** X3.  The loop by which bridge_121.cpp escapes names for its state line
    agrees with [JsonEscape] of bridge.cpp exactly on the names without
    line feed, carriage return and tab.  It keeps those three bytes as they
    are, so a name with a line feed gives a text with a raw line feed; like
    [JsonEscape] it loses nothing. *)
Theorem X3_bridge121_escapes_quotes_but_not_line_ends (name : string) :
  (nameEsc name = JsonEscape name <-> all line_safe name = true)
  /\ all line_safe (nameEsc name) = all line_safe name
  /\ quotes_escaped (nameEsc name) = all line_safe name
  /\ forall other, nameEsc name = nameEsc other -> name = other.
Proof.
  split; [split; [|apply nameEsc_JsonEscape]|].
  { intros E. rewrite <- nameEsc_line_safe, E. apply JsonEscape_line_safe. }
  split; [apply nameEsc_line_safe|]. split.
  - induction name as [|c s IH]; [reflexivity|]. cbn [nameEsc all].
    destruct (Ascii.eqb_spec c dq) as [E|Hq]; [subst c; cbn; exact IH|].
    destruct (Ascii.eqb_spec c bs) as [E|Hb]; [subst c; cbn; exact IH|].
    cbn [orb quotes_escaped]. apply Ascii.eqb_neq in Hb, Hq. rewrite Hb, <- IH.
    f_equal. unfold special, line_safe. now rewrite Hb, Hq.
  - intros other E.
    rewrite <- (read_back_nameEsc name), <- (read_back_nameEsc other).
    now rewrite E.
Qed.

End JsonEscapeFacts.

Module TextFacts.

Import Str.
Import BridgeText.
Import AppendFacts.

(* ---- character classes ---- *)

Lemma code_byte n : (n < 256)%N -> code (byte n) = n.
Proof. intros H. unfold code, byte. now apply N_ascii_embedding. Qed.

Lemma isupper_tolower c : isupper (tolower c) = false.
Proof.
  unfold tolower. destruct (isupper c) eqn:Hu; [|exact Hu].
  unfold isupper, between in *.
  apply andb_prop in Hu. destruct Hu as [H1 H2].
  apply N.leb_le in H1. apply N.leb_le in H2.
  rewrite code_byte by lia.
  apply andb_false_intro2. apply N.leb_gt. lia.
Qed.

Lemma tolower_idem c : tolower (tolower c) = tolower c.
Proof. unfold tolower at 1. now rewrite isupper_tolower. Qed.

Lemma isspace_tolower c : isspace (tolower c) = isspace c.
Proof.
  unfold tolower. destruct (isupper c) eqn:Hu; [|reflexivity].
  unfold isupper, between in Hu.
  apply andb_prop in Hu. destruct Hu as [H1 H2].
  apply N.leb_le in H1. apply N.leb_le in H2.
  unfold isspace, Decimal.is_space. rewrite code_byte by lia.
  repeat match goal with
  | |- context [(?a =? ?b)%N] => destruct (N.eqb_spec a b); try lia
  | |- context [(?a <=? ?b)%N] => destruct (N.leb_spec a b); try lia
  end; reflexivity.
Qed.

(* ---- ToLowerAscii ---- *)

Lemma ToLowerAscii_idem s : ToLowerAscii (ToLowerAscii s) = ToLowerAscii s.
Proof.
  induction s as [|c s IH]; [reflexivity|]. cbn. now rewrite tolower_idem, IH.
Qed.

Lemma ToLowerAscii_length s : String.length (ToLowerAscii s) = String.length s.
Proof. induction s as [|c s IH]; cbn; [reflexivity|now rewrite IH]. Qed.

Lemma ToLowerAscii_app a b :
  ToLowerAscii (a ++ b) = ToLowerAscii a ++ ToLowerAscii b.
Proof. induction a as [|c a IH]; cbn; [reflexivity|now rewrite IH]. Qed.

Lemma ToLowerAscii_no_upper s :
  all (fun c => negb (isupper c)) (ToLowerAscii s) = true.
Proof.
  induction s as [|c s IH]; [reflexivity|]. cbn.
  now rewrite isupper_tolower, IH.
Qed.

Lemma ToLowerAscii_fixed s :
  all (fun c => negb (isupper c)) s = true -> ToLowerAscii s = s.
Proof.
  induction s as [|c s IH]; [reflexivity|]. cbn. intros H.
  apply andb_prop in H. destruct H as [Hc Hs].
  unfold tolower. apply negb_true_iff in Hc. rewrite Hc. now rewrite IH.
Qed.

(* ---- NormalizeSpaces ---- *)

Lemma ink_not_SP c : isspace c = false -> Ascii.eqb c SP = false.
Proof.
  intros H. destruct (Ascii.eqb_spec c SP) as [E|_]; [|reflexivity].
  subst c. discriminate.
Qed.

Lemma collapse_all w s : all space_or_ink (collapse w s) = true.
Proof.
  revert w. induction s as [|ch s IH]; intros w; [reflexivity|]. cbn.
  destruct (isspace ch) eqn:Hc.
  - destruct w; cbn; now rewrite ?IH.
  - cbn. unfold space_or_ink at 1. now rewrite Hc, IH.
Qed.

Lemma collapse_shape w s :
  no_double_space (collapse w s) = true
  /\ (w = true -> first_is_space (collapse w s) = false).
Proof.
  revert w. induction s as [|ch s IH]; intros w; [now split|]. cbn [collapse].
  destruct (isspace ch) eqn:Hc.
  - destruct (IH true) as [Hn Hf]. destruct w.
    + split; [exact Hn|now intros _; apply Hf].
    + split; [|discriminate]. cbn [no_double_space]. rewrite Hn.
      specialize (Hf eq_refl). destruct (collapse true s); [reflexivity|].
      cbn in Hf. rewrite Hf. now rewrite andb_false_r.
  - destruct (IH false) as [Hn _]. split.
    + cbn [no_double_space]. rewrite Hn, (ink_not_SP ch Hc).
      now destruct (collapse false s).
    + intros _. cbn. now apply ink_not_SP.
Qed.

Lemma no_double_tail c s :
  no_double_space (String c s) = true -> no_double_space s = true.
Proof. cbn. intros H. apply andb_prop in H. tauto. Qed.

Lemma trim_front_all p s : all p s = true -> all p (trim_front s) = true.
Proof.
  induction s as [|c s IH]; [reflexivity|]. intros H. cbn [trim_front].
  destruct (Ascii.eqb c SP); [|exact H].
  cbn in H. apply andb_prop in H. now apply IH.
Qed.

Lemma trim_front_nd s :
  no_double_space s = true -> no_double_space (trim_front s) = true.
Proof.
  induction s as [|c s IH]; [reflexivity|]. intros H. cbn [trim_front].
  destruct (Ascii.eqb c SP); [|exact H]. apply IH. now apply no_double_tail in H.
Qed.

Lemma trim_front_first s : first_is_space (trim_front s) = false.
Proof.
  induction s as [|c s IH]; [reflexivity|]. cbn [trim_front].
  destruct (Ascii.eqb c SP) eqn:E; [exact IH|]. cbn. exact E.
Qed.

(** [trim_back] keeps a prefix of its argument; what it cuts is spaces. *)
Lemma trim_back_split s :
  exists t, s = trim_back s ++ t /\ all (Ascii.eqb SP) t = true.
Proof.
  induction s as [|c s (t & Hs & Ht)].
  - now exists EmptyString.
  - cbn [trim_back]. destruct (trim_back s) as [|k kept] eqn:Hk.
    + cbn in Hs. subst t. destruct (Ascii.eqb_spec c SP) as [E|_].
      * subst c. exists (String SP s). split; [reflexivity|]. cbn. exact Ht.
      * exists s. now split.
    + exists t. split; [|exact Ht]. cbn. now rewrite Hs at 1.
Qed.

Lemma no_double_prefix a b :
  no_double_space (a ++ b) = true -> no_double_space a = true.
Proof.
  induction a as [|c a IH]; [reflexivity|]. cbn [append no_double_space].
  intros H. apply andb_prop in H. destruct H as [H1 H2].
  rewrite (IH H2), andb_true_r. destruct a as [|d a]; [reflexivity|exact H1].
Qed.

Lemma trim_back_all p s : all p s = true -> all p (trim_back s) = true.
Proof.
  destruct (trim_back_split s) as (t & Hs & _). intros H.
  rewrite Hs, all_append in H. apply andb_prop in H. tauto.
Qed.

Lemma trim_back_nd s :
  no_double_space s = true -> no_double_space (trim_back s) = true.
Proof.
  destruct (trim_back_split s) as (t & Hs & _). intros H.
  rewrite Hs in H. now apply no_double_prefix in H.
Qed.

Lemma trim_back_first s :
  first_is_space s = false -> first_is_space (trim_back s) = false.
Proof.
  destruct s as [|c s]; [reflexivity|]. cbn [trim_back first_is_space].
  intros H. destruct (trim_back s); [now rewrite H|exact H].
Qed.

Lemma trim_back_last s : last_is_space (trim_back s) = false.
Proof.
  induction s as [|c s IH]; [reflexivity|]. cbn [trim_back].
  destruct (trim_back s) as [|k kept].
  - destruct (Ascii.eqb c SP) eqn:E; [reflexivity|]. cbn. exact E.
  - exact IH.
Qed.

Lemma NormalizeSpaces_normalized s : normalized (NormalizeSpaces s) = true.
Proof.
  unfold normalized, NormalizeSpaces.
  destruct (collapse_shape false s) as [Hn _].
  rewrite trim_back_all by (apply trim_front_all, collapse_all).
  rewrite trim_back_nd by (apply trim_front_nd, Hn).
  rewrite trim_back_first by apply trim_front_first.
  now rewrite trim_back_last.
Qed.

Lemma collapse_fixed w s :
  all space_or_ink s = true -> no_double_space s = true ->
  (w = true -> first_is_space s = false) -> collapse w s = s.
Proof.
  revert w. induction s as [|ch s IH]; intros w Ha Hn Hf; [reflexivity|].
  cbn [collapse]. cbn [all] in Ha. apply andb_prop in Ha. destruct Ha as [Hc Ha].
  pose proof (@no_double_tail ch s Hn) as Hn'.
  destruct (isspace ch) eqn:Hs.
  - unfold space_or_ink in Hc. rewrite Hs in Hc. cbn in Hc.
    destruct (Ascii.eqb_spec ch SP) as [E|_]; [subst ch|discriminate].
    destruct w; [now specialize (Hf eq_refl)|].
    f_equal. apply IH; try assumption. intros _.
    cbn in Hn. destruct s as [|d s]; [reflexivity|].
    cbn. apply andb_prop in Hn. destruct Hn as [Hn _].
    now destruct (Ascii.eqb d SP).
  - f_equal. apply IH; try assumption. discriminate.
Qed.

Lemma trim_front_fixed s : first_is_space s = false -> trim_front s = s.
Proof. destruct s as [|c s]; [reflexivity|]. cbn. now intros ->. Qed.

Lemma trim_back_fixed s : last_is_space s = false -> trim_back s = s.
Proof.
  induction s as [|c s IH]; [reflexivity|]. cbn [last_is_space trim_back].
  destruct s as [|d s].
  - cbn. now intros ->.
  - intros H. now rewrite (IH H).
Qed.

Lemma normalized_fixed s : normalized s = true -> NormalizeSpaces s = s.
Proof.
  unfold normalized, NormalizeSpaces. intros H.
  apply andb_prop in H. destruct H as [H Hl].
  apply andb_prop in H. destruct H as [H Hf].
  apply andb_prop in H. destruct H as [Ha Hn].
  apply negb_true_iff in Hl, Hf.
  rewrite collapse_fixed by (try assumption; discriminate).
  now rewrite trim_front_fixed, trim_back_fixed.
Qed.

Lemma ink_collapse w s : ink (collapse w s) = ink s.
Proof.
  revert w. induction s as [|ch s IH]; intros w; [reflexivity|]. cbn.
  destruct (isspace ch) eqn:Hc.
  - destruct w; cbn; apply IH.
  - cbn. now rewrite Hc, IH.
Qed.

Lemma ink_trim_front s : ink (trim_front s) = ink s.
Proof.
  induction s as [|c s IH]; [reflexivity|]. cbn [trim_front].
  destruct (Ascii.eqb_spec c SP) as [E|_]; [|reflexivity].
  subst c. cbn. exact IH.
Qed.

Lemma ink_trim_back s : ink (trim_back s) = ink s.
Proof.
  induction s as [|c s IH]; [reflexivity|]. cbn [trim_back].
  destruct (trim_back s) as [|k kept].
  - cbn [ink] in *. rewrite <- IH.
    destruct (Ascii.eqb_spec c SP) as [E|_]; [subst c; reflexivity|reflexivity].
  - cbn [ink] in *. now rewrite IH.
Qed.

Lemma ink_NormalizeSpaces s : ink (NormalizeSpaces s) = ink s.
Proof.
  unfold NormalizeSpaces. now rewrite ink_trim_back, ink_trim_front, ink_collapse.
Qed.

Lemma collapse_length w s : (String.length (collapse w s) <= String.length s)%nat.
Proof.
  revert w. induction s as [|ch s IH]; intros w; [cbn; lia|]. cbn.
  destruct (isspace ch); [destruct w|]; cbn;
    [specialize (IH true)|specialize (IH true)|specialize (IH false)]; lia.
Qed.

Lemma trim_front_length s : (String.length (trim_front s) <= String.length s)%nat.
Proof.
  induction s as [|c s IH]; [cbn; lia|]. cbn [trim_front].
  destruct (Ascii.eqb c SP); cbn in *; lia.
Qed.

Lemma trim_back_length s : (String.length (trim_back s) <= String.length s)%nat.
Proof.
  destruct (trim_back_split s) as (t & Hs & _).
  rewrite Hs at 2. rewrite length_append. lia.
Qed.

Lemma NormalizeSpaces_length s :
  (String.length (NormalizeSpaces s) <= String.length s)%nat.
Proof.
  unfold NormalizeSpaces.
  pose proof (trim_back_length (trim_front (collapse false s))).
  pose proof (trim_front_length (collapse false s)).
  pose proof (collapse_length false s). lia.
Qed.

Lemma ink_nil s : ink s = EmptyString <-> all isspace s = true.
Proof.
  induction s as [|c s IH]; [now split|]. cbn.
  destruct (isspace c); cbn; [exact IH|]. split; discriminate.
Qed.

Lemma normalized_ink_nil s :
  normalized s = true -> ink s = EmptyString -> s = EmptyString.
Proof.
  destruct s as [|c s]; [reflexivity|]. unfold normalized. intros H Hi.
  apply andb_prop in H. destruct H as [H _].
  apply andb_prop in H. destruct H as [H Hf].
  apply andb_prop in H. destruct H as [Ha _].
  cbn in Ha, Hf, Hi. apply andb_prop in Ha. destruct Ha as [Hc _].
  unfold space_or_ink in Hc. apply negb_true_iff in Hf. rewrite Hf in Hc.
  rewrite orb_false_r in Hc. apply negb_true_iff in Hc. rewrite Hc in Hi.
  discriminate.
Qed.

(** X4.  The fixed points of [NormalizeSpaces] are exactly the normalized
    texts (white space is single spaces between words only), and every
    result is one of them. *)
Theorem X4_NormalizeSpaces_gives_normalized_text (s : string) :
  normalized (NormalizeSpaces s) = true
  /\ (NormalizeSpaces s = s <-> normalized s = true).
Proof.
  split; [apply NormalizeSpaces_normalized|]. split.
  - intros H. rewrite <- H. apply NormalizeSpaces_normalized.
  - apply normalized_fixed.
Qed.

(** X5.  [NormalizeSpaces] is idempotent, never lengthens a text, keeps
    the bytes that are not white space in their order, and gives the empty
    text exactly for a text of white space only. *)
Theorem X5_NormalizeSpaces_keeps_the_words (s : string) :
  NormalizeSpaces (NormalizeSpaces s) = NormalizeSpaces s
  /\ ink (NormalizeSpaces s) = ink s
  /\ (String.length (NormalizeSpaces s) <= String.length s)%nat
  /\ (NormalizeSpaces s = EmptyString <-> all isspace s = true).
Proof.
  split; [apply normalized_fixed, NormalizeSpaces_normalized|].
  split; [apply ink_NormalizeSpaces|].
  split; [apply NormalizeSpaces_length|].
  rewrite <- ink_nil, <- ink_NormalizeSpaces. split.
  - now intros ->.
  - apply normalized_ink_nil, NormalizeSpaces_normalized.
Qed.

(* ---- ToLowerAscii and NormalizeSpaces ---- *)

Lemma tolower_SP c : Ascii.eqb (tolower c) SP = Ascii.eqb c SP.
Proof.
  unfold tolower. destruct (isupper c) eqn:Hu; [|reflexivity].
  unfold isupper, between in Hu.
  apply andb_prop in Hu. destruct Hu as [H1 H2].
  apply N.leb_le in H1. apply N.leb_le in H2.
  destruct (Ascii.eqb_spec c SP) as [E|_].
  - subst c. vm_compute in H1. now destruct H1.
  - apply Ascii.eqb_neq. intros E.
    apply (f_equal code) in E. rewrite code_byte in E by lia.
    change (code SP) with 32%N in E. lia.
Qed.

Lemma collapse_lower w s :
  collapse w (ToLowerAscii s) = ToLowerAscii (collapse w s).
Proof.
  revert w. induction s as [|c s IH]; intros w; [reflexivity|].
  cbn [ToLowerAscii collapse]. rewrite isspace_tolower.
  destruct (isspace c); [destruct w|]; cbn [ToLowerAscii]; rewrite IH;
    reflexivity.
Qed.

Lemma trim_front_lower s :
  trim_front (ToLowerAscii s) = ToLowerAscii (trim_front s).
Proof.
  induction s as [|c s IH]; [reflexivity|].
  cbn [ToLowerAscii trim_front]. rewrite tolower_SP.
  destruct (Ascii.eqb c SP); [exact IH|reflexivity].
Qed.

Lemma trim_back_lower s :
  trim_back (ToLowerAscii s) = ToLowerAscii (trim_back s).
Proof.
  induction s as [|c s IH]; [reflexivity|].
  cbn [ToLowerAscii trim_back]. rewrite IH, tolower_SP.
  destruct (trim_back s); cbn [ToLowerAscii]; [|reflexivity].
  now destruct (Ascii.eqb c SP).
Qed.

(** X28.  [ToLowerAscii] keeps the length of a text, leaves no upper-case
    letter, changes nothing in a text without one, and so is idempotent; it
    goes through concatenation and commutes with [NormalizeSpaces]. *)
Theorem X28_ToLowerAscii_commutes_with_NormalizeSpaces (s t : string) :
  String.length (ToLowerAscii s) = String.length s
  /\ all (fun c => negb (isupper c)) (ToLowerAscii s) = true
  /\ (all (fun c => negb (isupper c)) s = true -> ToLowerAscii s = s)
  /\ ToLowerAscii (ToLowerAscii s) = ToLowerAscii s
  /\ ToLowerAscii (s ++ t) = ToLowerAscii s ++ ToLowerAscii t
  /\ NormalizeSpaces (ToLowerAscii s) = ToLowerAscii (NormalizeSpaces s).
Proof.
  split; [apply ToLowerAscii_length|].
  split; [apply ToLowerAscii_no_upper|].
  split; [apply ToLowerAscii_fixed|].
  split; [apply ToLowerAscii_idem|].
  split; [apply ToLowerAscii_app|].
  unfold NormalizeSpaces.
  now rewrite collapse_lower, trim_front_lower, trim_back_lower.
Qed.

(* ---- ParseRoman ---- *)

Local Open Scope list_scope.

Lemma RomanValue_cases c : RomanValue c = 0 \/ denomination (RomanValue c).
Proof.
  unfold RomanValue, denomination.
  repeat match goal with
  | |- context [if ?b then _ else _] => destruct b; [lia|]
  end. lia.
Qed.

Lemma RomanValue_tolower c : RomanValue (tolower c) = RomanValue c.
Proof. unfold RomanValue. now rewrite tolower_idem. Qed.

Lemma loop_invalid bytes total prev :
  forallb roman_byte bytes = false -> ParseRoman_loop bytes total prev = 0.
Proof.
  revert total prev. induction bytes as [|c rest IH]; intros total prev H.
  - discriminate.
  - cbn in *. unfold roman_byte in H at 1.
    destruct (RomanValue c =? 0); [reflexivity|]. cbn in H. now apply IH.
Qed.

Lemma loop_valid bytes total prev :
  forallb roman_byte bytes = true ->
  prev = 0 \/ denomination prev -> prev <= total ->
  let r := ParseRoman_loop bytes total prev in
  total - 1000 * Z.of_nat (List.length bytes) <= r
    <= total + 1000 * Z.of_nat (List.length bytes)
  /\ (bytes <> [] \/ 1 <= prev -> 1 <= r).
Proof.
  revert total prev. induction bytes as [|c rest IH]; intros total prev H Hp Ht.
  - cbn. repeat split; try lia. intros [E|E]; [now destruct E|lia].
  - cbn [forallb] in H. apply andb_prop in H. destruct H as [Hc Hr].
    unfold roman_byte in Hc. apply negb_true_iff in Hc.
    cbn [ParseRoman_loop]. rewrite Hc.
    destruct (RomanValue_cases c) as [E|Hd];
      [rewrite E in Hc; discriminate|].
    set (v := RomanValue c) in *.
    assert (Hstep : v <= (if v <? prev then total - v else total + v)
                    /\ total - 1000 <= (if v <? prev then total - v else total + v)
                       <= total + 1000).
    { unfold denomination in *. destruct (Z.ltb_spec v prev); lia. }
    destruct Hstep as [H1 H2].
    specialize (IH _ v Hr (or_intror Hd) H1). cbn zeta in IH.
    destruct IH as (Hb & Hv).
    cbn [List.length]. rewrite Nat2Z.inj_succ.
    set (r := ParseRoman_loop rest _ v) in *.
    repeat split; try lia.
    intros _. apply Hv. right. unfold denomination in Hd. lia.
Qed.

Lemma forallb_backwards p s acc :
  forallb p (backwards s acc) = all p s && forallb p acc.
Proof.
  revert acc. induction s as [|c s IH]; intros acc; [reflexivity|]. cbn.
  rewrite IH. cbn. now rewrite andb_assoc, (andb_comm (all p s)).
Qed.

Lemma length_backwards s acc :
  List.length (backwards s acc) = (String.length s + List.length acc)%nat.
Proof.
  revert acc. induction s as [|c s IH]; intros acc; [reflexivity|]. cbn.
  rewrite IH. cbn. lia.
Qed.

Lemma backwards_ToLowerAscii s acc :
  backwards (ToLowerAscii s) (map tolower acc) = map tolower (backwards s acc).
Proof.
  revert acc. induction s as [|c s IH]; intros acc; [reflexivity|]. cbn.
  now rewrite <- IH.
Qed.

Lemma loop_tolower bytes total prev :
  ParseRoman_loop (map tolower bytes) total prev
  = ParseRoman_loop bytes total prev.
Proof.
  revert total prev. induction bytes as [|c rest IH]; intros total prev;
    [reflexivity|].
  cbn. now rewrite RomanValue_tolower, IH.
Qed.

(** X6.  [ParseRoman] returns 0 exactly for the empty token and for a
    token with a byte that is no Roman digit; for every other token the
    result is positive.  The result never exceeds 1000 times the length of
    the token, and the case of the letters does not matter. *)
Theorem X6_ParseRoman_zero_means_no_numeral (token : string) :
  (ParseRoman token = 0 <-> token = EmptyString \/ roman_digits token = false)
  /\ 0 <= ParseRoman token <= 1000 * Z.of_nat (String.length token)
  /\ ParseRoman (ToLowerAscii token) = ParseRoman token.
Proof.
  destruct token as [|c s].
  { cbn. repeat split; try lia. now left. }
  assert (Hlow : ParseRoman (ToLowerAscii (String c s)) = ParseRoman (String c s)).
  { unfold ParseRoman. cbn [ToLowerAscii].
    change (String (tolower c) (ToLowerAscii s)) with (ToLowerAscii (String c s)).
    change (@nil ascii) with (map tolower []) at 1.
    now rewrite backwards_ToLowerAscii, loop_tolower. }
  unfold ParseRoman, roman_digits in *.
  pose proof (forallb_backwards roman_byte (String c s) []) as Hf.
  cbn [forallb] in Hf. rewrite andb_true_r in Hf.
  pose proof (length_backwards (String c s) []) as Hl.
  destruct (all roman_byte (String c s)) eqn:Hall.
  - pose proof (@loop_valid _ 0 0 Hf (or_introl eq_refl) (Z.le_refl 0)) as Hv.
    cbn zeta in Hv. destruct Hv as (Hb & Hpos).
    assert (Hne : backwards (String c s) [] <> []).
    { intros E. rewrite E in Hl. cbn in Hl. lia. }
    specialize (Hpos (or_introl Hne)). rewrite Hl in Hb. cbn [List.length] in Hb.
    rewrite Nat.add_0_r in Hb.
    split; [|split; [lia|exact Hlow]].
    split; [lia|]. intros [E|E]; discriminate.
  - rewrite (loop_invalid _ 0 0 Hf) in *.
    split; [|split; [lia|exact Hlow]].
    split; [now right|reflexivity].
Qed.

(* ---- CleanupHeldBaseName, BuildCappedHeldText ---- *)

Lemma substring_length m n s :
  String.length (substring m n s) = Nat.min n (String.length s - m).
Proof.
  revert m n. induction s as [|c s IH]; intros m n.
  - destruct m, n; reflexivity.
  - destruct m as [|m].
    + destruct n as [|n]; [reflexivity|]. cbn. rewrite IH. f_equal. lia.
    + cbn. apply IH.
Qed.

(** A match found by [find] lies inside the text. *)
Lemma find_bound s c k p :
  find s (String c k) = Some p ->
  (p + String.length (String c k) <= String.length s)%nat.
Proof.
  unfold find. intros H. apply index_correct1 in H.
  apply (f_equal String.length) in H. rewrite substring_length in H.
  cbn [String.length] in *. lia.
Qed.

Lemma drop_length p s : String.length (drop p s) = (String.length s - p)%nat.
Proof.
  revert s. induction p as [|p IH]; intros s; [cbn; lia|].
  destruct s as [|c s]; [reflexivity|]. cbn. apply IH.
Qed.

Lemma take_length n s : String.length (take n s) = Nat.min n (String.length s).
Proof.
  revert s. induction n as [|n IH]; intros s; [reflexivity|].
  destruct s as [|c s]; [reflexivity|]. cbn. now rewrite IH.
Qed.

Lemma strip_codes_length fuel s :
  (String.length (strip_codes fuel s) <= String.length s)%nat.
Proof.
  revert s. induction fuel as [|fuel IH]; intros s; [cbn; lia|].
  cbn [strip_codes]. destruct s as [|c0 [|second rest]]; try lia.
  destruct (_ && _); [|lia].
  specialize (IH (NormalizeSpaces (String second rest))).
  pose proof (NormalizeSpaces_length (String second rest)). cbn in *. lia.
Qed.

(** The fuel given to [strip_codes] is enough: more changes nothing. *)
Lemma strip_codes_fuel fuel s :
  (String.length s <= fuel)%nat ->
  strip_codes (S fuel) s = strip_codes fuel s.
Proof.
  revert s. induction fuel as [|fuel IH]; intros s Hl.
  - destruct s as [|c0 [|second rest]]; try reflexivity. cbn in Hl. lia.
  - cbn [strip_codes]. destruct s as [|c0 [|second rest]]; try reflexivity.
    destruct (_ && _); [|reflexivity].
    change (strip_codes (S fuel) (NormalizeSpaces (String second rest))
            = strip_codes fuel (NormalizeSpaces (String second rest))).
    apply IH. pose proof (NormalizeSpaces_length (String second rest)).
    cbn in *. lia.
Qed.

Lemma erase_non_alnum_length s :
  (String.length (erase_non_alnum s) <= String.length s)%nat.
Proof.
  induction s as [|c s IH]; [cbn; lia|]. cbn [erase_non_alnum].
  destruct (isalnum c); cbn in *; lia.
Qed.

Lemma strip_numeric_length fuel s :
  (String.length (strip_numeric fuel s) <= String.length s)%nat.
Proof.
  revert s. induction fuel as [|fuel IH]; intros s; [cbn; lia|].
  cbn [strip_numeric]. destruct s as [|c rest]; [cbn; lia|].
  destruct (isdigit c); [|lia].
  destruct (String.get _ _); [|lia]. destruct (isalpha _); [|lia].
  set (p := S (skip_non_alpha rest)).
  specialize (IH (erase_non_alnum (drop p (String c rest)))).
  pose proof (erase_non_alnum_length (drop p (String c rest))).
  pose proof (drop_length p (String c rest)). lia.
Qed.

(** The steps of [CleanupHeldBaseName] after the possessive is cut. *)
Lemma cleanup_tail_length clean :
  let c1 := erase_non_alnum clean in
  (String.length (NormalizeSpaces (strip_numeric (String.length c1) c1))
   <= String.length clean)%nat.
Proof.
  cbn zeta.
  pose proof (erase_non_alnum_length clean).
  pose proof (strip_numeric_length (String.length (erase_non_alnum clean))
                (erase_non_alnum clean)).
  pose proof (NormalizeSpaces_length
                (strip_numeric (String.length (erase_non_alnum clean))
                   (erase_non_alnum clean))). lia.
Qed.

Lemma CleanupHeldBaseName_None raw :
  CleanupHeldBaseName raw = None <->
  exists possessive,
    find (ToLowerAscii (NormalizeSpaces raw)) "'s " = Some possessive
    /\ (possessive < 20)%nat
    /\ (String.length
          (strip_codes (String.length (NormalizeSpaces raw)) (NormalizeSpaces raw))
        < possessive + 3)%nat.
Proof.
  unfold CleanupHeldBaseName.
  destruct (NormalizeSpaces raw) as [|c0 clean] eqn:Hn.
  - split; [discriminate|]. intros (p & Hp & _). discriminate.
  - set (lower := ToLowerAscii (String c0 clean)).
    set (stripped := strip_codes _ _).
    destruct (find lower "'s ") as [p|].
    + destruct (Nat.ltb_spec p 20).
      * destruct (Nat.ltb_spec (String.length stripped) (p + 3)).
        -- split; [|reflexivity]. intros _. exists p. now repeat split.
        -- split.
           ++ destruct (ContainsItemKeyword _); discriminate.
           ++ intros (q & Hq & _ & Hlt). injection Hq as <-. lia.
      * split; [discriminate|]. intros (q & Hq & Hlt & _). injection Hq as <-. lia.
    + split; [discriminate|]. intros (q & Hq & _). discriminate.
Qed.

(** X7.  [CleanupHeldBaseName] throws [std::out_of_range] exactly when the
    text has ['s ] at a position below 20 and the removal of leading
    colour-code letters has left fewer bytes than that position plus 3;
    this happens, for instance for the name [aAB's x]. *)
Theorem X7_CleanupHeldBaseName_throws_on_a_shortened_name :
  (forall raw,
     CleanupHeldBaseName raw = None <->
     exists possessive,
       find (ToLowerAscii (NormalizeSpaces raw)) "'s " = Some possessive
       /\ (possessive < 20)%nat
       /\ (String.length
             (strip_codes (String.length (NormalizeSpaces raw))
                (NormalizeSpaces raw))
           < possessive + 3)%nat)
  /\ exists raw, CleanupHeldBaseName raw = None.
Proof.
  split; [exact CleanupHeldBaseName_None|].
  exists "aAB's x". reflexivity.
Qed.

(** X8.  [CleanupHeldBaseName] does not throw for a name from which the
    first loop removes nothing. *)
Theorem X8_CleanupHeldBaseName_safe_without_code_prefix (raw : string) :
  strip_codes (String.length (NormalizeSpaces raw)) (NormalizeSpaces raw)
    = NormalizeSpaces raw ->
  exists out, CleanupHeldBaseName raw = Some out.
Proof.
  intros Hs. destruct (CleanupHeldBaseName raw) as [out|] eqn:E;
    [now exists out|].
  exfalso. apply CleanupHeldBaseName_None in E.
  destruct E as (p & Hp & _ & Hlt). rewrite Hs in Hlt.
  apply find_bound in Hp. rewrite ToLowerAscii_length in Hp. cbn in Hp. lia.
Qed.

(** X8, witness: the name of a renamed sword. *)
Lemma X8_renamed_sword_witness :
  exists out, CleanupHeldBaseName "Steve's  Diamond Sword" = Some out.
Proof.
  apply (@X8_CleanupHeldBaseName_safe_without_code_prefix
           "Steve's  Diamond Sword").
  reflexivity.
Defined.

(** X9.  What [CleanupHeldBaseName] returns is a normalized text no longer
    than the name it was given. *)
Theorem X9_CleanupHeldBaseName_result_is_normalized (raw out : string) :
  CleanupHeldBaseName raw = Some out ->
  normalized out = true /\ (String.length out <= String.length raw)%nat.
Proof.
  unfold CleanupHeldBaseName.
  pose proof (NormalizeSpaces_length raw) as Hraw.
  pose proof (NormalizeSpaces_normalized raw) as Hnorm.
  destruct (NormalizeSpaces raw) as [|c0 clean] eqn:Hn.
  - intros H. injection H as <-. split; [reflexivity|cbn; lia].
  - set (lower := ToLowerAscii (String c0 clean)).
    pose proof (strip_codes_length (String.length (String c0 clean))
                  (String c0 clean)) as Hs.
    set (stripped := strip_codes _ _) in *.
    assert (Hfin : forall clean',
      (String.length clean' <= String.length stripped)%nat ->
      Some (NormalizeSpaces
              (strip_numeric (String.length (erase_non_alnum clean'))
                 (erase_non_alnum clean'))) = Some out ->
      normalized out = true /\ (String.length out <= String.length raw)%nat).
    { intros clean' Hl H. injection H as <-.
      split; [apply NormalizeSpaces_normalized|].
      pose proof (cleanup_tail_length clean'). cbn zeta in *. lia. }
    destruct (find lower "'s ") as [p|]; [|now apply Hfin].
    destruct (p <? 20)%nat; [|now apply Hfin].
    destruct (String.length stripped <? p + 3)%nat; [discriminate|].
    destruct (ContainsItemKeyword _); [|now apply Hfin].
    apply Hfin. rewrite drop_length. lia.
Qed.

(** X9, witness: the owner is cut off a renamed sword. *)
Lemma X9_renamed_sword_witness :
  CleanupHeldBaseName "Steve's  Diamond Sword" = Some "Diamond Sword"
  /\ normalized "Diamond Sword" = true
  /\ (String.length "Diamond Sword"
      <= String.length "Steve's  Diamond Sword")%nat.
Proof.
  split; [reflexivity|].
  apply (@X9_CleanupHeldBaseName_result_is_normalized
           "Steve's  Diamond Sword" "Diamond Sword").
  reflexivity.
Defined.

Lemma get_drop p s ch :
  String.get p s = Some ch -> exists rest, drop p s = String ch rest.
Proof.
  revert s. induction p as [|p IH]; intros s H.
  - destruct s as [|c s]; [discriminate|]. cbn in H. injection H as ->.
    now exists s.
  - destruct s as [|c s]; [discriminate|]. cbn in *. now apply IH.
Qed.

Lemma alpha_not_digit ch : isalpha ch = true -> isdigit ch = false.
Proof.
  unfold isalpha, isupper, islower, isdigit, between. intros H.
  destruct (N.leb_spec 48 (code ch)), (N.leb_spec (code ch) 57);
    try reflexivity.
  destruct (N.leb_spec 65 (code ch)), (N.leb_spec (code ch) 90),
    (N.leb_spec 97 (code ch)), (N.leb_spec (code ch) 122);
    cbn in H; try discriminate; lia.
Qed.

(** The last loop of [CleanupHeldBaseName] runs its body at most once:
    what it leaves starts with a letter. *)
Lemma strip_numeric_fuel fuel s :
  strip_numeric (S fuel) s = strip_numeric 1 s.
Proof.
  cbn [strip_numeric]. destruct s as [|c rest]; [reflexivity|].
  destruct (isdigit c); [|reflexivity].
  destruct (String.get _ _) as [ch|] eqn:Hg; [|reflexivity].
  destruct (isalpha ch) eqn:Ha; [|reflexivity].
  destruct (get_drop _ _ Hg) as (tail & ->).
  cbn [erase_non_alnum]. unfold isalnum. rewrite Ha. cbn [orb].
  destruct fuel as [|fuel]; [reflexivity|].
  cbn [strip_numeric]. now rewrite (alpha_not_digit ch Ha).
Qed.

Section HeldTextFacts.

Context {F : Type} `{FloatOps F}.
Variable fmt1 : F -> string.

Lemma dmgBuf_length d : (String.length (dmgBuf fmt1 d) <= 23)%nat.
Proof. unfold dmgBuf. rewrite take_length. lia. Qed.

(** X10.  [BuildCappedHeldText] throws only where [CleanupHeldBaseName]
    does; the text it returns is not empty and has at most 36 bytes,
    whatever the name and the damage are. *)
Theorem X10_BuildCappedHeldText_is_capped (rawName : string) (swordDmg : F) :
  (BuildCappedHeldText fmt1 rawName swordDmg = None
   <-> CleanupHeldBaseName rawName = None)
  /\ forall text,
       BuildCappedHeldText fmt1 rawName swordDmg = Some text ->
       (1 <= String.length text <= 36)%nat.
Proof.
  unfold BuildCappedHeldText.
  destruct (CleanupHeldBaseName rawName) as [base|]; [|split; [tauto|discriminate]].
  split; [split; discriminate|]. cbv zeta.
  set (base' := match base with EmptyString => "Item" | _ => base end).
  assert (Hb : (1 <= String.length base')%nat).
  { subst base'. destruct base; cbn; lia. }
  set (suffix := if fgt swordDmg (lit32 0) then dmgBuf fmt1 swordDmg
                 else EmptyString).
  assert (Hs : (String.length suffix <= 23)%nat).
  { subst suffix. destruct (fgt _ _); [apply dmgBuf_length|cbn; lia]. }
  destruct (Z.ltb_spec (36 - Z.of_nat (String.length suffix)) 8); [lia|].
  set (allowedBase := 36 - Z.of_nat (String.length suffix)) in *.
  intros text Htext.
  match type of Htext with Some ?r = _ => assert (E : r = text) by congruence end.
  rewrite <- E. clear E Htext.
  rewrite length_append.
  destruct (Z.ltb_spec allowedBase (Z.of_nat (String.length base'))).
  - destruct (Z.ltb_spec 3 allowedBase); [|lia].
    rewrite length_append, take_length. cbn [String.length]. lia.
  - lia.
Qed.

End HeldTextFacts.

End TextFacts.

(* ===================================================================== *)
(** * Lines from the socket *)
(* ===================================================================== *)

Module FramingFacts.

Import Str.
Import Framing.
Import AppendFacts.

Lemma find_cons c rest :
  find (String c rest) newline
  = if Ascii.eqb c LF then Some O else option_map S (find rest newline).
Proof.
  unfold find, newline. cbn [index prefix].
  destruct (ascii_dec LF c) as [E|N].
  - subst c. rewrite Ascii.eqb_refl. now destruct rest.
  - destruct (Ascii.eqb_spec c LF) as [E|_]; [now subst c|].
    now destruct (index 0 (String LF EmptyString) rest).
Qed.

Lemma find_None s : find s newline = None <-> no_LF s = true.
Proof.
  induction s as [|c s IH]; [now split|]. rewrite find_cons. cbn.
  destruct (Ascii.eqb c LF); cbn; [split; discriminate|].
  rewrite <- IH. destruct (find s newline); cbn; split; congruence.
Qed.

(** The first line feed of [s] at [p]: the line before it and the rest. *)
Lemma find_Some s p :
  find s newline = Some p ->
  s = take p s ++ String LF (drop (p + 1) s) /\ no_LF (take p s) = true.
Proof.
  revert p. induction s as [|c s IH]; intros p H; [discriminate|].
  rewrite find_cons in H. destruct (Ascii.eqb_spec c LF) as [E|N].
  - injection H as <-. subst c. now split.
  - destruct (find s newline) as [q|]; [|discriminate]. cbn in H.
    injection H as <-. destruct (IH q eq_refl) as [Hs Hl].
    cbn [take drop Nat.add append no_LF all]. split.
    + now rewrite <- Hs.
    + apply Ascii.eqb_neq in N. rewrite N. exact Hl.
Qed.

Lemma find_line a b :
  no_LF a = true -> find (a ++ String LF b) newline = Some (String.length a).
Proof.
  induction a as [|c a IH]; intros H.
  - cbn [append]. rewrite find_cons. unfold LF. now rewrite Ascii.eqb_refl.
  - cbn in H. apply andb_prop in H. destruct H as [Hc Ha].
    cbn [append]. rewrite find_cons. apply negb_true_iff in Hc.
    rewrite Hc, (IH Ha). reflexivity.
Qed.

(** One turn of the loop on a buffer that starts with a complete line. *)
Lemma drain_line fuel a b :
  no_LF a = true ->
  drain (S fuel) (a ++ String LF b)
  = let (lines, left) := drain fuel b in
    (if nonempty a then a :: lines else lines, left).
Proof.
  intros H. cbn [drain]. rewrite (@find_line a b H). cbn zeta.
  rewrite take_app. rewrite Nat.add_1_r.
  replace (drop (S (String.length a)) (a ++ String LF b)) with b.
  - destruct (drain fuel b) as [lines left]. now destruct a.
  - clear. induction a as [|c a IH]; [reflexivity|exact IH].
Qed.

Lemma drain_no_LF fuel s : no_LF s = true -> drain fuel s = ([], s).
Proof.
  intros H. destruct fuel; [reflexivity|]. cbn [drain].
  apply find_None in H. now rewrite H.
Qed.

(** More fuel than the length of the buffer changes nothing. *)
Lemma drain_fuel f1 f2 s :
  (String.length s <= f1)%nat -> (String.length s <= f2)%nat ->
  drain f1 s = drain f2 s.
Proof.
  revert f2 s. induction f1 as [|f1 IH]; intros f2 s H1 H2.
  - destruct s; [|cbn in H1; lia]. now destruct f2.
  - destruct (find s newline) as [p|] eqn:Hf.
    + destruct (@find_Some s p Hf) as [Hs Hl]. rewrite Hs in H1, H2 |- *.
      rewrite length_append in H1, H2. cbn [String.length] in H1, H2.
      destruct f2 as [|f2]; [lia|].
      rewrite !drain_line by exact Hl.
      rewrite (IH f2) by lia. reflexivity.
    + apply find_None in Hf. now rewrite !drain_no_LF.
Qed.

Lemma c_str_no_NUL buf : no_NUL buf = true -> c_str buf = buf.
Proof.
  induction buf as [|c s IH]; [reflexivity|]. cbn. intros H.
  apply andb_prop in H. destruct H as [Hc Hs]. apply negb_true_iff in Hc.
  now rewrite Hc, (IH Hs).
Qed.

Lemma c_str_NUL a b : c_str (a ++ String NUL b) = c_str a.
Proof.
  induction a as [|c s IH]; [reflexivity|]. cbn.
  destruct (Ascii.eqb c NUL); [reflexivity|now rewrite IH].
Qed.

(** What the loop leaves has no line feed; the lines it hands over are not
    empty and have none either. *)
Lemma drain_left fuel s :
  (String.length s <= fuel)%nat -> no_LF (snd (drain fuel s)) = true.
Proof.
  revert s. induction fuel as [|fuel IH]; intros s H.
  - now destruct s; [|cbn in H; lia].
  - destruct (find s newline) as [p|] eqn:Hf.
    + destruct (@find_Some s p Hf) as [Hs Hl]. rewrite Hs in H |- *.
      rewrite length_append in H. cbn [String.length] in H.
      rewrite drain_line by exact Hl.
      specialize (IH (drop (p + 1) s)).
      destruct (drain fuel (drop (p + 1) s)). cbn [snd] in *. apply IH. lia.
    + apply find_None in Hf. now rewrite drain_no_LF.
Qed.

Lemma drain_lines fuel s : forallb packet_ok (fst (drain fuel s)) = true.
Proof.
  revert s. induction fuel as [|fuel IH]; intros s; [reflexivity|].
  cbn [drain]. destruct (find s newline) as [p|] eqn:Hf; [|reflexivity].
  destruct (@find_Some s p Hf) as [_ Hl]. cbn zeta.
  specialize (IH (drop (p + 1) s)).
  destruct (drain fuel (drop (p + 1) s)) as [lines left]. cbn [fst] in *.
  destruct (take p s) as [|c line] eqn:E; [exact IH|].
  cbn [forallb]. rewrite IH, andb_true_r. unfold packet_ok. now rewrite Hl.
Qed.

(** The loop run on a buffer and then on what it left, with more bytes
    appended, hands over the lines of the whole. *)
Lemma drain_app n s x :
  (String.length s <= n)%nat ->
  drain (String.length (s ++ x)) (s ++ x)
  = let (l1, r1) := drain (String.length s) s in
    let (l2, r2) := drain (String.length (r1 ++ x)) (r1 ++ x) in
    ((l1 ++ l2)%list, r2).
Proof.
  revert s. induction n as [|n IH]; intros s H.
  - destruct s; [|cbn in H; lia]. cbn [append String.length drain].
    now destruct (drain (String.length x) x).
  - destruct (find s newline) as [p|] eqn:Hf.
    + destruct (@find_Some s p Hf) as [Hs Hl].
      set (a := take p s) in *. set (b := drop (p + 1) s) in *.
      rewrite Hs in H |- *. rewrite length_append in H.
      cbn [String.length] in H.
      rewrite append_assoc. cbn [append].
      replace (String.length (a ++ String LF (b ++ x)))
        with (S (String.length a + String.length (b ++ x)))
        by (rewrite (length_append a); cbn [String.length]; lia).
      replace (String.length (a ++ String LF b))
        with (S (String.length a + String.length b))
        by (rewrite (length_append a); cbn [String.length]; lia).
      rewrite !drain_line by exact Hl.
      rewrite (@drain_fuel (String.length a + String.length (b ++ x))
                 (String.length (b ++ x)) (b ++ x)) by lia.
      rewrite (@drain_fuel (String.length a + String.length b)
                 (String.length b) b) by lia.
      rewrite (IH b) by lia.
      destruct (drain (String.length b) b) as [l1 r1].
      destruct (drain (String.length (r1 ++ x)) (r1 ++ x)) as [l2 r2].
      now destruct (nonempty a).
    + apply find_None in Hf. rewrite (@drain_no_LF _ s Hf).
      now destruct (drain (String.length (s ++ x)) (s ++ x)).
Qed.

Lemma recv_all_stream chunks readBuf :
  forallb no_NUL chunks = true -> no_LF readBuf = true ->
  recv_all readBuf chunks
  = drain (String.length (readBuf ++ stream chunks)) (readBuf ++ stream chunks).
Proof.
  revert readBuf. induction chunks as [|buf rest IH]; intros readBuf Hn Hl.
  - cbn [recv_all stream]. rewrite append_nil_r. now rewrite drain_no_LF.
  - cbn [forallb] in Hn. apply andb_prop in Hn. destruct Hn as [Hb Hr].
    cbn [recv_all stream]. unfold on_recv. rewrite (@c_str_no_NUL buf Hb).
    rewrite <- append_assoc.
    rewrite (@drain_app (String.length (readBuf ++ buf)) (readBuf ++ buf)
               (stream rest) (Nat.le_refl _)).
    pose proof (@drain_left (String.length (readBuf ++ buf)) (readBuf ++ buf)
                  (Nat.le_refl _)) as Hleft.
    destruct (drain (String.length (readBuf ++ buf)) (readBuf ++ buf))
      as [lines rb]. cbn [snd] in Hleft.
    now rewrite (IH rb Hr Hleft).
Qed.

Lemma drain_framed packets tail fuel :
  forallb no_LF packets = true -> no_LF tail = true ->
  (String.length (framed packets ++ tail) <= fuel)%nat ->
  drain fuel (framed packets ++ tail) = (filter nonempty packets, tail).
Proof.
  revert fuel. induction packets as [|p rest IH]; intros fuel Hp Ht Hf.
  - cbn [framed append filter]. now apply drain_no_LF.
  - cbn [forallb] in Hp. apply andb_prop in Hp. destruct Hp as [Hp Hr].
    cbn [framed filter] in *. rewrite append_assoc in *. cbn [append] in *.
    rewrite length_append in Hf. cbn [String.length] in Hf.
    destruct fuel as [|fuel]; [lia|].
    rewrite drain_line by exact Hp. rewrite (IH fuel Hr Ht) by lia.
    reflexivity.
Qed.

(** X11.  How the stream is cut into chunks does not matter: the chunks of
    a connection, none of which holds a zero byte, give [ParseConfig] the
    same lines, and leave the same bytes in [readBuf], as the whole stream
    received at once. *)
Theorem X11_lines_do_not_depend_on_chunking (chunks : list string) :
  forallb no_NUL chunks = true ->
  recv_all EmptyString chunks = on_recv EmptyString (stream chunks).
Proof.
  intros H. rewrite (@recv_all_stream chunks EmptyString H eq_refl). unfold on_recv.
  cbn [append]. rewrite c_str_no_NUL; [reflexivity|].
  clear -H. induction chunks as [|buf rest IH]; [reflexivity|].
  cbn [forallb stream] in *. apply andb_prop in H. destruct H as [Hb Hr].
  unfold no_NUL in *. rewrite all_append, Hb. now apply IH.
Qed.

(** X11, witness: a settings line cut in the middle of a key. *)
Lemma X11_cut_line_witness :
  recv_all EmptyString ["{nameta"; "gs:true}" ++ newline ++ "{"]
  = on_recv EmptyString (stream ["{nameta"; "gs:true}" ++ newline ++ "{"]).
Proof.
  apply (@X11_lines_do_not_depend_on_chunking
           ["{nameta"; "gs:true}" ++ newline ++ "{"]).
  reflexivity.
Defined.

(** X12.  Receiving is the inverse of framing: when the bytes received are
    packets, each followed by a line feed, and then the start of a next
    packet, [ParseConfig] is called on the packets that are not empty, in
    order, whatever the chunks were, and the start of the next packet stays
    in [readBuf]. *)
Theorem X12_framed_packets_are_received_in_order
    (chunks packets : list string) (tail : string) :
  forallb no_NUL chunks = true ->
  forallb no_LF packets = true -> no_LF tail = true ->
  stream chunks = framed packets ++ tail ->
  recv_all EmptyString chunks = (filter nonempty packets, tail).
Proof.
  intros Hn Hp Ht Hs. rewrite (@recv_all_stream chunks EmptyString Hn eq_refl).
  cbn [append]. rewrite Hs. now apply drain_framed.
Qed.

(** X12, witness: three packets, one of them empty, and the first byte of
    a fourth, cut into two chunks inside the first packet. *)
Lemma X12_three_packets_witness :
  recv_all EmptyString ["ab"; "c" ++ newline ++ newline ++ "de" ++ newline ++ "f"]
  = (["abc"; "de"], "f").
Proof.
  apply (@X12_framed_packets_are_received_in_order
           ["ab"; "c" ++ newline ++ newline ++ "de" ++ newline ++ "f"]
           ["abc"; EmptyString; "de"] "f"); reflexivity.
Defined.

Lemma recv_all_safe chunks readBuf :
  no_LF readBuf = true ->
  forallb packet_ok (fst (recv_all readBuf chunks)) = true
  /\ no_LF (snd (recv_all readBuf chunks)) = true.
Proof.
  revert readBuf. induction chunks as [|buf rest IH]; intros readBuf Hl.
  - now split.
  - cbn [recv_all]. unfold on_recv.
    pose proof (drain_lines (String.length (readBuf ++ c_str buf))
                  (readBuf ++ c_str buf)) as H1.
    pose proof (@drain_left (String.length (readBuf ++ c_str buf))
                  (readBuf ++ c_str buf) (Nat.le_refl _)) as H2.
    destruct (drain _ (readBuf ++ c_str buf)) as [lines rb].
    cbn [fst snd] in H1, H2. destruct (IH rb H2) as [H3 H4].
    destruct (recv_all rb rest) as [more left]. cbn [fst snd] in *.
    split; [|exact H4]. now rewrite forallb_app, H1, H3.
Qed.

(** X13.  [ParseConfig] is never called on an empty line or on a line with
    a line feed in it, and after every [recv] no line feed is left in
    [readBuf].  The bytes that follow a zero byte in a chunk are lost. *)
Theorem X13_no_empty_line_reaches_ParseConfig (chunks : list string) :
  forallb packet_ok (fst (recv_all EmptyString chunks)) = true
  /\ no_LF (snd (recv_all EmptyString chunks)) = true
  /\ forall readBuf a b,
       on_recv readBuf (a ++ String NUL b) = on_recv readBuf a.
Proof.
  destruct (@recv_all_safe chunks EmptyString eq_refl) as [H1 H2].
  split; [exact H1|]. split; [exact H2|].
  intros readBuf a b. unfold on_recv. now rewrite c_str_NUL.
Qed.

End FramingFacts.

(* ===================================================================== *)
(** * The name tag overlay of bridge_121.cpp *)
(* ===================================================================== *)

Module OverlayFacts.

Import Bridge121.
Import Bridge121Overlay.
Import ProjectorFacts.

Lemma sqrt_square_abs (x : R) : sqrt (x * x) = Rabs x.
Proof. rewrite <- (sqrt_Rsqr_abs x). reflexivity. Qed.

(** X14.  In exact arithmetic the angle projector puts every point of the
    view axis that is at least 0.1 away at the centre of the window,
    whatever the camera position and yaw are, as long as the camera does
    not look straight up or down, the window has a positive width and
    height, and the tangent of half the field of view is defined and not
    zero.  Under these conditions no division of the function has a zero
    divisor: [rLen] is at least 0.000001, [vFwd] at least 0.1, and
    [tanHalfFov], [aspect] and [winH] are not zero. *)
Theorem X14_view_axis_projects_to_screen_centre
    (camPos : LegoVec3 R) (yawDeg pitchDeg fovDeg t : R) (winW winH : Z) :
  (Q2R 0.1 <= t)%R ->
  (Q2R 0.000001 <= Rabs (cos (to_rad (ops := RealOps) pitchDeg)))%R ->
  0 < winW ->
  0 < winH ->
  sin (half_fov fovDeg) <> 0%R ->
  cos (half_fov fovDeg) <> 0%R ->
  WorldToScreen_Angles (ops := RealOps)
    (on_view_axis camPos yawDeg pitchDeg t) camPos yawDeg pitchDeg fovDeg
    winW winH
  = Some (IZR winW / 2, IZR winH / 2)%R.
Proof.
  intros Ht Hp HW HH Hsin Hcos.
  assert (Htan : tan (half_fov fovDeg) <> 0%R).
  { unfold tan, Rdiv. apply Rmult_integral_contrapositive_currified;
      [exact Hsin|now apply Rinv_neq_0_compat]. }
  assert (HW' : IZR winW <> 0%R) by (apply not_0_IZR; lia).
  assert (HH' : IZR winH <> 0%R) by (apply not_0_IZR; lia).
  unfold half_fov in Htan.
  unfold on_view_axis, WorldToScreen_Angles, forward, delta, to_screen.
  cbv zeta.
  set (yaw := to_rad yawDeg) in *.
  set (pitch := to_rad pitchDeg) in *.
  cbn [vec_x vec_y vec_z f32_add f32_sub f32_mul f32_div f32_neg sqrtf sinf
       cosf tanf f64_sub to_f32 int_to_f32 lit32 flt isfinite RealOps negb orb]
    in *.
  pose proof (sin2_cos2 yaw) as Hy. pose proof (sin2_cos2 pitch) as Hq.
  unfold Rsqr in Hy, Hq.
  set (s := sin yaw) in *. set (c := cos yaw) in *.
  set (sp := sin pitch) in *. set (cp := cos pitch) in *.
  rewrite Q2R_0, Q2R_1.
  match goal with
  | |- context [sqrt ?a] =>
      replace a with ((s * s + c * c) * (cp * cp))%R by ring
  end.
  rewrite Hy, Rmult_1_l, sqrt_square_abs.
  rewrite Rltb_false by lra.
  cbv beta iota.
  assert (Hr : Rabs cp <> 0%R) by (unfold Q2R in Hp; cbn in Hp; lra).
  match goal with
  | |- context [Rltb ?a (Q2R 0.1)] =>
      replace a with (t * ((s * s + c * c) * (cp * cp) + sp * sp))%R by ring
  end.
  rewrite Hy, Rmult_1_l, (Rplus_comm (cp * cp)), Hq, Rmult_1_r.
  rewrite Rltb_false by lra.
  assert (Ht0 : t <> 0%R) by (unfold Q2R in Ht; cbn in Ht; lra).
  set (th := tan _) in *.
  f_equal. f_equal.
  - match goal with
    | |- ((?n / t / ?d + 1) * _ * _ = _)%R =>
        replace n with 0%R by (field; exact Hr)
    end.
    unfold Q2R; cbn. field. repeat split; assumption.
  - match goal with
    | |- ((1 - ?n / t / ?d) * _ * _ = _)%R =>
        replace n with 0%R by (field; exact Hr)
    end.
    unfold Q2R; cbn. field. split; assumption.
Qed.

(** X14, witness: ten blocks ahead of the camera of the scenario, which
    looks along the z axis, with a field of view of 70 degrees in a window
    of 1920 by 1080. *)
Lemma X14_ten_blocks_ahead_witness :
  WorldToScreen_Angles (ops := RealOps)
    (on_view_axis Scenario.camera 0 0 10) Scenario.camera 0%R 0%R 70%R
    1920 1080
  = Some (IZR 1920 / 2, IZR 1080 / 2)%R.
Proof.
  assert (H : (0 < half_fov 70 < PI / 2)%R).
  { pose proof PI2_1. unfold half_fov. cbn. unfold Q2R. cbn. lra. }
  apply (@X14_view_axis_projects_to_screen_centre Scenario.camera 0%R 0%R
           70%R 10%R 1920 1080).
  - unfold Q2R. cbn. lra.
  - rewrite to_rad_0, cos_0, Rabs_R1. unfold Q2R. cbn. lra.
  - lia.
  - lia.
  - apply Rgt_not_eq, sin_gt_0; lra.
  - apply Rgt_not_eq, cos_gt_0; lra.
Defined.

Section OverlayLoop.

Context {F : Type} {ops : FloatOps F}.

Local Open Scope list_scope.

Lemma nametagRenderCap_bounds n : 1 <= nametagRenderCap n <= 20.
Proof. unfold nametagRenderCap. lia. Qed.

(** The tags of one run of the loop: their number and where they come
    from. *)
Lemma nametag_loop_tags (v : Camera) alpha now cap playerSnap drawn smooth :
  let tags := fst (nametag_loop v alpha now cap playerSnap drawn smooth) in
  Z.of_nat (List.length tags) <= Z.max 0 (cap - drawn)
  /\ Forall (fun tag : Tag =>
               exists it, In it playerSnap /\ name it = fst tag
                          /\ skipped_as_dashes it = false
                          /\ project v (headPos it) <> None) tags.
Proof.
  revert drawn smooth.
  induction playerSnap as [|it rest IH]; intros drawn smooth; cbn zeta.
  - cbn. split; [lia|constructor].
  - cbn [nametag_loop].
    assert (Hweak : forall d s,
      Z.max 0 (cap - d) <= Z.max 0 (cap - drawn) ->
      Z.of_nat (List.length (fst (nametag_loop v alpha now cap rest d s)))
        <= Z.max 0 (cap - drawn)
      /\ Forall (fun tag : Tag =>
                   exists it0, In it0 (it :: rest) /\ name it0 = fst tag
                               /\ skipped_as_dashes it0 = false
                               /\ project v (headPos it0) <> None)
           (fst (nametag_loop v alpha now cap rest d s))).
    { intros d s Hd. destruct (IH d s) as [H1 H2]. cbn zeta in *. split; [lia|].
      eapply Forall_impl; [|exact H2]. intros tag (it0 & Hin & Hrest).
      exists it0. split; [now right|exact Hrest]. }
    destruct (Z.leb_spec cap drawn) as [Hcap|Hcap].
    { cbn. split; [lia|constructor]. }
    destruct (skipped_as_dashes it) eqn:Hdash; [apply Hweak; lia|].
    destruct (project v (headPos it)) as [[x y]|] eqn:Hproj;
      [|apply Hweak; lia].
    destruct (smooth_nametag smooth (name it) x y alpha now) as [smooth' at_].
    destruct (Hweak (drawn + 1) smooth') as [H1 H2]; [lia|].
    destruct (IH (drawn + 1) smooth') as [H3 _]. cbn zeta in H3.
    destruct (nametag_loop v alpha now cap rest (drawn + 1) smooth')
      as [tags smooth''].
    cbn [fst List.length] in *. split; [lia|].
    constructor; [|exact H2].
    exists it. split; [now left|]. split; [reflexivity|].
    split; [exact Hdash|]. now rewrite Hproj.
Qed.

(** X15.  A frame draws at most [nametagRenderCap] name tags, a number
    between 1 and 20 whatever the configured count is; every tag drawn has
    the name of a player of the snapshot that the dash filter let through
    and that the projector accepted. *)
Theorem X15_a_frame_draws_at_most_twenty_tags
    (nametags sharedCamFound : bool) (v : Camera) (DeltaTime : F)
    (overlayNowMs nametagMaxCount : Z) (playerSnap : list PlayerData121)
    (s_nametagSmooth : list (@SmoothedPoint F)) :
  let tags := fst (nametag_frame nametags sharedCamFound v DeltaTime
                     overlayNowMs nametagMaxCount playerSnap s_nametagSmooth) in
  Z.of_nat (List.length tags) <= nametagRenderCap nametagMaxCount <= 20
  /\ Forall (fun tag : Tag =>
               exists it, In it playerSnap /\ name it = fst tag
                          /\ skipped_as_dashes it = false
                          /\ project v (headPos it) <> None) tags
  /\ (nametags && sharedCamFound && matsOk v = false -> tags = []).
Proof.
  cbn zeta. unfold nametag_frame.
  pose proof (nametagRenderCap_bounds nametagMaxCount) as Hcap.
  destruct (nametags && sharedCamFound && matsOk v).
  - destruct (nametag_loop_tags v (overlaySmoothAlpha DeltaTime) overlayNowMs
                (nametagRenderCap nametagMaxCount) playerSnap 0
                (evict_stale overlayNowMs s_nametagSmooth)) as [H1 H2].
    cbn zeta in *. split; [lia|]. split; [exact H2|discriminate].
  - cbn. split; [lia|]. split; [constructor|reflexivity].
Qed.

Lemma smooth_nametag_keys l k x y alpha now :
  let l' := fst (smooth_nametag l k x y alpha now) in
  (In k (keys l) -> keys l' = keys l)
  /\ (~ In k (keys l) -> keys l' = keys l ++ [k]).
Proof.
  induction l as [|sm rest IH]; cbn zeta.
  - cbn. split; [now intros []|reflexivity].
  - cbn [smooth_nametag]. destruct (String.eqb_spec (key sm) k) as [E|N].
    + cbn. split; [reflexivity|]. intros H. exfalso. apply H. now left.
    + destruct (smooth_nametag rest k x y alpha now) as [rest' out].
      cbn [fst keys map] in *. destruct IH as [IH1 IH2]. split.
      * intros [E|Hin]; [now elim N|]. now rewrite (IH1 Hin).
      * intros H. rewrite IH2; [reflexivity|]. intros Hin. apply H. now right.
Qed.

Lemma smooth_nametag_NoDup l k x y alpha now :
  NoDup (keys l) -> NoDup (keys (fst (smooth_nametag l k x y alpha now))).
Proof.
  intros H. destruct (smooth_nametag_keys l k x y alpha now) as [H1 H2].
  cbn zeta in *. destruct (in_dec string_dec k (keys l)) as [Hin|Hout].
  - now rewrite (H1 Hin).
  - rewrite (H2 Hout). apply NoDup_app; [exact H|repeat constructor; now intros []|].
    intros a Ha [E|[]]. subst a. now apply Hout.
Qed.

Lemma smooth_nametag_fresh l k x y alpha now :
  fresh now (fst (smooth_nametag l k x y alpha now)) k.
Proof.
  induction l as [|sm rest IH].
  - cbn. eexists. split; [now left|]. now split.
  - cbn [smooth_nametag]. destruct (String.eqb_spec (key sm) k) as [E|N].
    + cbn [fst]. eexists. split; [now left|]. now split.
    + destruct (smooth_nametag rest k x y alpha now) as [rest' out].
      cbn [fst] in *. destruct IH as (e & Hin & He). exists e.
      split; [now right|exact He].
Qed.

Lemma smooth_nametag_keeps_fresh l k k' x y alpha now :
  fresh now l k' -> fresh now (fst (smooth_nametag l k x y alpha now)) k'.
Proof.
  induction l as [|sm rest IH]; intros (e & Hin & Hk & Hs).
  - destruct Hin.
  - cbn [smooth_nametag]. destruct (String.eqb_spec (key sm) k) as [E|N].
    + cbn [fst]. destruct Hin as [<-|Hin].
      * eexists. split; [now left|]. now split.
      * exists e. split; [now right|now split].
    + destruct (smooth_nametag rest k x y alpha now) as [rest' out] eqn:Hr.
      cbn [fst] in *. destruct Hin as [<-|Hin].
      * exists sm. split; [now left|now split].
      * destruct IH as (e' & Hin' & He'); [now exists e|].
        exists e'. split; [now right|exact He'].
Qed.

Lemma evict_stale_NoDup now (l : list (@SmoothedPoint F)) :
  NoDup (keys l) -> NoDup (keys (evict_stale now l)).
Proof.
  unfold evict_stale, keys. induction l as [|sm rest IH]; [trivial|].
  cbn. intros H. inversion H as [|? ? Hnot Hrest]; subst.
  destruct (negb _); [|now apply IH]. cbn. constructor; [|now apply IH].
  intros Hin. apply Hnot. apply in_map_iff in Hin.
  destruct Hin as (e & He & Hin). apply filter_In in Hin.
  apply in_map_iff. exists e. tauto.
Qed.

Lemma nametag_loop_smooth (v : Camera) alpha now cap playerSnap drawn smooth :
  let r := nametag_loop v alpha now cap playerSnap drawn smooth in
  (NoDup (keys smooth) -> NoDup (keys (snd r)))
  /\ (forall k, fresh now smooth k -> fresh now (snd r) k)
  /\ Forall (fun tag : Tag => fresh now (snd r) (fst tag)) (fst r).
Proof.
  revert drawn smooth.
  induction playerSnap as [|it rest IH]; intros drawn smooth; cbn zeta.
  - cbn. repeat split; auto.
  - cbn [nametag_loop]. destruct (cap <=? drawn).
    { cbn. repeat split; auto. }
    destruct (skipped_as_dashes it); [apply IH|].
    destruct (project v (headPos it)) as [[x y]|]; [|apply IH].
    pose proof (smooth_nametag_NoDup smooth (name it) x y alpha now) as Hn.
    pose proof (smooth_nametag_fresh smooth (name it) x y alpha now) as Hf.
    pose proof (fun k' =>
      @smooth_nametag_keeps_fresh smooth (name it) k' x y alpha now) as Hk.
    destruct (smooth_nametag smooth (name it) x y alpha now) as [smooth' at_].
    cbn [fst] in *.
    destruct (IH (drawn + 1) smooth') as (H1 & H2 & H3). cbn zeta in *.
    destruct (nametag_loop v alpha now cap rest (drawn + 1) smooth')
      as [tags smooth''].
    cbn [fst snd] in *. split; [auto|]. split; [auto|].
    constructor; [|exact H3]. cbn [fst]. now apply H2.
Qed.

(** X16.  The smoothing table keeps one entry per name: when the keys of
    [s_nametagSmooth] are distinct before a frame they are distinct after
    it; and every tag the frame has drawn has an entry in the table with
    its name and the time stamp of the frame. *)
Theorem X16_smoothing_table_keeps_one_entry_per_name
    (nametags sharedCamFound : bool) (v : Camera) (DeltaTime : F)
    (overlayNowMs nametagMaxCount : Z) (playerSnap : list PlayerData121)
    (s_nametagSmooth : list (@SmoothedPoint F)) :
  NoDup (keys s_nametagSmooth) ->
  let r := nametag_frame nametags sharedCamFound v DeltaTime overlayNowMs
             nametagMaxCount playerSnap s_nametagSmooth in
  NoDup (keys (snd r))
  /\ Forall (fun tag : Tag => fresh overlayNowMs (snd r) (fst tag)) (fst r).
Proof.
  intros H. cbn zeta. unfold nametag_frame.
  apply (evict_stale_NoDup overlayNowMs) in H.
  destruct (nametags && sharedCamFound && matsOk v).
  - destruct (nametag_loop_smooth v (overlaySmoothAlpha DeltaTime) overlayNowMs
                (nametagRenderCap nametagMaxCount) playerSnap 0
                (evict_stale overlayNowMs s_nametagSmooth)) as (H1 & _ & H3).
    cbn zeta in *. split; [now apply H1|exact H3].
  - cbn. split; [exact H|constructor].
Qed.

(** X17.  The eviction survives the wrap of the 32-bit tick counter: an
    entry last refreshed [e] milliseconds before the frame, with [e] below
    2^32, stays in the table exactly when [e] is at most 1200, whatever the
    tick count was. *)
Theorem X17_eviction_survives_tick_wrap
    (l : list (@SmoothedPoint F)) (p : @SmoothedPoint F) (t0 e : Z) :
  0 <= e < 2 ^ 32 ->
  lastSeenMs p = t0 mod 2 ^ 32 ->
  (In p (evict_stale ((t0 + e) mod 2 ^ 32) l) <-> In p l /\ e <= 1200).
Proof.
  intros He Hp. unfold evict_stale. rewrite filter_In.
  assert (Hd : dword_sub ((t0 + e) mod 2 ^ 32) (lastSeenMs p) = e).
  { unfold dword_sub. rewrite Hp, <- Zminus_mod.
    replace (t0 + e - t0) with e by ring. now apply Z.mod_small. }
  rewrite Hd. destruct (Z.ltb_spec 1200 e); cbn; split; intros [H1 H2];
    split; trivial; try lia; discriminate.
Qed.

End OverlayLoop.

(** The camera of the scenario accepts every point that is at least 0.1
    in front of it. *)
Lemma project_scenario_view (p : LegoVec3 R) :
  (Q2R 0.1 <= - vec_z p)%R ->
  exists xy, project OverlayScenario.view p = Some xy.
Proof.
  intros Hz. unfold project, WorldToScreen, to_screen, row3, row4, delta.
  cbn [matsOk cam viewMat projMat winW winH OverlayScenario.view m
       OverlayScenario.identity_matrix OverlayScenario.perspective_matrix
       Scenario.camera vec_x vec_y vec_z f32_add f32_sub f32_mul f32_div
       f64_sub to_f32 int_to_f32 lit32 flt isfinite RealOps negb orb].
  cbv zeta.
  match goal with
  | |- context [Rltb ?a (Q2R 0.1)] => replace a with (- vec_z p)%R by ring
  end.
  rewrite Rltb_false by exact Hz. eexists. reflexivity.
Qed.

(** X16, witness: a frame with two players in front of the camera and a
    table with two entries, for [Steve] and [Notch].  Both players are
    drawn; the entry of [Steve] is refreshed, the one of [Notch] stays and
    one for [Alex] is appended. *)
Lemma X16_two_players_witness :
  let r := nametag_frame true true OverlayScenario.view (Q2R 0.016) 5000 8
             [OverlayScenario.steve; OverlayScenario.alex]
             [OverlayScenario.entry 4000; OverlayScenario.notch_entry 4500] in
  map fst (fst r) = ["Steve"; "Alex"]%list
  /\ keys (snd r) = ["Steve"; "Notch"; "Alex"]%list
  /\ NoDup (keys (snd r))
  /\ Forall (fun tag : Tag => fresh 5000 (snd r) (fst tag)) (fst r).
Proof.
  cbv zeta. split; [|split].
  - unfold nametag_frame, evict_stale. cbn [andb matsOk OverlayScenario.view].
    cbn [filter lastSeenMs OverlayScenario.entry OverlayScenario.notch_entry].
    change (negb (1200 <? dword_sub 5000 4000)) with true.
    change (negb (1200 <? dword_sub 5000 4500)) with true. cbv iota.
    cbn [nametag_loop].
    change (nametagRenderCap 8 <=? 0) with false.
    change (skipped_as_dashes OverlayScenario.steve) with false.
    change (skipped_as_dashes OverlayScenario.alex) with false. cbv iota.
    destruct (project_scenario_view (headPos OverlayScenario.steve))
      as [[x1 y1] ->]; [unfold Q2R; cbn; lra|].
    cbn [smooth_nametag key OverlayScenario.entry name OverlayScenario.steve].
    change (("Steve" =? "Steve")%string) with true. cbv iota zeta.
    change (nametagRenderCap 8 <=? 0 + 1) with false. cbv iota.
    destruct (project_scenario_view (headPos OverlayScenario.alex))
      as [[x2 y2] ->]; [unfold Q2R; cbn; lra|].
    reflexivity.
  - unfold nametag_frame, evict_stale. cbn [andb matsOk OverlayScenario.view].
    cbn [filter lastSeenMs OverlayScenario.entry OverlayScenario.notch_entry].
    change (negb (1200 <? dword_sub 5000 4000)) with true.
    change (negb (1200 <? dword_sub 5000 4500)) with true. cbv iota.
    cbn [nametag_loop].
    change (nametagRenderCap 8 <=? 0) with false.
    change (skipped_as_dashes OverlayScenario.steve) with false.
    change (skipped_as_dashes OverlayScenario.alex) with false. cbv iota.
    destruct (project_scenario_view (headPos OverlayScenario.steve))
      as [[x1 y1] ->]; [unfold Q2R; cbn; lra|].
    cbn [smooth_nametag key OverlayScenario.entry name OverlayScenario.steve].
    change (("Steve" =? "Steve")%string) with true. cbv iota zeta.
    change (nametagRenderCap 8 <=? 0 + 1) with false. cbv iota.
    destruct (project_scenario_view (headPos OverlayScenario.alex))
      as [[x2 y2] ->]; [unfold Q2R; cbn; lra|].
    reflexivity.
  - apply (@X16_smoothing_table_keeps_one_entry_per_name R RealOps true true
             OverlayScenario.view (Q2R 0.016) 5000 8
             [OverlayScenario.steve; OverlayScenario.alex]
             [OverlayScenario.entry 4000; OverlayScenario.notch_entry 4500]).
    cbn. constructor; [|constructor; [now intros []|constructor]].
    intros [H|[]]. discriminate H.
Defined.

(** X17, witness: an entry refreshed 296 ms before the counter wraps is
    still there 1000 ms later, at tick 704. *)
Lemma X17_wrap_witness :
  In (OverlayScenario.entry 4294967000)
     (evict_stale ((4294967000 + 1000) mod 2 ^ 32)
        [OverlayScenario.entry 4294967000])
  <-> In (OverlayScenario.entry 4294967000) [OverlayScenario.entry 4294967000]
      /\ 1000 <= 1200.
Proof.
  apply (@X17_eviction_survives_tick_wrap R
           [OverlayScenario.entry 4294967000]
           (OverlayScenario.entry 4294967000) 4294967000 1000).
  - lia.
  - reflexivity.
Defined.

End OverlayFacts.

(* ===================================================================== *)
(** * What discovery leaves for its users *)
(* ===================================================================== *)

Module ReadyFacts.

Import Jni.
Import Bridge121.
Import Bridge121Ready.
Import RetryFacts.
Import Str.

Lemma flags_set_if_unresolved r v c :
  g_stateJniReady (set_if_unresolved r v c) = g_stateJniReady c
  /\ g_chatJniReady (set_if_unresolved r v c) = g_chatJniReady c.
Proof. unfold set_if_unresolved. now destruct (unresolved c r). Qed.

(** Rewriting the writes of roles away under a flag. *)
Ltac frame_flags :=
  repeat first
    [ rewrite (proj1 (flags_set_if_unresolved _ _ _))
    | rewrite (proj2 (flags_set_if_unresolved _ _ _))
    | progress cbn [g_stateJniReady g_chatJniReady set_role]
    | reflexivity
    | match goal with
      | |- context [match ?x with _ => _ end] => destruct x
      end ].

Lemma store_render_roles_flags h gcl mcClass c :
  g_stateJniReady (store_render_roles h gcl mcClass c) = g_stateJniReady c
  /\ g_chatJniReady (store_render_roles h gcl mcClass c) = g_chatJniReady c.
Proof.
  unfold store_render_roles, matrix_fields. cbn [fold_left fst snd].
  split; frame_flags.
Qed.

(** The roles that the ready flags speak of. *)
Lemma store_render_roles_frame h gcl mcClass c r :
  r = g_mcInstance \/ r = g_screenField \/ r = g_setScreenMethod
  \/ r = g_chatScreenClass \/ r = g_chatScreenCtor ->
  role (store_render_roles h gcl mcClass c) r = role c r.
Proof.
  unfold store_render_roles, matrix_fields. cbn [fold_left fst snd].
  intros [->|[->|[->|[->| ->]]]]; frame_roles.
Qed.

Lemma resolved_frame h gcl mcClass c r :
  r = g_mcInstance \/ r = g_screenField \/ r = g_setScreenMethod
  \/ r = g_chatScreenClass \/ r = g_chatScreenCtor ->
  resolved (store_render_roles h gcl mcClass c) r = resolved c r.
Proof.
  intros H. unfold resolved. now rewrite store_render_roles_frame.
Qed.

(** A pass that succeeds sets the flags from the handles it leaves. *)
Lemma resolve_roles_ready h gcl mcClass mcInst c :
  ready_ok (resolve_roles h gcl mcClass mcInst c).
Proof.
  unfold resolve_roles.
  destruct (fold_left (screen_step h mcClass) (mcFields_of h mcClass)
              (c, EmptyString)) as [c1 screenType].
  set (c2 := match screenType with
             | EmptyString => c1
             | _ => find_chatScreen h gcl screenType
                      (find_setScreen h mcClass screenType c1)
             end).
  set (c3 := set_role g_mcInstance (Some mcInst) c2).
  unfold ready_ok.
  destruct (store_render_roles_flags h gcl mcClass
              (set_ready (resolved c3 g_screenField)
                 (resolved c3 g_setScreenMethod && resolved c3 g_chatScreenClass
                  && resolved c3 g_chatScreenCtor) c3)) as [-> ->].
  rewrite !resolved_frame by tauto.
  cbn [g_stateJniReady g_chatJniReady set_ready].
  assert (Hinst : resolved (set_ready (resolved c3 g_screenField)
                     (resolved c3 g_setScreenMethod
                      && resolved c3 g_chatScreenClass
                      && resolved c3 g_chatScreenCtor) c3) g_mcInstance = true).
  { unfold resolved, c3. cbn [role set_ready set_role].
    now destruct (Role_eq_dec g_mcInstance g_mcInstance). }
  unfold resolved in *. cbn [role set_ready] in *.
  split.
  - intros ->. now split.
  - intros H. apply andb_prop in H. destruct H as [H H3].
    apply andb_prop in H. destruct H as [H1 H2]. now repeat split.
Qed.

Lemma ready_ok_loader gcl c :
  ready_ok c -> ready_ok (set_if_unresolved g_gameClassLoader (Some gcl) c).
Proof.
  unfold ready_ok, resolved.
  destruct (flags_set_if_unresolved g_gameClassLoader (Some gcl) c)
    as [-> ->].
  now rewrite !role_set_if_unresolved_other by discriminate.
Qed.

Lemma pass_ready h c :
  ready_ok c -> ready_ok (fst (DiscoverJniMappings h c)).
Proof.
  intros Hc. unfold DiscoverJniMappings.
  destruct (negb (GetEnv_JVMTI h)); [exact Hc|].
  destruct (GetGameClassLoader h) as [gcl|]; [|exact Hc].
  pose proof (ready_ok_loader gcl Hc) as Hl.
  destruct (find_mcClass h gcl) as [[mcClass mcName]|]; [|exact Hl].
  destruct (find_singletonField h mcClass mcName) as [sf|]; [|exact Hl].
  destruct (GetStaticObjectField h mcClass sf) as [mcInst|]; [|exact Hl].
  apply resolve_roles_ready.
Qed.

Lemma retry_loop_ready hosts left : forall k c,
  ready_ok c -> ready_ok (fst (retry_loop hosts k left c)).
Proof.
  induction left as [|left IH]; intros k c Hc; [exact Hc|].
  cbn [retry_loop]. pose proof (@pass_ready (hosts k) c Hc) as Hp.
  destruct (DiscoverJniMappings (hosts k) c) as [c' [|]]; [exact Hp|].
  specialize (IH (S k) c' Hp).
  now destruct (retry_loop hosts (S k) left c').
Qed.

(** X18.  Whatever the host answers and however many passes run, the
    globals that [MainThread] leaves satisfy: when [g_stateJniReady] is set,
    the screen field and the root instance are not null; when
    [g_chatJniReady] is set, the [setScreen] method, the chat screen class,
    its constructor and the root instance are not null. *)
Theorem X18_ready_flags_imply_handles (denv : bool) (hosts : nat -> Host) :
  let c := fst (MainThread_discovery denv hosts) in
  (g_stateJniReady c = true ->
   resolved c g_screenField = true /\ resolved c g_mcInstance = true)
  /\ (g_chatJniReady c = true ->
      resolved c g_setScreenMethod = true
      /\ resolved c g_chatScreenClass = true
      /\ resolved c g_chatScreenCtor = true
      /\ resolved c g_mcInstance = true).
Proof.
  cbn zeta. change (ready_ok (fst (MainThread_discovery denv hosts))).
  unfold MainThread_discovery.
  assert (H0 : ready_ok Cache_initial) by (split; discriminate).
  destruct denv; [|exact H0].
  pose proof (@retry_loop_ready hosts 5 0%nat Cache_initial H0) as H.
  now destruct (retry_loop hosts 0 5 Cache_initial).
Qed.

Lemma first_some_map {A B} (f : A -> option B) l y :
  first_some (map f l) = Some y -> exists x, In x l /\ f x = Some y.
Proof.
  induction l as [|a l IH]; [discriminate|]. cbn.
  destruct (f a) as [b|] eqn:E.
  - intros H. injection H as <-. exists a. split; [now left|exact E].
  - intros H. destruct (IH H) as (x & Hin & Hx). exists x.
    split; [now right|exact Hx].
Qed.

Lemma chat_by_scan_one_Some h screenCls x cls ctor :
  chat_by_scan_one h screenCls x = Some (cls, ctor) ->
  cls = x /\ scan_ctor h x = Some ctor
  /\ (contains (GetClassNameFromClass h (Some x)) "Chat"
      || contains (GetClassNameFromClass h (Some x)) "chat") = true.
Proof.
  unfold chat_by_scan_one, scan_ctor.
  destruct (negb _); [discriminate|].
  destruct (first_some _) as [k|]; [|discriminate].
  destruct (_ || _); [|discriminate].
  intros H. injection H as <- <-. now repeat split.
Qed.

(** X19.  When no chat screen class is found by name, [find_chatScreen]
    leaves [g_chatCtorKind] as it was, whatever constructor its scan of the
    loaded classes stores; and that is, for the class it takes, the
    constructor with a [String] parameter when there is one, the one
    without parameters otherwise. *)
Theorem X19_scan_fallback_leaves_the_constructor_kind
    (h : Host) (gcl : Handle) (screenType : string) (c : Cache) :
  first_some (map (chat_by_name h gcl) knownChat) = None ->
  role c g_chatScreenClass = None ->
  let c' := find_chatScreen h gcl screenType c in
  g_chatCtorKind c' = g_chatCtorKind c
  /\ forall cls, role c' g_chatScreenClass = Some cls ->
       In cls (GetLoadedClasses h)
       /\ role c' g_chatScreenCtor = scan_ctor h cls
       /\ scan_ctor h cls <> None.
Proof.
  intros Hname Hc. cbn zeta. unfold find_chatScreen. rewrite Hname.
  unfold unresolved, resolved. rewrite Hc. cbn [negb].
  destruct (first_some (map _ (GetLoadedClasses h))) as [[cls ctor]|] eqn:Hscan.
  - split; [reflexivity|]. intros cls' Hcls.
    rewrite role_set_role_other in Hcls by discriminate.
    unfold set_role in Hcls at 1. cbn [role] in Hcls.
    destruct (Role_eq_dec g_chatScreenClass g_chatScreenClass);
      [|congruence].
    injection Hcls as <-.
    apply first_some_map in Hscan. destruct Hscan as (x & Hin & Hx).
    apply chat_by_scan_one_Some in Hx. destruct Hx as (-> & Hctor & _).
    split; [exact Hin|]. rewrite Hctor. split; [|discriminate].
    unfold set_role. cbn [role].
    now destruct (Role_eq_dec g_chatScreenCtor g_chatScreenCtor).
  - split; [reflexivity|]. intros cls Hcls. congruence.
Qed.

(** X19, witness: on the host [chat_by_scan_only] the first pass stores the
    constructor of [x.ChatBox] that takes a [String], and [g_chatCtorKind]
    stays 0, for which [OpenChatScreen] passes no argument. *)
Lemma X19_string_constructor_kind_0_witness :
  let c' := find_chatScreen DiscoveryScenario.chat_by_scan_only (Obj 0)
              "x.Screen" Cache_initial in
  role c' g_chatScreenCtor
    = Some (Mth "x.ChatBox" "<init>" "(Ljava/lang/String;)V")
  /\ NewObject_args (g_chatCtorKind c') = Some []
  /\ (g_chatCtorKind c' = g_chatCtorKind Cache_initial
      /\ forall cls, role c' g_chatScreenClass = Some cls ->
           In cls (GetLoadedClasses DiscoveryScenario.chat_by_scan_only)
           /\ role c' g_chatScreenCtor
              = scan_ctor DiscoveryScenario.chat_by_scan_only cls
           /\ scan_ctor DiscoveryScenario.chat_by_scan_only cls <> None).
Proof.
  split; [reflexivity|]. split; [reflexivity|].
  apply (@X19_scan_fallback_leaves_the_constructor_kind
           DiscoveryScenario.chat_by_scan_only (Obj 0) "x.Screen"
           Cache_initial); reflexivity.
Defined.

(* ---- the class loader ---- *)

Lemma Bridge_loader_found_121 threads cl :
  Bridge.GetGameClassLoader_loop threads = Some cl ->
  exists cl', GetGameClassLoader_loop threads = Some cl'.
Proof.
  induction threads as [|t rest IH]; [discriminate|].
  cbn [Bridge.GetGameClassLoader_loop GetGameClassLoader_loop].
  unfold is_game_thread.
  destruct (contains (thr_name t) "Client thread").
  - intros ->. rewrite orb_true_r. cbn. now exists cl.
  - intros H. destruct (IH H) as (cl' & Hcl').
    destruct (_ || _); [|now exists cl'].
    destruct (thr_loader t) as [cl0|]; [now exists cl0|now exists cl'].
Qed.

(** X20.  Whenever [GetGameClassLoader] of bridge.cpp finds a class loader,
    that of bridge_121.cpp finds one too.  The converse fails: bridge.cpp
    stops at the first [Client thread], with or without a loader, while
    bridge_121.cpp goes on to the next thread and also takes a [Render
    thread] or [main]. *)
Theorem X20_bridge121_finds_a_loader_where_bridge_cpp_does :
  (forall h cl,
     Bridge.GetGameClassLoader h = Some cl ->
     exists cl', GetGameClassLoader h = Some cl')
  /\ Bridge.GetGameClassLoader DiscoveryScenario.two_threads = None
  /\ GetGameClassLoader DiscoveryScenario.two_threads = Some (Obj 7).
Proof.
  split; [|split; reflexivity].
  intros h cl. apply Bridge_loader_found_121.
Qed.

(* ---- type signatures ---- *)

Lemma replace_char_app a b s t :
  replace_char a b (s ++ t) = replace_char a b s ++ replace_char a b t.
Proof. induction s as [|c s IH]; cbn; [reflexivity|now rewrite IH]. Qed.

Lemma replace_char_length a b s :
  String.length (replace_char a b s) = String.length s.
Proof. induction s as [|c s IH]; cbn; [reflexivity|now rewrite IH]. Qed.

Lemma replace_char_back s :
  all (fun c => negb (Ascii.eqb c "/")) s = true ->
  replace_char "/" "." (replace_char "." "/" s) = s.
Proof.
  induction s as [|c s IH]; [reflexivity|]. cbn. intros H.
  apply andb_prop in H. destruct H as [Hc Hs]. rewrite (IH Hs).
  destruct (Ascii.eqb_spec c ".") as [E|_]; [subst c; reflexivity|].
  apply negb_true_iff in Hc. now rewrite Hc.
Qed.

Lemma last_char_app s c : last_char (s ++ String c EmptyString) = Some c.
Proof.
  induction s as [|a s IH]; [reflexivity|]. cbn [append last_char].
  rewrite IH. now destruct (s ++ String c EmptyString) eqn:E;
    [destruct s; discriminate|].
Qed.

(** X21.  The type name that [FindFieldByType] reads off a signature is
    the name the signature was built from: for a class name that is not
    empty and has no slash, [expected_name (sig_of tn)] is [tn]. *)
Theorem X21_signature_names_its_class (tn : string) :
  tn <> EmptyString ->
  all (fun c => negb (Ascii.eqb c "/")) tn = true ->
  expected_name (sig_of tn) = tn.
Proof.
  intros Hne Hs. unfold sig_of.
  change ("L" ++ tn ++ ";") with (String "L" (tn ++ ";")).
  cbn [replace_char]. change (Ascii.eqb "L" ".") with false. cbv iota.
  rewrite replace_char_app. cbn [replace_char].
  change (Ascii.eqb ";" ".") with false. cbv iota.
  set (r := replace_char "." "/" tn).
  assert (Hlen : String.length r = String.length tn)
    by apply replace_char_length.
  unfold expected_name.
  change (String "L" (r ++ ";")) with (String "L" (r ++ String ";" EmptyString)).
  cbn [String.length].
  rewrite AppendFacts.length_append. cbn [String.length].
  assert (Hpos : (0 < String.length tn)%nat) by (destruct tn; [congruence|cbn; lia]).
  replace (2 <? S (String.length r + 1))%nat with true
    by (symmetry; apply Nat.ltb_lt; lia).
  change (last_char (String "L" (r ++ String ";" EmptyString)))
    with (last_char (String "L" r ++ String ";" EmptyString)).
  rewrite last_char_app. rewrite Ascii.eqb_refl. cbn [andb].
  replace (S (String.length r + 1) - 2)%nat with (String.length r) by lia.
  rewrite AppendFacts.take_app. unfold r. now apply replace_char_back.
Qed.

(** X21, witness: the signature of the game renderer class. *)
Lemma X21_game_renderer_witness :
  expected_name (sig_of "net.minecraft.class_757") = "net.minecraft.class_757".
Proof.
  apply (@X21_signature_names_its_class "net.minecraft.class_757").
  - discriminate.
  - reflexivity.
Defined.

(* ---- the singleton field ---- *)

Lemma fold_last {A B} (p : A -> bool) (g : A -> B) (step : B -> A -> B) :
  (forall acc x, step acc x = if p x then g x else acc) ->
  forall l acc, fold_left step l acc = last (map g (filter p l)) acc.
Proof.
  intros Hstep. induction l as [|x l IH]; intros acc; [reflexivity|].
  cbn [fold_left filter]. rewrite IH, Hstep. destruct (p x); [|reflexivity].
  cbn [map]. destruct (map g (filter p l)) eqn:E; [reflexivity|].
  cbn [last]. clear. revert b. induction l0 as [|y l0 IH]; intros b; [reflexivity|].
  cbn [last]. destruct l0; [reflexivity|]. apply (IH y).
Qed.

(** X22.  Step 2 of discovery, in both bridges, takes the last static
    field of the root class whose type is the root class itself: the
    singleton field is the result of [GetStaticFieldID] for that field,
    also when it is null and an earlier such field had resolved; it is null
    when there is no such field. *)
Theorem X22_the_last_self_typed_static_field_decides
    (h : Host) (mcClass : Handle) (mcName : string) :
  find_singletonField h mcClass mcName
  = last (map (fun fld => GetStaticFieldID h mcClass (fld_name fld)
                            (sig_of mcName))
            (filter (is_self_field h mcName) (mcFields_of h mcClass))) None
  /\ Bridge.find_singletonField h mcClass mcName
     = find_singletonField h mcClass mcName.
Proof.
  split.
  - unfold find_singletonField. apply fold_last.
    intros acc fld. unfold singleton_step, is_self_field.
    now destruct (fld_type fld).
  - reflexivity.
Qed.

End ReadyFacts.

(* ===================================================================== *)
(** * Messages that do not parse *)
(* ===================================================================== *)

Module ThrowFacts.

Import Str.
Import ConfigFacts.
Import Bridge(float_value, int_value, apply_keybind).

(** Running [ParseConfig] statement by statement, with a case for every
    number read. *)
Ltac run_ParseConfig :=
  unfold Bridge.ParseConfig, Bridge.bind, Bridge.assign, Bridge.ret;
  repeat first
    [ rewrite getFloat_run
    | rewrite keybind_run
    | match goal with
      | |- context [float_value ?l ?k] =>
          destruct (float_value l k) eqn:?
      | |- context [int_value ?l ?k] =>
          destruct (int_value l k) eqn:?
      end
    | progress cbv beta iota ].

Section Generic.

Context {F : Type} {ops : FloatOps F}.

(** X23.  [ParseConfig] of bridge.cpp, on a message of type [config],
    throws exactly when the text of one of its four rates is not accepted
    by [std::stof] or the text of one of its four keybinds is not accepted
    by [std::stoi]. *)
Theorem X23_ParseConfig_throws_on_a_malformed_number
    (line : string) (c : Bridge.Config F) :
  Bridge.getStr line "type" = "config" ->
  (snd (Bridge.ParseConfig line c) = None <->
   (exists f, float_value line (Bridge.float_key f) = None)
   \/ (exists f, int_value line (Bridge.int_key f) = None)).
Proof.
  intros Ht. split.
  - intros Hthrow.
    destruct (float_value line "minCPS") eqn:F1;
      [|left; now exists Bridge.minCPS].
    destruct (float_value line "maxCPS") eqn:F2;
      [|left; now exists Bridge.maxCPS].
    destruct (float_value line "rightMinCPS") eqn:F3;
      [|left; now exists Bridge.rightMinCPS].
    destruct (float_value line "rightMaxCPS") eqn:F4;
      [|left; now exists Bridge.rightMaxCPS].
    destruct (int_value line "keybindAutoclicker") eqn:I1;
      [|right; now exists Bridge.keybindAutoclicker].
    destruct (int_value line "keybindNametags") eqn:I2;
      [|right; now exists Bridge.keybindNametags].
    destruct (int_value line "keybindClosestPlayer") eqn:I3;
      [|right; now exists Bridge.keybindClosestPlayer].
    destruct (int_value line "keybindChestEsp") eqn:I4;
      [|right; now exists Bridge.keybindChestEsp].
    exfalso. rewrite (@ParseConfig_no_throw F ops line c) in Hthrow;
      [discriminate| |].
    + intros fld. destruct fld; cbn [Bridge.float_key]; congruence.
    + intros fld. destruct fld; cbn [Bridge.int_key]; congruence.
  - apply String.eqb_eq in Ht.
    intros [[f Hf]|[f Hf]]; destruct f; cbn [Bridge.float_key Bridge.int_key] in Hf;
      run_ParseConfig; rewrite ?Ht; run_ParseConfig; cbn [snd];
      try reflexivity; congruence.
Qed.

(** X24.  When the [minCPS] of a [config] message is not accepted by
    [std::stof], [ParseConfig] of bridge.cpp has written [armed] and
    [clicking] and nothing else when the exception leaves it, and none of
    the lines that follow on the connection is handled. *)
Theorem X24_a_malformed_rate_leaves_a_partial_update
    (line : string) (rest : list string) (c : Bridge.Config F) :
  Bridge.getStr line "type" = "config" ->
  float_value line "minCPS" = None ->
  Bridge.ParseConfig_all (line :: rest) c
  = (Bridge.set_bool Bridge.clicking (Bridge.getBool line "clicking")
       (Bridge.set_bool Bridge.armed (Bridge.getBool line "armed") c),
     None).
Proof.
  intros Ht Hf. apply String.eqb_eq in Ht.
  cbn [Bridge.ParseConfig_all]. unfold Bridge.bind at 1.
  unfold Bridge.ParseConfig. rewrite Ht.
  unfold Bridge.bind, Bridge.assign. rewrite getFloat_run, Hf. reflexivity.
Qed.

End Generic.

(** X23, witness: the message [bad_rate] throws. *)
Lemma X23_bad_rate_witness :
  snd (Bridge.ParseConfig (ops := RealOps) BadMessages.bad_rate
         Bridge.Config_default) = None
  <-> (exists f, float_value (ops := RealOps) BadMessages.bad_rate
                   (Bridge.float_key f) = None)
      \/ (exists f, int_value BadMessages.bad_rate (Bridge.int_key f) = None).
Proof.
  apply (@X23_ParseConfig_throws_on_a_malformed_number R RealOps
           BadMessages.bad_rate Bridge.Config_default).
  reflexivity.
Defined.

(** X24, witness: after [bad_rate], [armed] is set and the message that
    follows is not handled. *)
Lemma X24_bad_rate_witness :
  Bridge.ParseConfig_all (ops := RealOps)
    [BadMessages.bad_rate; Messages.armed_only] Bridge.Config_default
  = (Bridge.set_bool Bridge.clicking
       (Bridge.getBool BadMessages.bad_rate "clicking")
       (Bridge.set_bool Bridge.armed
          (Bridge.getBool BadMessages.bad_rate "armed")
          Bridge.Config_default),
     None).
Proof.
  apply (@X24_a_malformed_rate_leaves_a_partial_update R RealOps
           BadMessages.bad_rate [Messages.armed_only] Bridge.Config_default);
    reflexivity.
Defined.

End ThrowFacts.

(* ===================================================================== *)
(** * Reading a field of a message *)
(* ===================================================================== *)

Module FieldFacts.

Import Str.
Import AppendFacts.
Import Fields.

Lemma first_of_app set v d t :
  all (not_in set) v = true -> existsb (Ascii.eqb d) set = true ->
  first_of set (v ++ String d t) = Some (String.length v).
Proof.
  intros Hv Hd. induction v as [|c v IH]; cbn.
  - now rewrite Hd.
  - cbn in Hv. apply andb_prop in Hv. destruct Hv as [Hc Hv].
    unfold not_in in Hc. apply negb_true_iff in Hc. rewrite Hc.
    now rewrite (IH Hv).
Qed.

Lemma first_of_None set s : first_of set s = None -> all (not_in set) s = true.
Proof.
  induction s as [|c s IH]; [reflexivity|]. cbn. unfold not_in at 1.
  destruct (existsb (Ascii.eqb c) set); [discriminate|].
  destruct (first_of set s); [discriminate|]. intros _. now apply IH.
Qed.

Lemma take_drop n s : s = take n s ++ drop n s.
Proof.
  revert s. induction n as [|n IH]; intros s; [reflexivity|].
  destruct s as [|c s]; [reflexivity|]. cbn. now rewrite <- IH.
Qed.

(** X25.  Reading inverts writing, for a text value: in a message where
    the first occurrence of the key is followed by [v] between quotes, [v]
    having no quote, [getStr] of either bridge returns [v]. *)
Theorem X25_getStr_reads_a_quoted_value (pre key v post : string) :
  all (not_in [dq]) v = true ->
  find (pre ++ Bridge.key_pattern key ++ quoted v ++ post)
       (Bridge.key_pattern key) = Some (String.length pre) ->
  Bridge.getStr (pre ++ Bridge.key_pattern key ++ quoted v ++ post) key = v
  /\ Bridge121.getStr (pre ++ Bridge.key_pattern key ++ quoted v ++ post) key
     = v.
Proof.
  intros Hq Hf. unfold Bridge.getStr, Bridge121.getStr.
  change (Bridge121.key_pattern key) with (Bridge.key_pattern key).
  cbv zeta. rewrite Hf.
  rewrite <- (length_append pre), <- append_assoc, drop_app.
  unfold quoted. cbn [append]. rewrite Ascii.eqb_refl.
  rewrite append_assoc. cbn [append].
  rewrite (@first_of_app [dq] v dq post Hq eq_refl).
  now rewrite take_app.
Qed.

(** X25, witness: the type of a settings message. *)
Lemma X25_type_field_witness :
  Bridge.getStr ("{" ++ Bridge.key_pattern "type" ++ quoted "config" ++ "}")
    "type" = "config"
  /\ Bridge121.getStr
       ("{" ++ Bridge.key_pattern "type" ++ quoted "config" ++ "}") "type"
     = "config".
Proof.
  apply (@X25_getStr_reads_a_quoted_value "{" "type" "config" "}");
    reflexivity.
Defined.

(** X26.  Reading inverts writing, for a bare value such as a number or
    [true]: in a message where the first occurrence of the key is followed
    by a text [v] that is not empty, has no comma and no closing brace and
    does not start with a quote, and then by a comma or a closing brace,
    [getStr] of either bridge returns [v]. *)
Theorem X26_getStr_reads_a_bare_value
    (pre key v post : string) (sep : ascii) :
  v <> EmptyString ->
  starts_with v (String dq EmptyString) = false ->
  all (not_in [","%char; "}"%char]) v = true ->
  existsb (Ascii.eqb sep) [","%char; "}"%char] = true ->
  find (pre ++ Bridge.key_pattern key ++ v ++ String sep post)
       (Bridge.key_pattern key) = Some (String.length pre) ->
  Bridge.getStr (pre ++ Bridge.key_pattern key ++ v ++ String sep post) key = v
  /\ Bridge121.getStr
       (pre ++ Bridge.key_pattern key ++ v ++ String sep post) key = v.
Proof.
  intros Hne Hq Hv Hsep Hf. unfold Bridge.getStr, Bridge121.getStr.
  change (Bridge121.key_pattern key) with (Bridge.key_pattern key).
  cbv zeta. rewrite Hf.
  rewrite <- (length_append pre), <- append_assoc, drop_app.
  destruct v as [|c v]; [congruence|]. cbn [append].
  assert (Hc : Ascii.eqb c dq = false).
  { destruct (Ascii.eqb_spec c dq) as [E|_]; [|reflexivity]. subst c.
    unfold starts_with, find in Hq. cbn in Hq.
    now destruct v. }
  rewrite Hc.
  change (String c (v ++ String sep post))
    with (String c v ++ String sep post).
  rewrite (@first_of_app [","%char; "}"%char] (String c v) sep post Hv Hsep).
  now rewrite take_app.
Qed.

(** X26, witness: the [armed] field of [bad_rate]. *)
Lemma X26_armed_field_witness :
  Bridge.getStr
    (("{" ++ quoted "type" ++ ":" ++ quoted "config" ++ ",")
     ++ Bridge.key_pattern "armed" ++ "true"
     ++ String "," (quoted "minCPS" ++ ":fast}")) "armed" = "true"
  /\ Bridge121.getStr
       (("{" ++ quoted "type" ++ ":" ++ quoted "config" ++ ",")
        ++ Bridge.key_pattern "armed" ++ "true"
        ++ String "," (quoted "minCPS" ++ ":fast}")) "armed" = "true".
Proof.
  apply (@X26_getStr_reads_a_bare_value
           ("{" ++ quoted "type" ++ ":" ++ quoted "config" ++ ",")
           "armed" "true" (quoted "minCPS" ++ ":fast}") ",");
    try reflexivity.
  discriminate.
Defined.

Lemma first_of_all set s : all (not_in set) s = true -> first_of set s = None.
Proof.
  induction s as [|c s IH]; [reflexivity|]. cbn. intros H.
  apply andb_prop in H. destruct H as [Hc Hs].
  unfold not_in in Hc. apply negb_true_iff in Hc. rewrite Hc.
  now rewrite (IH Hs).
Qed.

Lemma substring_take_drop p n s : substring p n s = take n (drop p s).
Proof.
  revert p n. induction s as [|c s IH]; intros p n.
  - destruct p, n; reflexivity.
  - destruct p as [|p]; [|cbn; apply IH].
    destruct n as [|n]; [reflexivity|]. cbn. f_equal.
    rewrite (IH 0%nat n). reflexivity.
Qed.

Lemma take_add p n s : take (p + n) s = take p s ++ take n (drop p s).
Proof.
  revert s. induction p as [|p IH]; intros s; [reflexivity|].
  destruct s as [|c s]; [now destruct n|]. cbn. now rewrite IH.
Qed.

(** Where [find] finds a key, the line is what stands before it, the key,
    and the rest. *)
Lemma find_split line c k p :
  find line (String c k) = Some p ->
  line = take p line ++ String c k ++ drop (p + String.length (String c k)) line
  /\ String.length (take p line) = p.
Proof.
  intros H. pose proof (@TextFacts.find_bound line c k p H) as Hb.
  unfold find in H. apply index_correct1 in H.
  rewrite substring_take_drop in H.
  remember (String.length (String c k)) as n eqn:Hn. split.
  - rewrite <- H, <- append_assoc, <- take_add. apply take_drop.
  - rewrite TextFacts.take_length. lia.
Qed.

(** X27.  The two bridges read a field alike, with one exception.  In a
    message where the first occurrence of the key is followed by a quote and
    a text without a further quote, so that the value is never closed,
    [getStr] of bridge.cpp returns that text and [getStr] of bridge_121.cpp
    the empty text; and whenever the two differ, the message is of this
    shape. *)
Theorem X27_getStr_differs_on_an_unclosed_quote :
  (forall pre key after,
     all (not_in [dq]) after = true ->
     find (pre ++ Bridge.key_pattern key ++ String dq after)
          (Bridge.key_pattern key) = Some (String.length pre) ->
     Bridge.getStr (pre ++ Bridge.key_pattern key ++ String dq after) key
       = after
     /\ Bridge121.getStr (pre ++ Bridge.key_pattern key ++ String dq after) key
        = EmptyString)
  /\ (forall line key,
        Bridge121.getStr line key <> Bridge.getStr line key ->
        exists pre after,
          line = pre ++ Bridge.key_pattern key ++ String dq after
          /\ find line (Bridge.key_pattern key) = Some (String.length pre)
          /\ all (not_in [dq]) after = true
          /\ after <> EmptyString
          /\ Bridge.getStr line key = after
          /\ Bridge121.getStr line key = EmptyString).
Proof.
  split.
  - intros pre key after Hq Hf. unfold Bridge.getStr, Bridge121.getStr.
    change (Bridge121.key_pattern key) with (Bridge.key_pattern key).
    cbv zeta. rewrite Hf.
    rewrite <- (length_append pre), <- append_assoc, drop_app.
    rewrite Ascii.eqb_refl, (first_of_all _ _ Hq). now split.
  - intros line key. unfold Bridge.getStr, Bridge121.getStr.
    change (Bridge121.key_pattern key) with (Bridge.key_pattern key).
    cbv zeta.
    destruct (find line (Bridge.key_pattern key)) as [p|] eqn:Hf;
      [|congruence].
    destruct (@find_split line dq (key ++ String dq ":") p Hf) as [Hline Hlen].
    change (String dq (key ++ String dq ":")) with (Bridge.key_pattern key)
      in Hline.
    destruct (drop (p + String.length (Bridge.key_pattern key)) line)
      as [|c after]; [congruence|].
    destruct (Ascii.eqb_spec c dq) as [E|_]; [subst c|congruence].
    destruct (first_of [dq] after) eqn:Hfirst; [congruence|].
    intros Hne. exists (take p line), after.
    split; [exact Hline|]. split; [now rewrite Hlen|].
    split; [now apply first_of_None|]. split; [congruence|]. now split.
Qed.

(** X27, witness: a message cut off inside the value of [type]; bridge.cpp
    reads the type [config], bridge_121.cpp reads none. *)
Lemma X27_cut_off_type_witness :
  Bridge.getStr ("{" ++ Bridge.key_pattern "type" ++ String dq "config") "type"
    = "config"
  /\ Bridge121.getStr
       ("{" ++ Bridge.key_pattern "type" ++ String dq "config") "type"
     = EmptyString.
Proof.
  apply (proj1 X27_getStr_differs_on_an_unclosed_quote "{" "type" "config");
    reflexivity.
Defined.

End FieldFacts.

(* ===================================================================== *)
(** * The state line of bridge.cpp *)
(* ===================================================================== *)

Module StateLineFacts.

Import Str.
Import BridgeText.
Import BridgeState.
Import Framing.
Import AppendFacts.

Lemma line_safe_no_LF s : all line_safe s = true -> no_LF s = true.
Proof.
  apply StrFacts.all_impl. intros c H. unfold line_safe in H.
  apply negb_true_iff in H. apply orb_false_elim in H. destruct H as [H _].
  apply orb_false_elim in H. destruct H as [H _].
  unfold Framing.LF. now rewrite H.
Qed.

Lemma no_LF_app a b : no_LF (a ++ b) = no_LF a && no_LF b.
Proof. apply all_append. Qed.

Lemma no_LF_quoted s : no_LF s = true -> no_LF (quoted s) = true.
Proof.
  intros H. unfold quoted.
  change (String dq (s ++ String dq EmptyString))
    with (String dq EmptyString ++ s ++ String dq EmptyString).
  now rewrite !no_LF_app, H.
Qed.

Lemma no_LF_bool b : no_LF (bool_text b) = true.
Proof. now destruct b. Qed.

Section StateLine.

Context {F : Type}.
Variable to_string : F -> string.

(** X29.  Whatever the screen name is, the state line of bridge.cpp is one
    packet: its only line feed is its last byte, so a peer that cuts the
    stream at line feeds, as the bridge itself does, gets the whole line as
    one packet and nothing else.  ([std::to_string] writes no line feed,
    and neither does the render thread into its pending text.) *)
Theorem X29_state_line_is_one_packet
    (state : GameState (F := F)) (nametagsEnabled : bool)
    (g_pendingJson : string) :
  (forall x, no_LF (to_string x) = true) ->
  no_LF g_pendingJson = true ->
  let line := jsonToSend to_string state nametagsEnabled g_pendingJson in
  exists body,
    line = body ++ newline
    /\ no_LF body = true
    /\ drain (String.length line) line = ([body], EmptyString).
Proof.
  intros Hnum Hpend. cbn zeta.
  assert (Hent : no_LF (entitiesJson nametagsEnabled g_pendingJson) = true).
  { unfold entitiesJson. destruct nametagsEnabled; [|reflexivity].
    now destruct g_pendingJson. }
  assert (Hname : no_LF (quoted (JsonEscape (screenName state))) = true).
  { apply no_LF_quoted, line_safe_no_LF, JsonEscapeFacts.JsonEscape_line_safe. }
  set (line := jsonToSend to_string state nametagsEnabled g_pendingJson).
  set (body :=
    "{"
    ++ (quoted "mapped" ++ ":") ++ bool_text (mapped state) ++ ","
    ++ (quoted "guiOpen" ++ ":") ++ bool_text (guiOpen state) ++ ","
    ++ (quoted "screenName" ++ ":") ++ quoted (JsonEscape (screenName state))
    ++ ","
    ++ (quoted "health" ++ ":") ++ to_string (health state) ++ ","
    ++ (quoted "posX" ++ ":") ++ to_string (posX state) ++ ","
    ++ (quoted "posY" ++ ":") ++ to_string (posY state) ++ ","
    ++ (quoted "posZ" ++ ":") ++ to_string (posZ state) ++ ","
    ++ (quoted "holdingBlock" ++ ":") ++ bool_text (holdingBlock state) ++ ","
    ++ (quoted "entities" ++ ":")
    ++ entitiesJson nametagsEnabled g_pendingJson
    ++ "}").
  assert (Hline : line = body ++ newline).
  { unfold line, body, jsonToSend.
    change (String "}" newline) with ("}" ++ newline).
    now rewrite !append_assoc. }
  assert (Hbody : no_LF body = true).
  { unfold body. rewrite !no_LF_app, !Hnum, !no_LF_bool, Hname, Hent.
    reflexivity. }
  exists body. split; [exact Hline|]. split; [exact Hbody|].
  rewrite Hline.
  replace (body ++ newline) with (framed [body] ++ EmptyString)
    by (cbn [framed]; now rewrite append_nil_r).
  rewrite (@FramingFacts.drain_framed [body] EmptyString _);
    [|cbn [forallb]; now rewrite Hbody|reflexivity|lia].
  cbn [filter]. unfold body at 1. reflexivity.
Qed.

End StateLine.

(** X29, witness: a screen name with a quote and a line feed in it. *)
Lemma X29_odd_screen_name_witness :
  let line := jsonToSend StateScenario.zeros StateScenario.odd_screen true
                "[]" in
  exists body,
    line = body ++ newline
    /\ no_LF body = true
    /\ drain (String.length line) line = ([body], EmptyString).
Proof.
  apply (@X29_state_line_is_one_packet R StateScenario.zeros
           StateScenario.odd_screen true "[]").
  - intros x. reflexivity.
  - reflexivity.
Defined.

End StateLineFacts.
(* ===================================================================== *)
(** * Names on their way to the screen and to the controller *)
(* ===================================================================== *)

Module NameFacts.

Import Str Bridge StrFacts SanitizeFacts AppendFacts.
Import Bridge121 BridgeText Bridge121Text Bridge121Overlay Bridge121Names.

(** [pop_back] takes blanks only. *)
Lemma pop_blanks_split s :
  exists post, s = pop_blanks s ++ post /\ all blank post = true.
Proof.
  induction s as [|c s (post & E & Hb)]; [now exists EmptyString|].
  cbn [pop_blanks]. destruct (pop_blanks s) as [|a r] eqn:Hp.
  - cbn in E. subst post. destruct (blank c) eqn:Hc.
    + exists (String c s). split; [reflexivity|]. cbn. now rewrite Hc, Hb.
    + exists s. split; [reflexivity|exact Hb].
  - exists post. split; [|exact Hb]. cbn. f_equal. exact E.
Qed.

(** [erase(0, i)] takes blanks only. *)
Lemma erase_blanks_split s :
  exists pre, s = pre ++ erase_blanks s /\ all blank pre = true.
Proof.
  induction s as [|c s (pre & E & Hb)]; [now exists EmptyString|].
  cbn [erase_blanks]. destruct (blank c) eqn:Hc.
  - exists (String c pre). split; [cbn; f_equal; exact E|].
    cbn. now rewrite Hc, Hb.
  - now exists EmptyString.
Qed.

Lemma trim_split s :
  exists pre post,
    s = pre ++ trim s ++ post
    /\ all blank pre = true /\ all blank post = true.
Proof.
  destruct (pop_blanks_split s) as (post & E1 & H1).
  destruct (erase_blanks_split (pop_blanks s)) as (pre & E2 & H2).
  exists pre, post. split; [|now split].
  unfold trim. rewrite <- append_assoc, <- E2. exact E1.
Qed.

(** A name that is neither empty nor a dash after trimming is what
    [GetStablePlayerName] returns and what the player list stores. *)
Lemma player_name_trimmed (p : PlayerObj) (text : string) :
  env_and_player p = true -> g_getName_121 p = true ->
  getName_text p = Some text ->
  trim text <> EmptyString -> trim text <> "-" ->
  GetStablePlayerName p = trim text /\ player_name p = trim text.
Proof.
  intros He Hg Ht Hn Hd.
  assert (E : GetStablePlayerName p = trim text).
  { unfold GetStablePlayerName. rewrite He, Hg, Ht. cbn [negb]. cbv zeta.
    apply String.eqb_neq in Hn, Hd. now rewrite Hn, Hd. }
  split; [exact E|]. unfold player_name. rewrite E.
  destruct (trim text); [now elim Hn|reflexivity].
Qed.

(** The escaper of the state line leaves a text without quotes and
    backslashes as it is. *)
Lemma nameEsc_plain s :
  all (Fields.not_in [dq; bs]) s = true -> nameEsc s = s.
Proof.
  induction s as [|c s IH]; [reflexivity|]. cbn [all nameEsc]. intros H.
  apply andb_prop in H. destruct H as [Hc Hs].
  unfold Fields.not_in in Hc. cbn [existsb] in Hc.
  rewrite orb_false_r in Hc. apply negb_true_iff in Hc. rewrite Hc.
  now rewrite (IH Hs).
Qed.

(** The tags of a frame carry the stored names. *)
Lemma nametag_frame_names {F : Type} {ops : FloatOps F}
    (nametags sharedCamFound : bool) (v : Camera) (DeltaTime : F)
    (overlayNowMs nametagMaxCount : Z) (playerSnap : list PlayerData121)
    (s_nametagSmooth : list (@SmoothedPoint F)) :
  Forall (fun tag : Tag => exists it, In it playerSnap /\ fst tag = name it)
    (fst (nametag_frame nametags sharedCamFound v DeltaTime overlayNowMs
            nametagMaxCount playerSnap s_nametagSmooth)).
Proof.
  unfold nametag_frame. destruct (nametags && sharedCamFound && matsOk v).
  - destruct (OverlayFacts.nametag_loop_tags v (overlaySmoothAlpha DeltaTime)
                overlayNowMs (nametagRenderCap nametagMaxCount) playerSnap 0
                (evict_stale overlayNowMs s_nametagSmooth)) as [_ H].
    cbn zeta in H. eapply Forall_impl; [|exact H].
    intros tag (it & Hin & Hname & _). exists it. now split.
  - constructor.
Qed.

(** C10 (as the code has it).  For every input [StripMinecraftFormatting]
    of bridge.cpp returns only printable ASCII bytes (codes 32 to 126), at
    most 96 of them; a section sign, raw ([0xA7]) or in UTF-8
    ([0xC2 0xA7]), is dropped together with the format code byte that
    follows it, while printable bytes outside such a sequence are kept.
    bridge.cpp passes the entity name through it in [RenderNametags] and
    [RenderClosestPlayerInfo] and the display name of the held item in
    [GetHeldItemInfoFromStack].  bridge_121.cpp does not: the [trim] of
    [GetStablePlayerName] takes spaces, tabs, carriage returns and line
    feeds from the two ends only, a name that is neither empty nor a dash
    after that is stored as it is, every name tag of a frame carries a
    stored name, and the state line changes a name without quotes and
    backslashes in nothing. *)
Theorem C10_StripMinecraftFormatting_sanitizes :
  (forall s,
     let out := StripMinecraftFormatting s in
     all printable out = true /\
     (String.length out <= 96)%nat /\
     all (fun c => negb (is_A7 c) && negb (is_C2 c)) out = true) /\
  (forall a c rest, is_A7 a = true ->
     StripMinecraftFormatting (String a (String c rest)) =
     StripMinecraftFormatting rest) /\
  (forall b a c rest, is_C2 b = true -> is_A7 a = true ->
     StripMinecraftFormatting (String b (String a (String c rest))) =
     StripMinecraftFormatting rest) /\
  (forall c rest, printable c = true ->
     StripMinecraftFormatting (String c rest) =
     take 96 (String c (strip_loop rest))) /\
  (forall s, all printable s = true -> StripMinecraftFormatting s = take 96 s) /\
  (forall name,
     all printable (nametag_displayName name) = true /\
     all printable (closest_player_name name) = true /\
     all printable (heldRawName name) = true) /\
  (forall s, exists pre post,
     s = pre ++ trim s ++ post
     /\ all blank pre = true /\ all blank post = true) /\
  (forall (p : PlayerObj) text,
     env_and_player p = true -> g_getName_121 p = true ->
     getName_text p = Some text ->
     trim text <> EmptyString -> trim text <> "-" ->
     GetStablePlayerName p = trim text /\ player_name p = trim text) /\
  (forall (F : Type) (ops : FloatOps F) nametags sharedCamFound (v : Camera)
          (DeltaTime : F) overlayNowMs nametagMaxCount playerSnap
          s_nametagSmooth,
     Forall (fun tag : Tag =>
               exists it, In it playerSnap /\ fst tag = name it)
       (fst (nametag_frame nametags sharedCamFound v DeltaTime overlayNowMs
               nametagMaxCount playerSnap s_nametagSmooth))) /\
  (forall (F : Type) (ops : FloatOps F) (to_string : F -> string)
          (p : PlayerData121) projected (sx sy : F),
     all (Fields.not_in [dq; bs]) (name p) = true ->
     player_json to_string p projected sx sy
     = ("{" ++ quoted "sx" ++ ":")
       ++ to_string (if projected then sx else (- lit32 1)%f32)
       ++ ("," ++ quoted "sy" ++ ":")
       ++ to_string (if projected then sy else (- lit32 1)%f32)
       ++ ("," ++ quoted "dist" ++ ":") ++ to_string (dist p)
       ++ ("," ++ quoted "name" ++ ":") ++ quoted (name p)
       ++ ("," ++ quoted "hp" ++ ":") ++ to_string (hp p)
       ++ "}").
Proof.
  assert (Hprint : forall s, all printable (StripMinecraftFormatting s) = true).
  { intros s. rewrite Strip_take. apply all_take, strip_loop_printable. }
  split.
  { intros s out; subst out. split; [apply Hprint|]. split.
    - rewrite Strip_take. apply length_take.
    - eapply all_impl; [|apply Hprint].
      intros c Hc.
      now rewrite (printable_not_A7 _ Hc), (printable_not_C2 _ Hc). }
  split.
  { intros a c rest Ha. now rewrite !Strip_take, strip_loop_raw_sign. }
  split.
  { intros b a c rest Hb Ha. now rewrite !Strip_take, strip_loop_utf8_sign. }
  split.
  { intros c rest Hc. now rewrite Strip_take, strip_loop_keep. }
  split.
  { intros s Hs. now rewrite Strip_take, strip_loop_plain. }
  split.
  { intros name. split; [apply Hprint|].
    split; (destruct name; [apply Hprint | reflexivity]). }
  split; [exact trim_split|].
  split; [exact player_name_trimmed|].
  split; [intros; apply nametag_frame_names|].
  intros F ops to_string p projected sx sy Hp.
  unfold player_json. now rewrite (nameEsc_plain _ Hp).
Qed.

(** C10, counterexample.  In bridge_121.cpp a player whose name is the
    colour code for red followed by [Steve] keeps it: the player list
    stores the seven bytes, two of them not printable, the frame draws a
    name tag with them, and the state line holds them between the quotes
    of [name]; [StripMinecraftFormatting] would have given [Steve]. *)
Lemma C10_bridge_121_draws_and_sends_the_raw_name :
  player_name NameScenario.red_steve_obj = NameScenario.red_steve
  /\ all printable NameScenario.red_steve = false
  /\ StripMinecraftFormatting NameScenario.red_steve = "Steve"
  /\ map fst
       (fst (nametag_frame true true OverlayScenario.view (Q2R 0.016) 5000 8
               [NameScenario.red_steve_data] []))
     = [NameScenario.red_steve]%list
  /\ forall (to_string : R -> string) projected (sx sy : R),
       player_json to_string NameScenario.red_steve_data projected sx sy
       = ("{" ++ quoted "sx" ++ ":")
         ++ to_string (if projected then sx else (- lit32 1)%f32)
         ++ ("," ++ quoted "sy" ++ ":")
         ++ to_string (if projected then sy else (- lit32 1)%f32)
         ++ ("," ++ quoted "dist" ++ ":") ++ to_string 10%R
         ++ ("," ++ quoted "name" ++ ":") ++ quoted NameScenario.red_steve
         ++ ("," ++ quoted "hp" ++ ":") ++ to_string 20%R
         ++ "}".
Proof.
  split; [reflexivity|]. split; [reflexivity|]. split; [reflexivity|].
  split.
  - unfold nametag_frame, evict_stale. cbn [andb matsOk OverlayScenario.view].
    cbn [filter nametag_loop].
    change (nametagRenderCap 8 <=? 0) with false.
    change (skipped_as_dashes NameScenario.red_steve_data) with false.
    cbv iota.
    destruct (OverlayFacts.project_scenario_view
                (headPos NameScenario.red_steve_data)) as [[x y] ->].
    { cbn. unfold Q2R. cbn. lra. }
    reflexivity.
  - intros to_string projected sx sy. reflexivity.
Qed.

End NameFacts.
